(** * KNNURA fraud classification engine: a shallow embedding

    The development follows the server side of the repository:

    - [src/lib/fraud-config.ts]            (module [Config])
    - [src/lib/fraud/server/cache.ts]      (module [Cache])
    - [src/lib/fraud/server/ip-reputation.ts] (module [IpReputation])
    - [src/lib/fraud/server/classifier.ts] (module [Classifier])

    JavaScript values are modelled as follows.  Strings are [string]
    (sequences of 8-bit characters; the code only inspects ASCII letters,
    digits, dots and colons).  Event counters, ASNs, scores and clock
    readings are integers [Z].  The only arithmetic that leaves the
    integers, the weighted sum inside [classify], is computed on binary64
    floats as the JavaScript engine does.  A [Map] is an association list
    in insertion order, a [Set] of strings is a [gset string].  Exceptions
    are values of [Js.Completion]. *)

From Stdlib Require Import ZArith QArith Qround String Ascii List Bool Lia.
From Stdlib Require Import Floats DecimalString DecimalPos.
From stdpp Require Import gmap strings.

Import ListNotations.
Local Open Scope Z_scope.

(* ===================================================================== *)
(** * JavaScript primitives used by the sources                           *)
(* ===================================================================== *)

Module Js.

(** ** Completions: a normal value or a thrown exception *)

Inductive Completion (A : Type) : Type :=
| Normal (a : A)
| Throw (message : string).
Arguments Normal {A} a.
Arguments Throw {A} message.

Definition bind {A B} (c : Completion A) (k : A -> Completion B) : Completion B :=
  match c with
  | Normal a => k a
  | Throw m => Throw m
  end.

(** [try { body } catch (error) { handler(error) }] *)
Definition try_catch {A} (body : Completion A) (handler : string -> Completion A)
  : Completion A :=
  match body with
  | Normal a => Normal a
  | Throw m => handler m
  end.

(** ** Characters and strings *)

Definition code (c : ascii) : N := N_of_ascii c.

Definition isDigit (c : ascii) : bool :=
  ((48 <=? code c) && (code c <=? 57))%N.

Definition isHexDigit (c : ascii) : bool :=
  (isDigit c
   || ((97 <=? code c) && (code c <=? 102))
   || ((65 <=? code c) && (code c <=? 70)))%N.

(** The white space that [parseInt] skips, as far as 8-bit characters go:
    TAB, LF, VT, FF, CR, SPACE and NBSP. *)
Definition isWhiteSpace (c : ascii) : bool :=
  (((9 <=? code c) && (code c <=? 13)) || (code c =? 32) || (code c =? 160))%N.

Definition lowerChar (c : ascii) : ascii :=
  if ((65 <=? code c) && (code c <=? 90))%N
  then ascii_of_N (code c + 32)
  else c.

(** [String.prototype.toLowerCase] *)
Fixpoint toLowerCase (s : string) : string :=
  match s with
  | EmptyString => EmptyString
  | String c s' => String (lowerChar c) (toLowerCase s')
  end.

(** [String.prototype.startsWith] *)
Fixpoint startsWith (s prefix : string) : bool :=
  match prefix, s with
  | EmptyString, _ => true
  | String _ _, EmptyString => false
  | String p prefix', String c s' => Ascii.eqb p c && startsWith s' prefix'
  end.

(** [String.prototype.includes] *)
Fixpoint includes (s needle : string) : bool :=
  startsWith s needle
  || match s with
     | EmptyString => false
     | String _ s' => includes s' needle
     end.

(** [String.prototype.split] with a one-character separator *)
Fixpoint split (sep : ascii) (s : string) : list string :=
  match s with
  | EmptyString => [EmptyString]
  | String c s' =>
      if Ascii.eqb c sep then EmptyString :: split sep s'
      else match split sep s' with
           | [] => [String c EmptyString]
           | piece :: pieces => String c piece :: pieces
           end
  end.

(** [Array.prototype.some] and [Array.prototype.every] *)
Definition some {A} (f : A -> bool) (l : list A) : bool := existsb f l.
Definition every {A} (f : A -> bool) (l : list A) : bool := forallb f l.

(** [Array.prototype.push], with one argument and with a spread array *)
Definition push {A} (l : list A) (x : A) : list A := l ++ [x].
Definition pushAll {A} (l xs : list A) : list A := l ++ xs.

(** ** Numbers *)

Definition digitValue (c : ascii) : Z := Z.of_N (code c) - 48.

(** The value of a run of decimal digits, most significant first,
    accumulated from [acc]. *)
Fixpoint digitsValue (acc : Z) (s : string) : Z :=
  match s with
  | EmptyString => acc
  | String c s' => digitsValue (10 * acc + digitValue c) s'
  end.

(** The longest prefix of decimal digits. *)
Fixpoint takeDigits (s : string) : string :=
  match s with
  | EmptyString => EmptyString
  | String c s' => if isDigit c then String c (takeDigits s') else EmptyString
  end.

Fixpoint trimStart (s : string) : string :=
  match s with
  | EmptyString => EmptyString
  | String c s' => if isWhiteSpace c then trimStart s' else s
  end.



(** [parseInt(s, 10)]; [None] stands for [NaN]. *)
Definition parseInt (s : string) : option Z :=
  let s1 := trimStart s in
  let '(negative, s2) :=
    match s1 with
    | String "-" rest => (true, rest)
    | String "+" rest => (false, rest)
    | _ => (false, s1)
    end in
  match takeDigits s2 with
  | EmptyString => None
  | digits =>
      let n := digitsValue 0 digits in
      Some (if negative then - n else n)
  end.

(** [`${n}`] for an integer [n]. *)
Definition numberToString (n : Z) : string :=
  NilZero.string_of_int (Z.to_int n).

(** The binary64 number of an integer in [0, 2^53). *)
Definition ofZ (n : Z) : float := PrimFloat.of_uint63 (Uint63.of_Z n).

(** [Math.round]: the nearest integer, ties towards plus infinity.  That
    is the floor of the exact value plus one half.  The result is an
    integer of the model; zeros, and the non-finite values, which no
    caller produces, give 0. *)
Definition Math_round (x : float) : Z :=
  match Prim2SF x with
  | S754_finite negative m e =>
      let sm := if negative then Z.neg m else Z.pos m in
      if 0 <=? e then sm * 2 ^ e
      else (2 * sm + 2 ^ (- e)) / 2 ^ (- e + 1)
  | _ => 0
  end.

Definition Math_max (a b : Z) : Z := Z.max a b.

End Js.

Export Js (Completion, Normal, Throw).

(* ===================================================================== *)
(** * Regular expressions                                                 *)
(* ===================================================================== *)

(** The two patterns of [isValidIp] are anchored at both ends and use
    character classes, concatenation and bounded repetition [{lo,hi}]
    only.  [test] decides membership of the whole string in the pattern's
    language with Brzozowski derivatives; [lang] is that language. *)

Module Regex.

Inductive regex : Type :=
| Empty                                  (* matches nothing *)
| Eps                                    (* the empty string *)
| Cls (p : ascii -> bool)                (* one character of a class *)
| Cat (r1 r2 : regex)                    (* r1 r2 *)
| Alt (r1 r2 : regex)                    (* r1|r2 *)
| Rep (lo hi : nat) (r : regex).         (* r{lo,hi} *)

Fixpoint nullable (r : regex) : bool :=
  match r with
  | Empty => false
  | Eps => true
  | Cls _ => false
  | Cat r1 r2 => nullable r1 && nullable r2
  | Alt r1 r2 => nullable r1 || nullable r2
  | Rep lo hi r' => (lo <=? hi)%nat && ((lo =? 0)%nat || nullable r')
  end.

Fixpoint deriv (c : ascii) (r : regex) : regex :=
  match r with
  | Empty => Empty
  | Eps => Empty
  | Cls p => if p c then Eps else Empty
  | Cat r1 r2 =>
      if nullable r1 then Alt (Cat (deriv c r1) r2) (deriv c r2)
      else Cat (deriv c r1) r2
  | Alt r1 r2 => Alt (deriv c r1) (deriv c r2)
  | Rep lo hi r' =>
      if (lo <=? hi)%nat && (1 <=? hi)%nat
      then Cat (deriv c r') (Rep (lo - 1) (hi - 1) r')
      else Empty
  end.

(** [/^r$/.test(s)] *)
Fixpoint test (r : regex) (s : string) : bool :=
  match s with
  | EmptyString => nullable r
  | String c s' => test (deriv c r) s'
  end.

(** [k] consecutive pieces, each in [L]. *)
Fixpoint pow (L : string -> Prop) (k : nat) (s : string) : Prop :=
  match k with
  | O => s = EmptyString
  | S k' => exists s1 s2, s = (s1 ++ s2)%string /\ L s1 /\ pow L k' s2
  end.

Fixpoint lang (r : regex) (s : string) : Prop :=
  match r with
  | Empty => False
  | Eps => s = EmptyString
  | Cls p => exists c, s = String c EmptyString /\ p c = true
  | Cat r1 r2 => exists s1 s2, s = (s1 ++ s2)%string /\ lang r1 s1 /\ lang r2 s2
  | Alt r1 r2 => lang r1 s \/ lang r2 s
  | Rep lo hi r' => exists k, (lo <= k <= hi)%nat /\ pow (lang r') k s
  end.

End Regex.

(* ===================================================================== *)
(** * Configuration constants ([fraud-config.ts])                         *)
(* ===================================================================== *)

Module Config.

Local Open Scope string_scope.

Module BEHAVIOR_THRESHOLDS.
Module desktop.
Module mouseMovements.
Definition good : Z := 40.
Definition warn : Z := 20.
End mouseMovements.
End desktop.
Module mobile.
Module touchEvents.
Definition good : Z := 7.
Definition warn : Z := 3.
End touchEvents.
End mobile.
End BEHAVIOR_THRESHOLDS.

Module SCORING_WEIGHTS.
Definition ipReputation : Z := 60.
Definition deviceFingerprint : Z := 30.
Definition behavior : Z := 10.
End SCORING_WEIGHTS.

Module MOBILE_CARRIER_ASNS.
Definition india : list Z :=
    [55836; 45609; 24560; 9498; 45514; 55410; 38266; 9829; 4755; 17747; 18101].
Definition usa : list Z := [7018; 20115; 22394; 6167; 21928; 20057].
Definition other : list Z := [12576; 23455; 34984; 5384; 15802; 24218; 10091].
End MOBILE_CARRIER_ASNS.

Definition ALL_CARRIER_ASNS : gset Z :=
  list_to_set (MOBILE_CARRIER_ASNS.india ++ MOBILE_CARRIER_ASNS.usa
               ++ MOBILE_CARRIER_ASNS.other).

Definition VPN_KEYWORDS : list string :=
  [ "vpn"; "proxy"; "tor"; "tunnel"; "anonymou"; "private internet";
    "surfshark"; "nordvpn"; "expressvpn"; "cyberghost"; "purevpn";
    "ipvanish"; "protonvpn"; "mullvad"; "windscribe"; "hotspot shield";
    "hma"; "hide.me"; "privatevpn"; "strongvpn"; "torguard" ].

Definition DATACENTER_KEYWORDS : list string :=
  [ "amazon"; "aws"; "ec2"; "cloudfront";
    "google"; "gcp"; "cloud";
    "microsoft"; "azure";
    "digitalocean"; "linode"; "vultr"; "hetzner";
    "ovh"; "scaleway"; "upcloud";
    "hosting"; "server"; "datacenter"; "data center";
    "colocation"; "colo"; "dedicated";
    "cloudflare"; "fastly"; "akamai"; "cdn";
    "rackspace"; "godaddy"; "bluehost"; "hostinger";
    "vps"; "virtual private"; "virtual server" ].

Definition DATACENTER_ASNS : gset Z :=
  list_to_set
    [ 16509; 14618; 8987; 15169; 396982; 8075; 8068; 8069;
      14061; 63949; 20473; 16276; 24940; 13335 ].

Definition HIGH_RISK_BROWSERS : list string :=
  [ "facebook"; "facebook messenger"; "opera mini" ].

Module CACHE_CONFIG.
Module ip.
Definition maxSize : Z := 1000.
Definition ttlMs : Z := 60 * 60 * 1000.
End ip.
End CACHE_CONFIG.

Module TIMEOUTS.
Definition ipLookup : Z := 3000.
End TIMEOUTS.

Module IP_API_CONFIG.
Module free.
Definition url (ip : string) : string := "https://ipapi.co/" ++ ip ++ "/json/".
End free.
End IP_API_CONFIG.

End Config.

(* ===================================================================== *)
(** * The in-memory LRU cache ([cache.ts])                                *)
(* ===================================================================== *)

(** A JavaScript [Map<string, V>]: entries in insertion order, at most
    one per key.  [set] on a present key replaces the value where it
    stands; on a new key it appends. *)

Module JsMap.
Section JsMap.
Context {V : Type}.

Definition t : Type := list (string * V).

Definition empty : t := [].

Fixpoint get (m : t) (key : string) : option V :=
  match m with
  | [] => None
  | (k, v) :: m' => if String.eqb k key then Some v else get m' key
  end.

Definition has (m : t) (key : string) : bool :=
  match get m key with Some _ => true | None => false end.

Fixpoint delete (m : t) (key : string) : t :=
  match m with
  | [] => []
  | (k, v) :: m' =>
      if String.eqb k key then delete m' key else (k, v) :: delete m' key
  end.

Fixpoint set (m : t) (key : string) (v : V) : t :=
  match m with
  | [] => [(key, v)]
  | (k, v0) :: m' =>
      if String.eqb k key then (k, v) :: m' else (k, v0) :: set m' key v
  end.

Definition size (m : t) : Z := Z.of_nat (length m).

Definition keys (m : t) : list string := map fst m.

(** [m.keys().next().value]; [None] is [undefined]. *)
Definition firstKey (m : t) : option string :=
  match m with
  | [] => None
  | (k, _) :: _ => Some k
  end.
End JsMap.
Arguments t V : clear implicits.
End JsMap.

Module Cache.

Record CacheEntry (T : Type) : Type := mkEntry {
  value : T;
  expiresAt : Z;
  lastAccessed : Z;
}.
Arguments mkEntry {T}.
Arguments value {T}.
Arguments expiresAt {T}.
Arguments lastAccessed {T}.

(** The field [maxSize] of [CacheStats] is [statsMaxSize] here; the
    cache's own [maxSize] keeps the name. *)
Record CacheStats : Type := mkStats {
  hits : Z;
  misses : Z;
  size : Z;
  statsMaxSize : Z;
}.

Record LRUCache (T : Type) : Type := mkCache {
  cache : JsMap.t (CacheEntry T);
  maxSize : Z;
  defaultTtlMs : Z;
  stats : CacheStats;
}.
Arguments mkCache {T}.
Arguments cache {T}.
Arguments maxSize {T}.
Arguments defaultTtlMs {T}.
Arguments stats {T}.

Section LRUCache.
Context {T : Type}.

(** [new LRUCache({ maxSize, defaultTtlMs })] *)
Definition new (maxSize defaultTtlMs : Z) : LRUCache T :=
  mkCache JsMap.empty maxSize defaultTtlMs (mkStats 0 0 0 maxSize).

Definition countMiss (s : CacheStats) : CacheStats :=
  mkStats (hits s) (misses s + 1) (size s) (statsMaxSize s).
Definition countHit (s : CacheStats) : CacheStats :=
  mkStats (hits s + 1) (misses s) (size s) (statsMaxSize s).
Definition setSize (n : Z) (s : CacheStats) : CacheStats :=
  mkStats (hits s) (misses s) n (statsMaxSize s).

Definition withMap (c : LRUCache T) (m : JsMap.t (CacheEntry T))
    (s : CacheStats) : LRUCache T :=
  mkCache m (maxSize c) (defaultTtlMs c) s.

(** Every method reads the clock [Date.now()] as [now].  Where a method
    reads it twice, the second reading only goes into [lastAccessed],
    which no code reads back; the model takes one reading per call. *)

Definition get (c : LRUCache T) (now : Z) (key : string)
  : option T * LRUCache T :=
  match JsMap.get (cache c) key with
  | None => (None, withMap c (cache c) (countMiss (stats c)))
  | Some entry =>
      if now >? expiresAt entry then
        let m := JsMap.delete (cache c) key in
        (None, withMap c m (countMiss (setSize (JsMap.size m) (stats c))))
      else
        let entry' := mkEntry (value entry) (expiresAt entry) now in
        let m := JsMap.set (JsMap.delete (cache c) key) key entry' in
        (Some (value entry), withMap c m (countHit (stats c)))
  end.

(** [if (firstKey)] is false for [undefined] and for the empty string. *)
Definition evictOldest (m : JsMap.t (CacheEntry T)) : JsMap.t (CacheEntry T) :=
  match JsMap.firstKey m with
  | Some firstKey =>
      if negb (String.eqb firstKey "") then JsMap.delete m firstKey else m
  | None => m
  end.

Definition set (c : LRUCache T) (now : Z) (key : string) (v : T)
    (ttlMs : option Z) : LRUCache T :=
  let ttl := match ttlMs with Some t => t | None => defaultTtlMs c end in
  let m1 :=
    if (JsMap.size (cache c) >=? maxSize c) && negb (JsMap.has (cache c) key)
    then evictOldest (cache c)
    else cache c in
  let m2 := JsMap.delete m1 key in
  let m3 := JsMap.set m2 key (mkEntry v (now + ttl) now) in
  withMap c m3 (setSize (JsMap.size m3) (stats c)).

Definition has (c : LRUCache T) (now : Z) (key : string)
  : bool * LRUCache T :=
  match JsMap.get (cache c) key with
  | None => (false, c)
  | Some entry =>
      if now >? expiresAt entry then
        let m := JsMap.delete (cache c) key in
        (false, withMap c m (setSize (JsMap.size m) (stats c)))
      else (true, c)
  end.

Definition delete (c : LRUCache T) (key : string) : bool * LRUCache T :=
  let deleted := JsMap.has (cache c) key in
  let m := JsMap.delete (cache c) key in
  (deleted, withMap c m (setSize (JsMap.size m) (stats c))).

Definition clear (c : LRUCache T) : LRUCache T :=
  withMap c JsMap.empty (setSize 0 (stats c)).

(** [getStats()]: the counters and the hit rate, as an exact quotient. *)
Definition getStats (c : LRUCache T) : CacheStats * Q :=
  let total := hits (stats c) + misses (stats c) in
  let hitRate :=
    if total >? 0 then (inject_Z (hits (stats c)) / inject_Z total)%Q else 0%Q in
  (stats c, hitRate).

(** The loop of [cleanup] deletes while it iterates; a [Map] iterator
    still visits every remaining entry once. *)
Definition cleanup (c : LRUCache T) (now : Z) : Z * LRUCache T :=
  let expired := List.filter (fun kv => now >? expiresAt (snd kv)) (cache c) in
  let m := List.filter (fun kv => negb (now >? expiresAt (snd kv))) (cache c) in
  (Z.of_nat (length expired), withMap c m (setSize (JsMap.size m) (stats c))).

(** The mutating calls a client can make, each with its clock reading. *)
Inductive Op : Type :=
| OpGet (now : Z) (key : string)
| OpSet (now : Z) (key : string) (v : T) (ttlMs : option Z)
| OpHas (now : Z) (key : string)
| OpDelete (key : string)
| OpClear
| OpCleanup (now : Z).

Definition step (c : LRUCache T) (op : Op) : LRUCache T :=
  match op with
  | OpGet now key => snd (get c now key)
  | OpSet now key v ttlMs => set c now key v ttlMs
  | OpHas now key => snd (has c now key)
  | OpDelete key => snd (delete c key)
  | OpClear => clear c
  | OpCleanup now => snd (cleanup c now)
  end.

Definition run (c : LRUCache T) (ops : list Op) : LRUCache T :=
  fold_left step ops c.

(** The number of stored entries, [this.cache.size]. *)
Definition entries (c : LRUCache T) : Z := JsMap.size (cache c).

End LRUCache.
Arguments Op T : clear implicits.

End Cache.

(* ===================================================================== *)
(** * Data types ([types.ts])                                             *)
(* ===================================================================== *)

Module Types.

Inductive Classification : Type := GOOD | WARN | BAD.

Inductive DeviceType : Type := desktop | mobile | tablet | bot | unknown.

Definition DeviceType_eqb (a b : DeviceType) : bool :=
  match a, b with
  | desktop, desktop | mobile, mobile | tablet, tablet
  | bot, bot | unknown, unknown => true
  | _, _ => false
  end.

Record DeviceInfo : Type := mkDevice {
  type : DeviceType;
  isMobile : bool;
  isTablet : bool;
  isDesktop : bool;
  isFakeMobile : bool;
  isAutomated : bool;
  isHeadless : bool;
  os : string;
  osVersion : string;
  browser : string;
  browserVersion : string;
  platform : string;
}.

(** Of a [Fingerprint] the server reads [device] only; the remaining
    identity strings are carried along. *)
Record Fingerprint : Type := mkFingerprint {
  device : DeviceInfo;
  userAgent : string;
  language : string;
  timezone : string;
  canvasHash : string;
  webglHash : string;
}.

Record BehaviorData : Type := mkBehavior {
  mouseMovements : Z;
  mouseClicks : Z;
  mouseDistance : Z;
  touchEvents : Z;
  touchTaps : Z;
  touchSwipes : Z;
  scrollEvents : Z;
  scrollDistance : Z;
  keyPresses : Z;
  activeTime : Z;
  totalTime : Z;
  lastEventTime : Z;
  sessionId : string;
  pageUrl : string;
}.

Record IpReputationResult : Type := mkIpReputation {
  ip : string;
  isVpn : bool;
  isDatacenter : bool;
  isMobileCarrier : bool;
  isProxy : bool;
  isTor : bool;
  asn : option Z;
  org : string;
  isp : string;
  country : string;
  countryCode : string;
  region : string;
  city : string;
  cached : bool;
}.

Record FraudDetails : Type := mkDetails {
  ipReputation : option IpReputationResult;
  deviceType : option DeviceType;
  flags : list string;
}.

(** [timestamp] and [processingTime] are wall-clock readings taken while
    the result is built; they carry no decision and are left out. *)
Record FraudResult : Type := mkResult {
  classification : Classification;
  score : Z;
  reason : string;
  details : FraudDetails;
}.

End Types.

(* ===================================================================== *)
(** * The IP reputation service ([ip-reputation.ts])                      *)
(* ===================================================================== *)

Module IpReputation.

Import Types.
Local Open Scope string_scope.
Local Open Scope Z_scope.

(** The body of an ipapi.co answer.  A field that the JSON object lacks
    is [None]. *)
Module Api.
Record IpApiResponse : Type := mkResponse {
  ip : string;
  city : option string;
  region : option string;
  country : option string;
  country_code : option string;
  org : option string;
  asn : option string;
  error : bool;
  reason : option string;
}.
End Api.

(** [s || ''] *)
Definition orEmpty (s : option string) : string :=
  match s with Some s' => s' | None => "" end.

(** ** What the network does *)

Inductive Body : Type :=
| BodyUnparsable                       (* [response.json()] rejects *)
| BodyJson (data : Api.IpApiResponse).

Inductive FetchOutcome : Type :=
| Aborted                              (* the 3 s timer fired first *)
| NetworkError (message : string)      (* [fetch] rejects *)
| Response (status : Z) (body : Body).

(** [response.ok] *)
Definition ok (status : Z) : bool := (200 <=? status) && (status <=? 299).

(** The environment of one resolution: the answer of the lookup service
    per URL and the clock readings at [cache.get] and [cache.set]. *)
Record Env : Type := mkEnv {
  fetch : string -> FetchOutcome;
  nowLookup : Z;
  nowStore : Z;
}.

(** The module state: the two manual lists and the cache singleton. *)
Record World : Type := mkWorld {
  manualWhitelist : gset string;
  manualBlacklist : gset string;
  ipCache : option (Cache.LRUCache IpReputationResult);
}.

Definition initialWorld : World := mkWorld ∅ ∅ None.

(** [getIpCache()] ([cache.ts]) *)
Definition getIpCache (w : World) : Cache.LRUCache IpReputationResult * World :=
  match ipCache w with
  | Some c => (c, w)
  | None =>
      let c := Cache.new Config.CACHE_CONFIG.ip.maxSize Config.CACHE_CONFIG.ip.ttlMs in
      (c, mkWorld (manualWhitelist w) (manualBlacklist w) (Some c))
  end.

Definition withIpCache (w : World) (c : Cache.LRUCache IpReputationResult) : World :=
  mkWorld (manualWhitelist w) (manualBlacklist w) (Some c).

(** ** Helper functions *)

Import Regex.

Definition digit : regex := Cls Js.isDigit.
Definition hex : regex := Cls Js.isHexDigit.
Definition chr (c : ascii) : regex := Cls (Ascii.eqb c).

(** [/^(\d{1,3}\.){3}\d{1,3}$/] *)
Definition ipv4Regex : regex :=
  Cat (Rep 3 3 (Cat (Rep 1 3 digit) (chr "."))) (Rep 1 3 digit).

(** [/^([0-9a-fA-F]{0,4}:){2,7}[0-9a-fA-F]{0,4}$/] *)
Definition ipv6Regex : regex :=
  Cat (Rep 2 7 (Cat (Rep 0 4 hex) (chr ":"))) (Rep 0 4 hex).

Definition octetInRange (octet : string) : bool :=
  match Js.parseInt octet with
  | Some num => (num >=? 0) && (num <=? 255)
  | None => false
  end.

Definition isValidIp (ip : string) : bool :=
  if Regex.test ipv4Regex ip
  then Js.every octetInRange (Js.split "." ip)
  else Regex.test ipv6Regex ip.

(** [asnString.match(/\d+/)]: the first maximal run of digits. *)
Fixpoint firstDigits (s : string) : option string :=
  match s with
  | EmptyString => None
  | String c s' =>
      if Js.isDigit c then Some (Js.takeDigits s) else firstDigits s'
  end.

Definition parseAsn (asnString : option string) : option Z :=
  match asnString with
  | None => None
  | Some "" => None
  | Some s =>
      match firstDigits s with
      | None => None
      | Some digits => Js.parseInt digits
      end
  end.

Definition createUnknownResult (ip reason : string) : IpReputationResult :=
  {| ip := ip;
     isVpn := false;
     isDatacenter := false;
     isMobileCarrier := false;
     isProxy := false;
     isTor := false;
     asn := None;
     org := "";
     isp := "";
     country := "";
     countryCode := "";
     region := "";
     city := "";
     cached := false |}.

Definition inSet (s : gset Z) (n : option Z) : bool :=
  match n with
  | Some n' => bool_decide (n' ∈ s)
  | None => false
  end.

Definition parseIpApiResponse (data : Api.IpApiResponse) : IpReputationResult :=
  let asnNumber := parseAsn (Api.asn data) in
  let org := Js.toLowerCase (orEmpty (Api.org data)) in
  let isMobileCarrier := inSet Config.ALL_CARRIER_ASNS asnNumber in
  let isDatacenterAsn := inSet Config.DATACENTER_ASNS asnNumber in
  let isVpn := Js.some (fun keyword => Js.includes org keyword) Config.VPN_KEYWORDS in
  let isDatacenterName :=
    Js.some (fun keyword => Js.includes org keyword) Config.DATACENTER_KEYWORDS in
  {| ip := Api.ip data;
     isVpn := isVpn;
     isDatacenter := isDatacenterAsn || isDatacenterName;
     isMobileCarrier := isMobileCarrier;
     isProxy := false;
     isTor := Js.includes org "tor exit" || Js.includes org "tor project";
     asn := asnNumber;
     org := orEmpty (Api.org data);
     isp := orEmpty (Api.org data);
     country := orEmpty (Api.country data);
     countryCode := orEmpty (Api.country_code data);
     region := orEmpty (Api.region data);
     city := orEmpty (Api.city data);
     cached := false |}.

(** ** The lookup *)

Definition fetchIpReputation (env : Env) (ip : string)
  : Completion IpReputationResult :=
  Js.try_catch
    (let url := Config.IP_API_CONFIG.free.url ip in
     match fetch env url with
     | Aborted => Throw "AbortError"
     | NetworkError message => Throw message
     | Response status body =>
         if negb (ok status) then Throw ("HTTP " ++ Js.numberToString status)
         else
           match body with
           | BodyUnparsable => Throw "SyntaxError"
           | BodyJson data =>
               if Api.error data then
                 Throw (match Api.reason data with
                        | Some "" | None => "Unknown API error"
                        | Some r => r
                        end)
               else Normal (parseIpApiResponse data)
           end
     end)
    (fun error => Throw error).

Definition markCached (r : IpReputationResult) : IpReputationResult :=
  {| ip := ip r; isVpn := isVpn r; isDatacenter := isDatacenter r;
     isMobileCarrier := isMobileCarrier r; isProxy := isProxy r;
     isTor := isTor r; asn := asn r; org := org r; isp := isp r;
     country := country r; countryCode := countryCode r;
     region := region r; city := city r; cached := true |}.

Definition checkIpReputation (env : Env) (w : World) (ip : string)
  : Completion IpReputationResult * World :=
  if negb (isValidIp ip) then
    (Normal (createUnknownResult ip "Invalid IP format"), w)
  else
    let '(cache, w) := getIpCache w in
    let '(cached, cache) := Cache.get cache (nowLookup env) ip in
    match cached with
    | Some r => (Normal (markCached r), withIpCache w cache)
    | None =>
        let '(body, cache) :=
          match fetchIpReputation env ip with
          | Normal result =>
              (Normal result, Cache.set cache (nowStore env) ip result None)
          | Throw error => (Throw error, cache)
          end in
        (Js.try_catch body
           (fun _ => Normal (createUnknownResult ip "API error")),
         withIpCache w cache)
    end.

(** ** Manual overrides *)

Definition addToWhitelist (w : World) (ip : string) : World :=
  mkWorld (manualWhitelist w ∪ {[ip]}) (manualBlacklist w ∖ {[ip]}) (ipCache w).

Definition addToBlacklist (w : World) (ip : string) : World :=
  mkWorld (manualWhitelist w ∖ {[ip]}) (manualBlacklist w ∪ {[ip]}) (ipCache w).

Definition isWhitelisted (w : World) (ip : string) : bool :=
  bool_decide (ip ∈ manualWhitelist w).

Definition isBlacklisted (w : World) (ip : string) : bool :=
  bool_decide (ip ∈ manualBlacklist w).

End IpReputation.

(* ===================================================================== *)
(** * The classification engine ([classifier.ts])                         *)
(* ===================================================================== *)

Module Classifier.

Import Types.
Export IpReputation (Env, World, checkIpReputation, isWhitelisted, isBlacklisted).
Local Open Scope string_scope.
Local Open Scope Z_scope.

Record ClassifyInput : Type := mkInput {
  ip : string;
  fingerprint : Fingerprint;
  behavior : BehaviorData;
}.

Module Analysis.
Record BehaviorAnalysisResult : Type := mkAnalysis {
  score : Z;
  classification : Classification;
  reason : string;
  flags : list string;
}.
End Analysis.
Import (notations) Analysis.

(** [`${deviceType}`] *)
Definition deviceTypeName (t : DeviceType) : string :=
  match t with
  | desktop => "desktop"
  | mobile => "mobile"
  | tablet => "tablet"
  | bot => "bot"
  | unknown => "unknown"
  end.

Definition analyzeBehavior (deviceType : DeviceType) (behavior : BehaviorData)
  : Analysis.BehaviorAnalysisResult :=
  let flags : list string := [] in
  if DeviceType_eqb deviceType bot || DeviceType_eqb deviceType unknown then
    Analysis.mkAnalysis 0 BAD
      ("Suspicious device type: " ++ deviceTypeName deviceType)
      ["suspicious_device_type"]
  else if DeviceType_eqb deviceType desktop then
    let mouseMovements := mouseMovements behavior in
    if mouseMovements >=? Config.BEHAVIOR_THRESHOLDS.desktop.mouseMovements.good then
      Analysis.mkAnalysis 100 GOOD
        ("Good desktop behavior: " ++ Js.numberToString mouseMovements
         ++ " mouse movements")
        ["good_mouse_behavior"]
    else if mouseMovements >=? Config.BEHAVIOR_THRESHOLDS.desktop.mouseMovements.warn then
      let flags := Js.push flags "low_mouse_movements" in
      Analysis.mkAnalysis 60 WARN
        ("Low mouse movements: " ++ Js.numberToString mouseMovements
         ++ " (threshold: "
         ++ Js.numberToString Config.BEHAVIOR_THRESHOLDS.desktop.mouseMovements.good
         ++ ")")
        flags
    else
      let flags := Js.push flags "very_low_mouse_movements" in
      Analysis.mkAnalysis 40 WARN
        ("Very low mouse movements: " ++ Js.numberToString mouseMovements)
        flags
  else if DeviceType_eqb deviceType mobile || DeviceType_eqb deviceType tablet then
    let touchEvents := touchEvents behavior in
    if touchEvents >=? Config.BEHAVIOR_THRESHOLDS.mobile.touchEvents.good then
      Analysis.mkAnalysis 100 GOOD
        ("Good mobile behavior: " ++ Js.numberToString touchEvents
         ++ " touch events")
        ["good_touch_behavior"]
    else if touchEvents >=? Config.BEHAVIOR_THRESHOLDS.mobile.touchEvents.warn then
      let flags := Js.push flags "low_touch_events" in
      Analysis.mkAnalysis 60 WARN
        ("Low touch events: " ++ Js.numberToString touchEvents
         ++ " (threshold: "
         ++ Js.numberToString Config.BEHAVIOR_THRESHOLDS.mobile.touchEvents.good
         ++ ")")
        flags
    else
      let flags := Js.push flags "very_low_touch_events" in
      Analysis.mkAnalysis 40 WARN
        ("Very low touch events: " ++ Js.numberToString touchEvents)
        flags
  else
    Analysis.mkAnalysis 50 WARN "Unknown behavior pattern" ["unknown_behavior"].

Definition calculateIpScore (ipReputation : IpReputationResult) : Z :=
  if isMobileCarrier ipReputation then 95
  else if isVpn ipReputation || isTor ipReputation then 0
  else if isDatacenter ipReputation then 10
  else if isProxy ipReputation then 20
  else 80.

Definition createResult (classification : Classification) (score : Z)
    (reason : string) (flags : list string)
    (ipReputation : option IpReputationResult)
    (deviceType : option DeviceType) : FraudResult :=
  {| classification := classification;
     score := score;
     reason := reason;
     details := {| ipReputation := ipReputation;
                   deviceType := deviceType;
                   flags := flags |} |}.

(** The weighted sum of [classify], in binary64 arithmetic. *)
Definition weightedScore (ipScore deviceScore behaviorScore : Z) : Z :=
  Js.Math_round
    (Js.ofZ ipScore * (Js.ofZ Config.SCORING_WEIGHTS.ipReputation / Js.ofZ 100)
     + Js.ofZ deviceScore
       * (Js.ofZ Config.SCORING_WEIGHTS.deviceFingerprint / Js.ofZ 100)
     + Js.ofZ behaviorScore
       * (Js.ofZ Config.SCORING_WEIGHTS.behavior / Js.ofZ 100))%float.

(** The tail of [classify], from the behaviour analysis on. *)
Definition classifyByBehavior (device : DeviceInfo) (behavior : BehaviorData)
    (ipReputation : IpReputationResult) (flags : list string) : FraudResult :=
  let behaviorResult := analyzeBehavior (type device) behavior in
  let flags := Js.pushAll flags (Analysis.flags behaviorResult) in
  let browserLower := Js.toLowerCase (browser device) in
  let isHighRiskBrowser :=
    Js.some (fun b => Js.includes browserLower b) Config.HIGH_RISK_BROWSERS in
  let flags :=
    if isHighRiskBrowser then Js.push flags "high_risk_browser" else flags in
  let behaviorScore :=
    if isHighRiskBrowser
    then Js.Math_max 0 (Analysis.score behaviorResult - 10)
    else Analysis.score behaviorResult in
  let finalScore :=
    weightedScore
      (if isMobileCarrier ipReputation then 60 else calculateIpScore ipReputation)
      (if isFakeMobile device || isAutomated device then 0 else 80)
      behaviorScore in
  let classification :=
    if behaviorScore >=? 80 then GOOD
    else if behaviorScore >=? 40 then WARN
    else WARN in
  let reason := Analysis.reason behaviorResult in
  createResult classification finalScore reason flags
    (Some ipReputation) (Some (type device)).

Definition classify (env : Env) (w : World) (input : ClassifyInput)
  : Completion FraudResult * World :=
  let flags : list string := [] in
  let ip := ip input in
  let behavior := behavior input in
  let device := device (fingerprint input) in
  if isBlacklisted w ip then
    (Normal (createResult BAD 0 "IP is blacklisted" flags None None), w)
  else if isWhitelisted w ip then
    (Normal (createResult GOOD 100 "IP is whitelisted" flags None None), w)
  else if isAutomated device then
    let flags := Js.push flags "webdriver_detected" in
    (Normal (createResult BAD 0 "Automation detected (navigator.webdriver)"
               flags None None), w)
  else if isHeadless device then
    let flags := Js.push flags "headless_browser" in
    (Normal (createResult BAD 0 "Headless browser detected" flags None None), w)
  else if isFakeMobile device then
    let flags := Js.push flags "fake_mobile" in
    (Normal (createResult BAD 0 "Fake mobile device detected (emulator)"
               flags None None), w)
  else
    let '(resolved, w) := checkIpReputation env w ip in
    (Js.bind resolved (fun ipReputation =>
       if isVpn ipReputation then
         let flags := Js.push flags "vpn_detected" in
         Normal (createResult BAD 5 ("VPN detected: " ++ org ipReputation)
                   flags (Some ipReputation) None)
       else if isTor ipReputation then
         let flags := Js.push flags "tor_detected" in
         Normal (createResult BAD 0 "Tor exit node detected"
                   flags (Some ipReputation) None)
       else if isDatacenter ipReputation then
         let flags := Js.push flags "datacenter_ip" in
         Normal (createResult BAD 10
                   ("Datacenter/hosting IP: " ++ org ipReputation)
                   flags (Some ipReputation) None)
       else if isMobileCarrier ipReputation then
         let flags := Js.push flags "mobile_carrier" in
         Normal (createResult GOOD 95 ("Mobile carrier: " ++ org ipReputation)
                   flags (Some ipReputation) None)
       else
         Normal (classifyByBehavior device behavior ipReputation flags)),
     w).

(** ** The synchronous testing helper *)

Record SyncResult : Type := mkSync {
  syncClassification : Classification;
  syncReason : string;
}.

Definition classifySync (ipReputation : IpReputationResult)
    (fingerprint : Fingerprint) (behavior : BehaviorData) : SyncResult :=
  if isAutomated (device fingerprint) then mkSync BAD "Automation detected"
  else if isHeadless (device fingerprint) then mkSync BAD "Headless browser"
  else if isFakeMobile (device fingerprint) then mkSync BAD "Fake mobile"
  else if isVpn ipReputation || isTor ipReputation then mkSync BAD "VPN/Tor detected"
  else if isDatacenter ipReputation then mkSync BAD "Datacenter IP"
  else if isMobileCarrier ipReputation then mkSync GOOD "Mobile carrier"
  else
    let deviceType := type (device fingerprint) in
    if DeviceType_eqb deviceType desktop then
      if mouseMovements behavior >=? 40
      then mkSync GOOD "Good desktop behavior"
      else mkSync WARN "Low mouse movements"
    else if DeviceType_eqb deviceType mobile || DeviceType_eqb deviceType tablet then
      if touchEvents behavior >=? 7
      then mkSync GOOD "Good mobile behavior"
      else mkSync WARN "Low touch events"
    else mkSync WARN "Unknown pattern".

End Classifier.

(* ===================================================================== *)
(** * The callers: the API routes                                         *)
(* ===================================================================== *)

(** Of [app/api/fraud-check/route.ts] the choice of the client address,
    and of [app/api/ip-list/route.ts] the cache invalidation.  The
    handlers around them parse JSON and write to the database. *)

Module Route.

Import Types IpReputation Classifier.
Local Open Scope string_scope.
Local Open Scope Z_scope.





(** [getIpCache().delete(ip)], the last step of the ip-list route. *)
Definition invalidateIp (w : World) (ip : string) : World :=
  let '(cache, w) := getIpCache w in
  withIpCache w (snd (Cache.delete cache ip)).

End Route.

(* ===================================================================== *)
(** * The specification's own wording                                     *)
(* ===================================================================== *)

(** Definitions written after the design document, to be compared with
    the code above. *)

Module Spec.

Import Types IpReputation Classifier.
Local Open Scope string_scope.
Local Open Scope Z_scope.

(** ** The rule cascade, as the priority table has it *)

Inductive Rule : Type :=
| DenyList | AllowList | Automated | Headless | FakeMobile
| Vpn | Tor | Datacenter | MobileCarrier | Behavior.

Definition priority : list Rule :=
  [ DenyList; AllowList; Automated; Headless; FakeMobile;
    Vpn; Tor; Datacenter; MobileCarrier; Behavior ].

(** The condition of each rule, over the lists, the request and the
    reputation the resolver gives for the request's IP. *)
Definition fires (w : World) (input : ClassifyInput)
    (rep : IpReputationResult) (r : Rule) : bool :=
  let dev := device (fingerprint input) in
  match r with
  | DenyList => isBlacklisted w (ip input)
  | AllowList => isWhitelisted w (ip input)
  | Automated => isAutomated dev
  | Headless => isHeadless dev
  | FakeMobile => isFakeMobile dev
  | Vpn => isVpn rep
  | Tor => isTor rep
  | Datacenter => isDatacenter rep
  | MobileCarrier => isMobileCarrier rep
  | Behavior => true
  end.

Definition firstMatch (w : World) (input : ClassifyInput)
    (rep : IpReputationResult) : Rule :=
  match List.find (fires w input rep) priority with
  | Some r => r
  | None => Behavior
  end.

(** Verdict and score of the nine instant rules. *)
Definition verdict (r : Rule) : option (Classification * Z) :=
  match r with
  | DenyList => Some (BAD, 0)
  | AllowList => Some (GOOD, 100)
  | Automated => Some (BAD, 0)
  | Headless => Some (BAD, 0)
  | FakeMobile => Some (BAD, 0)
  | Vpn => Some (BAD, 5)
  | Tor => Some (BAD, 0)
  | Datacenter => Some (BAD, 10)
  | MobileCarrier => Some (GOOD, 95)
  | Behavior => None
  end.

(** The tags that the instant rules push, as the code names them; the
    two list rules push none. *)
Definition tags (r : Rule) : list string :=
  match r with
  | DenyList | AllowList | Behavior => []
  | Automated => ["webdriver_detected"]
  | Headless => ["headless_browser"]
  | FakeMobile => ["fake_mobile"]
  | Vpn => ["vpn_detected"]
  | Tor => ["tor_detected"]
  | Datacenter => ["datacenter_ip"]
  | MobileCarrier => ["mobile_carrier"]
  end.

(** Rules 1 to 5 are decided before the resolver is asked. *)
Definition beforeLookup (r : Rule) : bool :=
  match r with
  | DenyList | AllowList | Automated | Headless | FakeMobile => true
  | _ => false
  end.

(** The reputation that [classify]'s resolver produces for an IP. *)
Definition resolved (env : Env) (w : World) (ip : string) : IpReputationResult :=
  match fst (checkIpReputation env w ip) with
  | Normal rep => rep
  | Throw _ => createUnknownResult ip ""
  end.

(** ** The composite score of rule 10 *)

Definition ipComponent (rep : IpReputationResult) : Q :=
  if isMobileCarrier rep then 95%Q
  else if isVpn rep || isTor rep then 0%Q
  else if isDatacenter rep then 10%Q
  else if isProxy rep then 20%Q
  else 80%Q.

Definition deviceComponent (dev : DeviceInfo) : Q :=
  if isFakeMobile dev || isAutomated dev then 0%Q else 80%Q.

Definition highRiskBrowser (dev : DeviceInfo) : bool :=
  existsb (fun keyword => Js.includes (Js.toLowerCase (browser dev)) keyword)
    Config.HIGH_RISK_BROWSERS.

(** The Behavior Analyzer's score after the high-risk-browser
    subtraction: 10 points off, floored at 0. *)
Definition behaviorComponent (dev : DeviceInfo) (b : BehaviorData) : Z :=
  let s := Analysis.score (analyzeBehavior (type dev) b) in
  if highRiskBrowser dev then Z.max 0 (s - 10) else s.

(** Rounding to the nearest integer. *)
Definition round (q : Q) : Z := Qfloor (q + (1 # 2))%Q.

Definition compositeScore (rep : IpReputationResult) (dev : DeviceInfo)
    (b : BehaviorData) : Z :=
  round (ipComponent rep * 0.6 + deviceComponent dev * 0.3
         + inject_Z (behaviorComponent dev b) * 0.1)%Q.

(** The GOOD/WARN label of rule 10 for a behaviour score. *)
Definition label (behaviorScore : Z) : Classification :=
  if 80 <=? behaviorScore then GOOD else WARN.

(** The same request with other device, or other behaviour, data. *)
Definition withBrowser (input : ClassifyInput) (name : string) : ClassifyInput :=
  let fp := fingerprint input in
  let dev := device fp in
  {| ip := ip input;
     fingerprint :=
       {| device :=
            {| type := type dev; isMobile := isMobile dev;
               isTablet := isTablet dev; isDesktop := isDesktop dev;
               isFakeMobile := isFakeMobile dev; isAutomated := isAutomated dev;
               isHeadless := isHeadless dev; os := os dev;
               osVersion := osVersion dev; browser := name;
               browserVersion := browserVersion dev; platform := platform dev |};
          userAgent := userAgent fp; language := language fp;
          timezone := timezone fp; canvasHash := canvasHash fp;
          webglHash := webglHash fp |};
     behavior := behavior input |}.

Definition withBehavior (input : ClassifyInput) (b : BehaviorData) : ClassifyInput :=
  {| ip := ip input; fingerprint := fingerprint input; behavior := b |}.

(** ** The resolver's validation and failure cases *)

Definition isOctet (s : string) : bool :=
  negb (String.eqb s "")
  && forallb Js.isDigit (list_ascii_of_string s)
  && (0 <=? Js.digitsValue 0 s) && (Js.digitsValue 0 s <=? 255).

(** Four dot-separated octets, each 0 to 255. *)
Definition wellFormedIPv4 (ip : string) : bool :=
  match Js.split "." ip with
  | [a; b; c; d] => isOctet a && isOctet b && isOctet c && isOctet d
  | _ => false
  end.

(** Two to seven colon-terminated groups of at most four hexadecimal
    digits, and a last such group. *)
Definition plausibleIPv6 (ip : string) : bool := Regex.test ipv6Regex ip.

(** The lookup times out, fails in transport, answers with a status
    outside 200 to 299, or with a body that does not parse or that
    reports an error. *)
Definition lookupFails (outcome : FetchOutcome) : bool :=
  match outcome with
  | Aborted => true
  | NetworkError _ => true
  | Response status body =>
      negb ((200 <=? status) && (status <=? 299))
      || match body with
         | BodyUnparsable => true
         | BodyJson data => Api.error data
         end
  end.

(** The neutral result. *)
Definition isUnknown (r : IpReputationResult) : Prop :=
  isVpn r = false /\ isDatacenter r = false /\ isMobileCarrier r = false
  /\ isProxy r = false /\ isTor r = false /\ asn r = None
  /\ org r = "" /\ isp r = "" /\ country r = "" /\ countryCode r = ""
  /\ region r = "" /\ city r = "".

(** ** The cache *)

(** Size within the bound, one entry per key, no empty key. *)
Definition cacheInvariant {T} (c : Cache.LRUCache T) : Prop :=
  Cache.entries c <= Cache.maxSize c
  /\ NoDup (JsMap.keys (Cache.cache c))
  /\ Forall (fun k => k <> "") (JsMap.keys (Cache.cache c)).

(** A call that stores under a non-empty key, or does not store. *)
Definition storesNonEmptyKey {T} (op : Cache.Op T) : Prop :=
  match op with
  | Cache.OpSet _ key _ _ => key <> ""
  | _ => True
  end.

(** ** The flag names of the Behavior Analyzer's WARN tiers *)

Definition low_movement : string := "low_movement".
Definition very_low_movement : string := "very_low_movement".
Definition low_touch : string := "low_touch".
Definition very_low_touch : string := "very_low_touch".

End Spec.

(* ===================================================================== *)
(** * Sample data ([__tests__/classifier.test.ts])                        *)
(* ===================================================================== *)

Module Mock.

Import Types IpReputation Classifier.
Local Open Scope string_scope.
Local Open Scope Z_scope.

(** [createMockFingerprint], with the overridden device fields as
    arguments. *)
Definition createMockDevice (t : DeviceType) (fakeMobile automated headless : bool)
    (browser : string) : DeviceInfo :=
  {| type := t;
     isMobile := DeviceType_eqb t mobile;
     isTablet := DeviceType_eqb t tablet;
     isDesktop := DeviceType_eqb t desktop;
     isFakeMobile := fakeMobile;
     isAutomated := automated;
     isHeadless := headless;
     os := "Windows";
     osVersion := "10";
     browser := browser;
     browserVersion := "120";
     platform := "Win32" |}.

Definition createMockFingerprint (dev : DeviceInfo) : Fingerprint :=
  {| device := dev;
     userAgent := "Mozilla/5.0 (Windows NT 10.0; Win64; x64) Chrome/120.0.0.0";
     language := "en-US";
     timezone := "Asia/Kolkata";
     canvasHash := "abc123";
     webglHash := "xyz789" |}.

(** [createMockBehavior({ mouseMovements, touchEvents })] *)
Definition createMockBehavior (mouse touch : Z) : BehaviorData :=
  {| mouseMovements := mouse; mouseClicks := 0; mouseDistance := 0;
     touchEvents := touch; touchTaps := 0; touchSwipes := 0;
     scrollEvents := 0; scrollDistance := 0; keyPresses := 0;
     activeTime := 0; totalTime := 3000; lastEventTime := 0;
     sessionId := "test-session"; pageUrl := "https://example.com" |}.

(** An ipapi.co answer for [ip] with the given organisation and ASN. *)
Definition answer (ip org asn : string) : Api.IpApiResponse :=
  {| Api.ip := ip; Api.city := Some "Mumbai"; Api.region := Some "Maharashtra";
     Api.country := Some "India"; Api.country_code := Some "IN";
     Api.org := Some org; Api.asn := Some asn;
     Api.error := false; Api.reason := None |}.

(** A lookup service that gives the same outcome for every address. *)
Definition always (outcome : FetchOutcome) : Env :=
  {| fetch := fun _ => outcome; nowLookup := 1000; nowStore := 1200 |}.

Definition residential : Env :=
  always (Response 200 (BodyJson (answer "203.0.113.7" "Test ISP" "AS12345"))).

Definition jio : Env :=
  always (Response 200
            (BodyJson (answer "203.0.113.7" "Reliance Jio Infocomm Limited" "AS55836"))).

Definition desktopChrome : Fingerprint :=
  createMockFingerprint (createMockDevice desktop false false false "Chrome").

Definition request (fp : Fingerprint) (b : BehaviorData) : ClassifyInput :=
  {| ip := "203.0.113.7"; fingerprint := fp; behavior := b |}.

(** A desktop in the Facebook in-app browser. *)
Definition facebookDesktop : Fingerprint :=
  createMockFingerprint (createMockDevice desktop false false false "Facebook").

(** A phone that sent no event at all. *)
Definition idlePhone : ClassifyInput :=
  request
    (createMockFingerprint (createMockDevice mobile false false false "Chrome"))
    (createMockBehavior 0 0).

End Mock.

(* ===================================================================== *)
(** * Notions used to state further properties of the code               *)
(* ===================================================================== *)

Module Props.

Import Types IpReputation Classifier.
Local Open Scope string_scope.
Local Open Scope Z_scope.

(** ** Patterns *)

Definition allAscii : list ascii := map ascii_of_nat (seq 0 256).

(** Every character class of the pattern lies within the class [P]. *)
Fixpoint within (P : ascii -> bool) (r : Regex.regex) : bool :=
  match r with
  | Regex.Empty | Regex.Eps => true
  | Regex.Cls p => forallb (fun c => implb (p c) (P c)) allAscii
  | Regex.Cat r1 r2 | Regex.Alt r1 r2 => within P r1 && within P r2
  | Regex.Rep _ _ r' => within P r'
  end.

(** Bounds on the length of the strings of a pattern. *)
Fixpoint maxLen (r : Regex.regex) : nat :=
  match r with
  | Regex.Empty | Regex.Eps => 0
  | Regex.Cls _ => 1
  | Regex.Cat r1 r2 => maxLen r1 + maxLen r2
  | Regex.Alt r1 r2 => Nat.max (maxLen r1) (maxLen r2)
  | Regex.Rep _ hi r' => hi * maxLen r'
  end.

Fixpoint minLen (r : Regex.regex) : nat :=
  match r with
  | Regex.Empty | Regex.Eps => 0
  | Regex.Cls _ => 1
  | Regex.Cat r1 r2 => minLen r1 + minLen r2
  | Regex.Alt r1 r2 => Nat.min (minLen r1) (minLen r2)
  | Regex.Rep lo _ r' => lo * minLen r'
  end.

(** The characters of an address: hexadecimal digits, dot and colon. *)
Definition addressChar (c : ascii) : bool :=
  Js.isHexDigit c || Ascii.eqb c "." || Ascii.eqb c ":".

(** One to three decimal digits with a value of at most 255. *)
Definition octet (s : string) : bool :=
  forallb Js.isDigit (list_ascii_of_string s)
  && (1 <=? String.length s)%nat && (String.length s <=? 3)%nat
  && (Js.digitsValue 0 s <=? 255).

(** ** The server state over a run of calls *)

(** What every reputation built from a lookup answer satisfies. *)
Definition fromLookup (r : IpReputationResult) : Prop :=
  isProxy r = false /\ (isTor r = true -> isVpn r = true).

(** What [checkIpReputation] answers when the cache does not serve the
    address: the lookup's result, or the neutral result if it throws. *)
Definition lookedUp (env : Env) (ip : string) : Completion IpReputationResult :=
  Js.try_catch (fetchIpReputation env ip)
    (fun _ => Normal (createUnknownResult ip "API error")).

(** The calls that touch the module state of [ip-reputation.ts]. *)
Inductive Call : Type :=
| Resolve (env : Env) (ip : string)
| Classify (env : Env) (input : ClassifyInput)
| AddToWhitelist (ip : string)
| AddToBlacklist (ip : string)
| InvalidateIp (ip : string).

Definition stepWorld (w : World) (call : Call) : World :=
  match call with
  | Resolve env ip => snd (checkIpReputation env w ip)
  | Classify env input => snd (classify env w input)
  | AddToWhitelist ip => addToWhitelist w ip
  | AddToBlacklist ip => addToBlacklist w ip
  | InvalidateIp ip => Route.invalidateIp w ip
  end.

Definition runWorld (w : World) (calls : list Call) : World :=
  fold_left stepWorld calls w.

(** An IP cache as the resolver fills it: within its bound of 1000, keyed
    by addresses that [isValidIp] accepts, holding lookup results. *)
Definition cacheOk (c : Cache.LRUCache IpReputationResult) : Prop :=
  Spec.cacheInvariant c
  /\ Cache.maxSize c = Config.CACHE_CONFIG.ip.maxSize
  /\ Cache.defaultTtlMs c = Config.CACHE_CONFIG.ip.ttlMs
  /\ Forall (fun kv => isValidIp (fst kv) = true
                       /\ fromLookup (Cache.value (snd kv)))
       (Cache.cache c).

Definition worldOk (w : World) : Prop :=
  match ipCache w with
  | Some c => cacheOk c
  | None => True
  end
  /\ manualWhitelist w ## manualBlacklist w.

(** ** The cache *)

(** The number of [get] calls in a sequence of cache calls. *)
Definition countGets {T} (ops : list (Cache.Op T)) : Z :=
  Z.of_nat (length (List.filter
                      (fun op => match op with Cache.OpGet _ _ => true | _ => false end)
                      ops)).

(** The statistics agree with the map: one entry per key, and the
    recorded size is the number of entries. *)
Definition synced {T} (c : Cache.LRUCache T) : Prop :=
  NoDup (JsMap.keys (Cache.cache c))
  /\ Cache.size (Cache.stats c) = Cache.entries c.

(** An entry that [get] and [has] still serve at time [now]. *)
Definition live {T} (now : Z) (e : Cache.CacheEntry T) : Prop :=
  now <= Cache.expiresAt e.

(** ** The analyzer's input *)

(** The counter that [analyzeBehavior] compares for a device type; bot
    and unknown devices are decided without one. *)
Definition counter (t : DeviceType) (b : BehaviorData) : option Z :=
  match t with
  | desktop => Some (mouseMovements b)
  | mobile | tablet => Some (touchEvents b)
  | bot | unknown => None
  end.

(** ** The client address *)



End Props.

(* ===================================================================== *)
(** * Sample caches                                                       *)
(* ===================================================================== *)

Module Samples.

Local Open Scope string_scope.
Local Open Scope Z_scope.

(** Three slots, filled with [a], [b] and [c] at times 0, 1 and 2, each
    for one minute. *)
Definition abc : Cache.LRUCache Z :=
  Cache.run (Cache.new 3 60000)
    [ Cache.OpSet 0 "a" 1 None; Cache.OpSet 1 "b" 2 None;
      Cache.OpSet 2 "c" 3 None ].

(** The same three keys, [b] stored for ten milliseconds only. *)
Definition abcShort : Cache.LRUCache Z :=
  Cache.run (Cache.new 3 60000)
    [ Cache.OpSet 0 "a" 1 None; Cache.OpSet 1 "b" 2 (Some 10);
      Cache.OpSet 2 "c" 3 None ].

End Samples.

(* ===================================================================== *)
(** * Manual overrides                                                    *)
(* ===================================================================== *)

Section ManualLists.

Import IpReputation.

Lemma listed_after_add (s : gset string) (ip : string) :
  bool_decide (ip ∈ s ∪ {[ip]}) = true.
Proof.
  apply bool_decide_eq_true, elem_of_union. right.
  apply elem_of_singleton. reflexivity.
Qed.

Lemma unlisted_after_delete (s : gset string) (ip : string) :
  bool_decide (ip ∈ s ∖ {[ip]}) = false.
Proof.
  apply bool_decide_eq_false. rewrite elem_of_difference, elem_of_singleton.
  intros [_ H]. apply H. reflexivity.
Qed.

Lemma addToWhitelist_listed (w : World) (ip : string) :
  isWhitelisted (addToWhitelist w ip) ip = true
  /\ isBlacklisted (addToWhitelist w ip) ip = false.
Proof.
  unfold isWhitelisted, isBlacklisted, addToWhitelist; simpl.
  split; [ apply listed_after_add | apply unlisted_after_delete ].
Qed.

Lemma addToBlacklist_listed (w : World) (ip : string) :
  isBlacklisted (addToBlacklist w ip) ip = true
  /\ isWhitelisted (addToBlacklist w ip) ip = false.
Proof.
  unfold isWhitelisted, isBlacklisted, addToBlacklist; simpl.
  split; [ apply listed_after_add | apply unlisted_after_delete ].
Qed.

(** Other addresses keep their status on both lists. *)
Lemma addToWhitelist_other (w : World) (ip other : string) :
  other <> ip ->
  isWhitelisted (addToWhitelist w ip) other = isWhitelisted w other
  /\ isBlacklisted (addToWhitelist w ip) other = isBlacklisted w other.
Proof.
  intros Hne. unfold isWhitelisted, isBlacklisted, addToWhitelist; simpl.
  split; apply bool_decide_ext.
  - rewrite elem_of_union, elem_of_singleton. tauto.
  - rewrite elem_of_difference, elem_of_singleton. tauto.
Qed.

(** C8. After one [addToWhitelist(ip)] or one [addToBlacklist(ip)], from
    any state of the two manual lists, [isWhitelisted(ip)] and
    [isBlacklisted(ip)] are not both true: the add puts [ip] on its list
    and takes it off the other one. *)
Theorem manual_lists_exclusive_after_add (w : World) (ip : string) :
  (isWhitelisted (addToWhitelist w ip) ip = true
   /\ isBlacklisted (addToWhitelist w ip) ip = false)
  /\ (isBlacklisted (addToBlacklist w ip) ip = true
      /\ isWhitelisted (addToBlacklist w ip) ip = false)
  /\ ~ (isWhitelisted (addToWhitelist w ip) ip = true
        /\ isBlacklisted (addToWhitelist w ip) ip = true)
  /\ ~ (isWhitelisted (addToBlacklist w ip) ip = true
        /\ isBlacklisted (addToBlacklist w ip) ip = true).
Proof.
  pose proof (addToWhitelist_listed w ip) as [Hw1 Hw2].
  pose proof (addToBlacklist_listed w ip) as [Hb1 Hb2].
  repeat split; try assumption.
  - intros [_ H]. congruence.
  - intros [H _]. congruence.
Qed.

End ManualLists.

(* ===================================================================== *)
(** * The Behavior Analyzer                                               *)
(* ===================================================================== *)

Section BehaviorAnalyzer.

Import Types Classifier.
Local Open Scope string_scope.
Local Open Scope Z_scope.

(** Case analysis on the comparisons of [analyzeBehavior]. *)
Ltac tiers :=
  unfold analyzeBehavior; simpl;
  unfold Config.BEHAVIOR_THRESHOLDS.desktop.mouseMovements.good,
         Config.BEHAVIOR_THRESHOLDS.desktop.mouseMovements.warn,
         Config.BEHAVIOR_THRESHOLDS.mobile.touchEvents.good,
         Config.BEHAVIOR_THRESHOLDS.mobile.touchEvents.warn;
  repeat match goal with
         | |- context [?a >=? ?b] => destruct (Z.geb_spec a b); simpl
         end.

Lemma analyzeBehavior_desktop (b : BehaviorData) :
  let r := analyzeBehavior desktop b in
  let m := mouseMovements b in
  (40 <= m -> Analysis.score r = 100 /\ Analysis.classification r = GOOD)
  /\ (20 <= m < 40 -> Analysis.score r = 60 /\ Analysis.classification r = WARN)
  /\ (m < 20 -> Analysis.score r = 40 /\ Analysis.classification r = WARN).
Proof. tiers; repeat split; intros; try reflexivity; lia. Qed.

Lemma analyzeBehavior_touch (t : DeviceType) (b : BehaviorData) :
  t = mobile \/ t = tablet ->
  let r := analyzeBehavior t b in
  let n := touchEvents b in
  (7 <= n -> Analysis.score r = 100 /\ Analysis.classification r = GOOD)
  /\ (3 <= n < 7 -> Analysis.score r = 60 /\ Analysis.classification r = WARN)
  /\ (n < 3 -> Analysis.score r = 40 /\ Analysis.classification r = WARN).
Proof.
  intros [-> | ->]; tiers; repeat split; intros; try reflexivity; lia.
Qed.

Lemma analyzeBehavior_suspicious (t : DeviceType) (b : BehaviorData) :
  t = bot \/ t = unknown ->
  analyzeBehavior t b =
    Analysis.mkAnalysis 0 BAD ("Suspicious device type: " ++ deviceTypeName t)
      ["suspicious_device_type"].
Proof. intros [-> | ->]; reflexivity. Qed.

(** The analyzer's score is one of five values, whatever the input; the
    fallback value 50 belongs to no device type. *)
Lemma analyzeBehavior_scores (t : DeviceType) (b : BehaviorData) :
  In (Analysis.score (analyzeBehavior t b)) [0; 40; 60; 100].
Proof. destruct t; tiers; auto 6. Qed.

(** C5. For every [BehaviorData]: on a desktop 40 or more mouse movements
    give score 100 and GOOD, 20 to 39 give score 60 and WARN, fewer than
    20 give score 40 and WARN; mobile and tablet devices have the same
    tiers on [touchEvents] with cut points 7 and 3; bot and unknown
    device types give score 0 and BAD whatever the counters are.  At the
    boundary, 40 movements are GOOD, 39 and 0 are WARN. *)
Theorem analyzeBehavior_tiers (b : BehaviorData) :
  let m := mouseMovements b in
  let n := touchEvents b in
  let scoreOf t := Analysis.score (analyzeBehavior t b) in
  let labelOf t := Analysis.classification (analyzeBehavior t b) in
  ((40 <= m -> scoreOf desktop = 100 /\ labelOf desktop = GOOD)
   /\ (20 <= m < 40 -> scoreOf desktop = 60 /\ labelOf desktop = WARN)
   /\ (m < 20 -> scoreOf desktop = 40 /\ labelOf desktop = WARN))
  /\ (forall t, t = mobile \/ t = tablet ->
        (7 <= n -> scoreOf t = 100 /\ labelOf t = GOOD)
        /\ (3 <= n < 7 -> scoreOf t = 60 /\ labelOf t = WARN)
        /\ (n < 3 -> scoreOf t = 40 /\ labelOf t = WARN))
  /\ (forall t, t = bot \/ t = unknown -> scoreOf t = 0 /\ labelOf t = BAD)
  /\ (m = 40 -> labelOf desktop = GOOD)
  /\ (m = 39 -> labelOf desktop = WARN)
  /\ (m = 0 -> labelOf desktop = WARN).
Proof.
  intros m n scoreOf labelOf.
  pose proof (analyzeBehavior_desktop b) as (Hgood & Hwarn & Hlow).
  split; [ | split; [ | split; [ | repeat split ] ] ].
  - exact (conj Hgood (conj Hwarn Hlow)).
  - intros t Ht. exact (analyzeBehavior_touch t b Ht).
  - intros t Ht. subst scoreOf labelOf; simpl.
    rewrite (analyzeBehavior_suspicious t b Ht). split; reflexivity.
  - intros E. apply Hgood. fold m. lia.
  - intros E. apply Hwarn. fold m. lia.
  - intros E. apply Hlow. fold m. lia.
Qed.

(** The tiers at the boundary counts of the claim. *)
Lemma analyzeBehavior_tiers_witness :
  Analysis.classification
    (analyzeBehavior desktop (Mock.createMockBehavior 40 0)) = GOOD
  /\ Analysis.classification
       (analyzeBehavior desktop (Mock.createMockBehavior 39 0)) = WARN
  /\ Analysis.classification
       (analyzeBehavior desktop (Mock.createMockBehavior 0 0)) = WARN
  /\ Analysis.score (analyzeBehavior tablet (Mock.createMockBehavior 0 7)) = 100
  /\ Analysis.classification
       (analyzeBehavior bot (Mock.createMockBehavior 100 100)) = BAD.
Proof.
  split; [ | split; [ | split; [ | split ] ] ].
  - destruct (analyzeBehavior_tiers (Mock.createMockBehavior 40 0))
      as (_ & _ & _ & H40 & _).
    apply H40. reflexivity.
  - destruct (analyzeBehavior_tiers (Mock.createMockBehavior 39 0))
      as (_ & _ & _ & _ & H39 & _).
    apply H39. reflexivity.
  - destruct (analyzeBehavior_tiers (Mock.createMockBehavior 0 0))
      as (_ & _ & _ & _ & _ & H0).
    apply H0. reflexivity.
  - destruct (analyzeBehavior_tiers (Mock.createMockBehavior 0 7))
      as (_ & Htouch & _).
    apply (Htouch tablet); [ right; reflexivity | simpl; lia ].
  - destruct (analyzeBehavior_tiers (Mock.createMockBehavior 100 100))
      as (_ & _ & Hbot & _).
    apply (Hbot bot). left; reflexivity.
Defined.

(** The flags that the code attaches in the four WARN tiers. *)
Lemma analyzeBehavior_flags (t : DeviceType) (b : BehaviorData) :
  let r := analyzeBehavior t b in
  let m := mouseMovements b in
  let n := touchEvents b in
  (t = desktop -> 20 <= m < 40 -> Analysis.flags r = ["low_mouse_movements"])
  /\ (t = desktop -> m < 20 -> Analysis.flags r = ["very_low_mouse_movements"])
  /\ (t = mobile \/ t = tablet -> 3 <= n < 7 ->
      Analysis.flags r = ["low_touch_events"])
  /\ (t = mobile \/ t = tablet -> n < 3 ->
      Analysis.flags r = ["very_low_touch_events"]).
Proof.
  repeat split; intros Ht; (destruct Ht as [Ht | Ht] || idtac); subst t;
    tiers; intros; try reflexivity; lia.
Qed.

(** C9, as the code has it.  The WARN tiers of the Behavior Analyzer
    attach the flags [low_mouse_movements] (desktop, middle tier),
    [very_low_mouse_movements] (desktop, bottom tier), [low_touch_events]
    (touch, middle tier) and [very_low_touch_events] (touch, bottom tier),
    and none of the names [low_movement], [very_low_movement],
    [low_touch], [very_low_touch]. *)
Theorem analyzeBehavior_warn_flags (t : DeviceType) (b : BehaviorData) :
  let r := analyzeBehavior t b in
  let m := mouseMovements b in
  let n := touchEvents b in
  ((t = desktop -> 20 <= m < 40 -> Analysis.flags r = ["low_mouse_movements"])
   /\ (t = desktop -> m < 20 -> Analysis.flags r = ["very_low_mouse_movements"])
   /\ (t = mobile \/ t = tablet -> 3 <= n < 7 ->
       Analysis.flags r = ["low_touch_events"])
   /\ (t = mobile \/ t = tablet -> n < 3 ->
       Analysis.flags r = ["very_low_touch_events"]))
  /\ forall name,
       In name [Spec.low_movement; Spec.very_low_movement;
                Spec.low_touch; Spec.very_low_touch] ->
       ~ In name (Analysis.flags r).
Proof.
  split; [ exact (analyzeBehavior_flags t b) | ].
  intros name Hname Hin.
  assert (Hflags : In (Analysis.flags (analyzeBehavior t b))
            [ ["suspicious_device_type"]; ["good_mouse_behavior"];
              ["low_mouse_movements"]; ["very_low_mouse_movements"];
              ["good_touch_behavior"]; ["low_touch_events"];
              ["very_low_touch_events"] ]).
  { destruct t; tiers; auto 10. }
  simpl in Hflags, Hname.
  repeat match goal with
         | H : _ \/ _ |- _ => destruct H
         | H : False |- _ => destruct H
         end;
    subst;
    match goal with
    | H : _ = Analysis.flags _ |- _ => rewrite <- H in Hin
    end;
    simpl in Hin; intuition discriminate.
Qed.

(** C9, as the specification words it, fails: with 25 mouse movements a
    desktop falls in the middle tier (score 60, WARN) and the flag list
    is [low_mouse_movements], not [low_movement]; likewise for the other
    three tiers. *)
Lemma analyzeBehavior_flag_names_counterexample :
  let middle := analyzeBehavior desktop (Mock.createMockBehavior 25 0) in
  let bottom := analyzeBehavior desktop (Mock.createMockBehavior 5 0) in
  let touchMiddle := analyzeBehavior mobile (Mock.createMockBehavior 0 5) in
  let touchBottom := analyzeBehavior mobile (Mock.createMockBehavior 0 1) in
  (Analysis.score middle = 60 /\ Analysis.classification middle = WARN
   /\ ~ In Spec.low_movement (Analysis.flags middle))
  /\ (Analysis.score bottom = 40
      /\ ~ In Spec.very_low_movement (Analysis.flags bottom))
  /\ (Analysis.score touchMiddle = 60
      /\ ~ In Spec.low_touch (Analysis.flags touchMiddle))
  /\ (Analysis.score touchBottom = 40
      /\ ~ In Spec.very_low_touch (Analysis.flags touchBottom)).
Proof.
  cbv zeta. repeat split; try reflexivity;
    (intros [H | []]; discriminate H).
Qed.

End BehaviorAnalyzer.

(* ===================================================================== *)
(** * The resolver never throws                                           *)
(* ===================================================================== *)

Section ResolverTotal.

Import Types IpReputation.

Lemma checkIpReputation_normal (env : Env) (w : World) (ip : string) :
  exists rep, fst (checkIpReputation env w ip) = Normal rep.
Proof.
  unfold checkIpReputation.
  destruct (isValidIp ip); simpl; [ | eauto ].
  destruct (getIpCache w) as [c w1].
  destruct (Cache.get c (nowLookup env) ip) as [[r | ] c1]; simpl; [ eauto | ].
  destruct (fetchIpReputation env ip); simpl; eauto.
Qed.

Lemma checkIpReputation_resolved (env : Env) (w : World) (ip : string) :
  fst (checkIpReputation env w ip) = Normal (Spec.resolved env w ip).
Proof.
  unfold Spec.resolved.
  destruct (checkIpReputation_normal env w ip) as [rep ->]. reflexivity.
Qed.

End ResolverTotal.

(* ===================================================================== *)
(** * The rule cascade                                                    *)
(* ===================================================================== *)

Section Cascade.

Import Types Classifier.
Local Open Scope string_scope.
Local Open Scope Z_scope.

Variable env : Env.
Variable w : World.
Variable input : ClassifyInput.

Let dev := device (fingerprint input).
Let rep := Spec.resolved env w (ip input).

(** [classify], with the resolver's answer named. *)
Lemma classify_unfold :
  fst (classify env w input) =
  Normal
    (if isBlacklisted w (ip input) then
       createResult BAD 0 "IP is blacklisted" [] None None
     else if isWhitelisted w (ip input) then
       createResult GOOD 100 "IP is whitelisted" [] None None
     else if isAutomated dev then
       createResult BAD 0 "Automation detected (navigator.webdriver)"
         ["webdriver_detected"] None None
     else if isHeadless dev then
       createResult BAD 0 "Headless browser detected" ["headless_browser"]
         None None
     else if isFakeMobile dev then
       createResult BAD 0 "Fake mobile device detected (emulator)"
         ["fake_mobile"] None None
     else if isVpn rep then
       createResult BAD 5 ("VPN detected: " ++ org rep) ["vpn_detected"]
         (Some rep) None
     else if isTor rep then
       createResult BAD 0 "Tor exit node detected" ["tor_detected"]
         (Some rep) None
     else if isDatacenter rep then
       createResult BAD 10 ("Datacenter/hosting IP: " ++ org rep)
         ["datacenter_ip"] (Some rep) None
     else if isMobileCarrier rep then
       createResult GOOD 95 ("Mobile carrier: " ++ org rep) ["mobile_carrier"]
         (Some rep) None
     else classifyByBehavior dev (behavior input) rep []).
Proof.
  unfold classify. fold dev.
  destruct (isBlacklisted w (ip input)); [ reflexivity | ].
  destruct (isWhitelisted w (ip input)); [ reflexivity | ].
  destruct (isAutomated dev); [ reflexivity | ].
  destruct (isHeadless dev); [ reflexivity | ].
  destruct (isFakeMobile dev); [ reflexivity | ].
  pose proof (checkIpReputation_resolved env w (ip input)) as Hres.
  fold rep in Hres.
  destruct (checkIpReputation env w (ip input)) as [resolved w'].
  simpl in Hres. subst resolved. simpl.
  destruct (isVpn rep); [ reflexivity | ].
  destruct (isTor rep); [ reflexivity | ].
  destruct (isDatacenter rep); [ reflexivity | ].
  destruct (isMobileCarrier rep); reflexivity.
Qed.

(** Rules 1 to 5 return before the resolver runs: the state is as it was. *)
Lemma classify_state_before_lookup :
  Spec.beforeLookup (Spec.firstMatch w input rep) = true ->
  snd (classify env w input) = w.
Proof.
  unfold Spec.firstMatch, classify; simpl. fold dev.
  destruct (isBlacklisted w (ip input)); [ reflexivity | ].
  destruct (isWhitelisted w (ip input)); [ reflexivity | ].
  destruct (isAutomated dev); [ reflexivity | ].
  destruct (isHeadless dev); [ reflexivity | ].
  destruct (isFakeMobile dev); [ reflexivity | ].
  destruct (isVpn rep); [ discriminate | ].
  destruct (isTor rep); [ discriminate | ].
  destruct (isDatacenter rep); [ discriminate | ].
  destruct (isMobileCarrier rep); discriminate.
Qed.

(** The first rule that fires is [Behavior] exactly when no instant rule
    fires. *)
Lemma firstMatch_Behavior :
  Spec.firstMatch w input rep = Spec.Behavior <->
  isBlacklisted w (ip input) = false /\ isWhitelisted w (ip input) = false
  /\ isAutomated dev = false /\ isHeadless dev = false
  /\ isFakeMobile dev = false /\ isVpn rep = false /\ isTor rep = false
  /\ isDatacenter rep = false /\ isMobileCarrier rep = false.
Proof.
  unfold Spec.firstMatch; simpl. fold dev.
  destruct (isBlacklisted w (ip input)), (isWhitelisted w (ip input)),
    (isAutomated dev), (isHeadless dev), (isFakeMobile dev), (isVpn rep),
    (isTor rep), (isDatacenter rep), (isMobileCarrier rep);
    split; intros H; try discriminate H; try reflexivity;
    repeat match goal with
           | H : _ /\ _ |- _ => destruct H
           end; try discriminate; repeat split.
Qed.

Lemma classify_rule10 :
  Spec.firstMatch w input rep = Spec.Behavior ->
  fst (classify env w input) =
  Normal (classifyByBehavior dev (behavior input) rep []).
Proof.
  intros H. apply firstMatch_Behavior in H.
  destruct H as (H1 & H2 & H3 & H4 & H5 & H6 & H7 & H8 & H9).
  rewrite classify_unfold, H1, H2, H3, H4, H5, H6, H7, H8, H9. reflexivity.
Qed.

(** Verdict, score, flags and attached reputation of the instant rules. *)
Lemma classify_instant (r : Spec.Rule) (c : Classification) (s : Z) :
  Spec.firstMatch w input rep = r ->
  Spec.verdict r = Some (c, s) ->
  exists result,
    fst (classify env w input) = Normal result
    /\ classification result = c /\ score result = s
    /\ flags (details result) = Spec.tags r
    /\ deviceType (details result) = None
    /\ ipReputation (details result)
       = if Spec.beforeLookup r then None else Some rep.
Proof.
  intros Hr Hv. rewrite classify_unfold. eexists; split; [ reflexivity | ].
  unfold Spec.firstMatch in Hr; simpl in Hr. fold dev in Hr.
  destruct (isBlacklisted w (ip input)); [ subst r; inversion Hv; auto 6 | ].
  destruct (isWhitelisted w (ip input)); [ subst r; inversion Hv; auto 6 | ].
  destruct (isAutomated dev); [ subst r; inversion Hv; auto 6 | ].
  destruct (isHeadless dev); [ subst r; inversion Hv; auto 6 | ].
  destruct (isFakeMobile dev); [ subst r; inversion Hv; auto 6 | ].
  destruct (isVpn rep); [ subst r; inversion Hv; auto 6 | ].
  destruct (isTor rep); [ subst r; inversion Hv; auto 6 | ].
  destruct (isDatacenter rep); [ subst r; inversion Hv; auto 6 | ].
  destruct (isMobileCarrier rep); subst r; inversion Hv; auto 6.
Qed.

End Cascade.

(* ===================================================================== *)
(** * Rule 10: the behaviour tier                                         *)
(* ===================================================================== *)

Section BehaviorTier.

Import Types Classifier.
Local Open Scope string_scope.
Local Open Scope Z_scope.

(** The score that [classify] labels and weighs is the analyzer's score
    after the high-risk-browser subtraction. *)
Lemma classifyByBehavior_classification dev b rep fl :
  classification (classifyByBehavior dev b rep fl)
  = Spec.label (Spec.behaviorComponent dev b).
Proof.
  unfold classifyByBehavior, createResult, Spec.label, Spec.behaviorComponent,
    Spec.highRiskBrowser, Js.some, Js.Math_max.
  cbn [classification].
  set (s := if existsb _ _ then _ else _).
  rewrite Z.geb_leb. destruct (80 <=? s); [ reflexivity | ].
  destruct (s >=? 40); reflexivity.
Qed.

(** Ten points off never cross the 80-point line: the analyzer's scores
    are 0, 40, 60 and 100. *)
Lemma label_after_penalty dev b :
  Spec.label (Spec.behaviorComponent dev b)
  = Spec.label (Analysis.score (analyzeBehavior (type dev) b)).
Proof.
  unfold Spec.behaviorComponent.
  pose proof (analyzeBehavior_scores (type dev) b) as Hs.
  destruct (Spec.highRiskBrowser dev); [ | reflexivity ].
  simpl in Hs.
  destruct Hs as [<- | [<- | [<- | [<- | []]]]]; reflexivity.
Qed.

Lemma label_not_BAD s : Spec.label s <> BAD.
Proof. unfold Spec.label. destruct (80 <=? s); discriminate. Qed.

(** On a reputation that is not a carrier's, the weighted sum of the code,
    computed in binary64 and rounded by [Math.round], is the composite
    score of the specification, computed in exact rationals. *)
Lemma classifyByBehavior_score dev b rep fl :
  isMobileCarrier rep = false ->
  score (classifyByBehavior dev b rep fl) = Spec.compositeScore rep dev b.
Proof.
  intros Hcarrier.
  unfold classifyByBehavior, createResult, Spec.compositeScore,
    Spec.behaviorComponent, Spec.highRiskBrowser, Spec.ipComponent,
    Spec.deviceComponent, calculateIpScore, Js.some, Js.Math_max.
  cbn [score]. rewrite Hcarrier.
  pose proof (analyzeBehavior_scores (type dev) b) as Hs. simpl in Hs.
  destruct (existsb _ _), (isVpn rep), (isTor rep), (isDatacenter rep),
    (isProxy rep), (isFakeMobile dev), (isAutomated dev);
    destruct Hs as [<- | [<- | [<- | [<- | []]]]]; vm_compute; reflexivity.
Qed.

(** For a carrier's reputation the code weighs 60 where the specification
    weighs 95.  [classify] never gets there: a carrier's address is
    decided by rule 9. *)
Example carrier_weight_not_reached :
  let rep :=
    Spec.resolved Mock.jio IpReputation.initialWorld "203.0.113.7" in
  let dev := device Mock.desktopChrome in
  let b := Mock.createMockBehavior 45 0 in
  isMobileCarrier rep = true
  /\ score (classifyByBehavior dev b rep []) = 70
  /\ Spec.compositeScore rep dev b = 91
  /\ Spec.firstMatch IpReputation.initialWorld
       (Mock.request Mock.desktopChrome b) rep = Spec.MobileCarrier.
Proof. cbv zeta. repeat split; vm_compute; reflexivity. Qed.

End BehaviorTier.

(* ===================================================================== *)
(** * Properties of [classify]                                            *)
(* ===================================================================== *)

Section ClassifyProperties.

Import Types Classifier.
Local Open Scope string_scope.
Local Open Scope Z_scope.

Lemma verdict_None (r : Spec.Rule) : Spec.verdict r = None -> r = Spec.Behavior.
Proof. destruct r; simpl; intros H; congruence. Qed.

Lemma firstMatch_Automated (w : World) (input : ClassifyInput) rep :
  isBlacklisted w (ip input) = false ->
  isWhitelisted w (ip input) = false ->
  isAutomated (device (fingerprint input)) = true ->
  Spec.firstMatch w input rep = Spec.Automated.
Proof.
  intros H1 H2 H3. unfold Spec.firstMatch; simpl. rewrite H1, H2, H3.
  reflexivity.
Qed.

(** C1. [classify] evaluates the cascade in the fixed order deny list,
    allow list, isAutomated, isHeadless, isFakeMobile, isVpn, isTor,
    isDatacenter, isMobileCarrier, behaviour, and stops at the first rule
    that fires.  It always returns a result.  When the first rule that
    fires is one of the nine instant rules, its table entry alone gives
    verdict and score, and the flags are that rule's tag only; any other
    request, state and lookup answer with the same first rule gets the
    same verdict and score.  Rules 1 to 5 return before the resolver is
    consulted.  When no instant rule fires the behaviour tier decides.
    In particular an automated device whose IP is on neither list is BAD
    with score 0, whatever the reputation and the behaviour counts. *)
Theorem classify_priority_cascade (env : Env) (w : World) (input : ClassifyInput) :
  let dev := device (fingerprint input) in
  let rep := Spec.resolved env w (ip input) in
  let rule := Spec.firstMatch w input rep in
  exists result,
    fst (classify env w input) = Normal result
    /\ (forall c s, Spec.verdict rule = Some (c, s) ->
          classification result = c /\ score result = s
          /\ flags (details result) = Spec.tags rule)
    /\ (forall env' w' input' result',
          fst (classify env' w' input') = Normal result' ->
          Spec.firstMatch w' input' (Spec.resolved env' w' (ip input')) = rule ->
          rule <> Spec.Behavior ->
          classification result' = classification result
          /\ score result' = score result)
    /\ (Spec.beforeLookup rule = true ->
          snd (classify env w input) = w
          /\ ipReputation (details result) = None)
    /\ (rule = Spec.Behavior ->
          result = classifyByBehavior dev (behavior input) rep [])
    /\ (isBlacklisted w (ip input) = false ->
        isWhitelisted w (ip input) = false ->
        isAutomated dev = true ->
          classification result = BAD /\ score result = 0).
Proof.
  intros dev rep rule.
  destruct (Spec.verdict rule) as [[c s] | ] eqn:Hv.
  - destruct (classify_instant env w input rule c s eq_refl Hv)
      as (result & Hres & Hc & Hs & Hf & _ & Hrep).
    exists result. split; [ exact Hres | ].
    split; [ | split; [ | split; [ | split ] ] ].
    + intros c' s' E. inversion E; subst. auto.
    + intros env' w' input' result' Hres' Hrule' _.
      destruct (classify_instant env' w' input' rule c s Hrule' Hv)
        as (r' & Hr' & Hc' & Hs' & _).
      rewrite Hres' in Hr'. inversion Hr'; subst. split; congruence.
    + intros Hb. split.
      * apply classify_state_before_lookup. exact Hb.
      * rewrite Hrep, Hb. reflexivity.
    + intros E. fold rule in Hv. rewrite E in Hv. discriminate Hv.
    + intros H1 H2 H3.
      pose proof (firstMatch_Automated w input rep H1 H2 H3) as E.
      fold rule in E. rewrite E in Hv. inversion Hv; subst. auto.
  - pose proof (verdict_None rule Hv) as E.
    exists (classifyByBehavior dev (behavior input) rep []).
    split; [ apply classify_rule10; exact E | ].
    split; [ | split; [ | split; [ | split ] ] ].
    + intros c s E'. discriminate E'.
    + intros; congruence.
    + rewrite E. discriminate.
    + reflexivity.
    + intros H1 H2 H3.
      pose proof (firstMatch_Automated w input rep H1 H2 H3) as E'.
      fold rule in E'. congruence.
Qed.

(** C2. When no instant rule fires, [classify] returns GOOD if the
    Behavior Analyzer's score for the device type is at least 80 and
    WARN otherwise, never BAD.  The label is computed from the score
    after the high-risk-browser subtraction, and that subtraction never
    changes it: the same request with any other browser name gets the
    same label. *)
Theorem classify_behavior_label (env : Env) (w : World) (input : ClassifyInput) :
  let dev := device (fingerprint input) in
  let rep := Spec.resolved env w (ip input) in
  Spec.firstMatch w input rep = Spec.Behavior ->
  exists result,
    fst (classify env w input) = Normal result
    /\ classification result
       = (if 80 <=? Analysis.score (analyzeBehavior (type dev) (behavior input))
          then GOOD else WARN)
    /\ classification result <> BAD
    /\ classification result = Spec.label (Spec.behaviorComponent dev (behavior input))
    /\ forall name result',
         fst (classify env w (Spec.withBrowser input name)) = Normal result' ->
         classification result' = classification result.
Proof.
  intros dev rep Hrule.
  exists (classifyByBehavior dev (behavior input) rep []).
  split; [ apply classify_rule10; exact Hrule | ].
  rewrite classifyByBehavior_classification.
  split; [ apply label_after_penalty | ].
  split; [ apply label_not_BAD | ].
  split; [ reflexivity | ].
  intros name result' Hres'.
  assert (Hrule' : Spec.firstMatch w (Spec.withBrowser input name)
                     (Spec.resolved env w (ip (Spec.withBrowser input name)))
                   = Spec.Behavior) by exact Hrule.
  rewrite (classify_rule10 env w _ Hrule') in Hres'.
  inversion Hres'; subst result'.
  rewrite classifyByBehavior_classification.
  rewrite !label_after_penalty. reflexivity.
Qed.

(** C3. When no instant rule fires, the reported score is
    [round (ipComponent * 0.6 + deviceComponent * 0.3 + behaviorComponent * 0.1)]
    with the components of the specification; the code computes it in
    binary64 arithmetic and the result is the exactly rounded value. *)
Theorem classify_behavior_score (env : Env) (w : World) (input : ClassifyInput) :
  let dev := device (fingerprint input) in
  let rep := Spec.resolved env w (ip input) in
  Spec.firstMatch w input rep = Spec.Behavior ->
  exists result,
    fst (classify env w input) = Normal result
    /\ score result = Spec.compositeScore rep dev (behavior input).
Proof.
  intros dev rep Hrule.
  exists (classifyByBehavior dev (behavior input) rep []).
  split; [ apply classify_rule10; exact Hrule | ].
  apply classifyByBehavior_score.
  apply firstMatch_Behavior in Hrule. tauto.
Qed.

(** C4. An IP on neither list, a device with none of the three flags and
    a resolved reputation that is a mobile carrier's and neither VPN, Tor
    nor datacenter: [classify] returns GOOD with score 95, and the
    behaviour data play no part, so any other counters, zero included,
    give the same result and the same state. *)
Theorem classify_mobile_carrier (env : Env) (w : World) (input : ClassifyInput) :
  let dev := device (fingerprint input) in
  let rep := Spec.resolved env w (ip input) in
  isBlacklisted w (ip input) = false ->
  isWhitelisted w (ip input) = false ->
  isAutomated dev = false -> isHeadless dev = false -> isFakeMobile dev = false ->
  isVpn rep = false -> isTor rep = false -> isDatacenter rep = false ->
  isMobileCarrier rep = true ->
  exists result,
    fst (classify env w input) = Normal result
    /\ classification result = GOOD /\ score result = 95
    /\ flags (details result) = ["mobile_carrier"]
    /\ forall b, classify env w (Spec.withBehavior input b) = classify env w input.
Proof.
  intros dev rep H1 H2 H3 H4 H5 H6 H7 H8 H9.
  eexists. split.
  - rewrite classify_unfold. fold dev rep.
    rewrite H1, H2, H3, H4, H5, H6, H7, H8, H9. reflexivity.
  - repeat split.
    intros b. unfold classify; simpl. fold dev. rewrite H1, H2, H3, H4, H5.
    pose proof (checkIpReputation_resolved env w (ip input)) as Hres.
    fold rep in Hres.
    destruct (checkIpReputation env w (ip input)) as [resolved w'].
    simpl in Hres. subst resolved. simpl.
    rewrite H6, H7, H8, H9. reflexivity.
Qed.

(** C10. For an IP on neither manual list, the label of [classify] is the
    label that [classifySync] gives for the reputation that the resolver
    produces, for every device type and browser. *)
Theorem classify_matches_classifySync (env : Env) (w : World) (input : ClassifyInput) :
  isBlacklisted w (ip input) = false ->
  isWhitelisted w (ip input) = false ->
  exists result,
    fst (classify env w input) = Normal result
    /\ classification result
       = syncClassification
           (classifySync (Spec.resolved env w (ip input))
              (fingerprint input) (behavior input)).
Proof.
  intros H1 H2. eexists. split; [ apply classify_unfold | ].
  rewrite H1, H2. unfold classifySync.
  set (dev := device (fingerprint input)).
  set (rep := Spec.resolved env w (ip input)).
  destruct (isAutomated dev); [ reflexivity | ].
  destruct (isHeadless dev); [ reflexivity | ].
  destruct (isFakeMobile dev); [ reflexivity | ].
  destruct (isVpn rep); [ reflexivity | ].
  destruct (isTor rep); [ reflexivity | ]. simpl.
  destruct (isDatacenter rep); [ reflexivity | ].
  destruct (isMobileCarrier rep); [ reflexivity | ].
  rewrite classifyByBehavior_classification, label_after_penalty.
  unfold Spec.label, analyzeBehavior.
  unfold Config.BEHAVIOR_THRESHOLDS.desktop.mouseMovements.good,
         Config.BEHAVIOR_THRESHOLDS.desktop.mouseMovements.warn,
         Config.BEHAVIOR_THRESHOLDS.mobile.touchEvents.good,
         Config.BEHAVIOR_THRESHOLDS.mobile.touchEvents.warn.
  destruct (type dev); simpl;
    repeat match goal with
           | |- context [?a >=? ?b] => destruct (a >=? b); simpl
           end; reflexivity.
Qed.

End ClassifyProperties.

(* ===================================================================== *)
(** * The properties of [classify] on sample requests                     *)
(* ===================================================================== *)

Section ClassifyExamples.

Import Types Classifier.
Local Open Scope string_scope.
Local Open Scope Z_scope.

(** Scenario of the test suite: automation on a carrier address with
    perfect behaviour is BAD with score 0, and the cache is not touched. *)
Example automation_beats_carrier :
  let input :=
    Mock.request
      (Mock.createMockFingerprint
         (Mock.createMockDevice desktop false true false "Chrome"))
      (Mock.createMockBehavior 100 100) in
  isMobileCarrier (Spec.resolved Mock.jio IpReputation.initialWorld (ip input)) = true
  /\ classify Mock.jio IpReputation.initialWorld input
     = (Normal (createResult BAD 0 "Automation detected (navigator.webdriver)"
                  ["webdriver_detected"] None None),
        IpReputation.initialWorld).
Proof. split; vm_compute; reflexivity. Qed.

(** 45 mouse movements in a high-risk browser: the behaviour score drops
    from 100 to 90, the label stays GOOD. *)
Lemma classify_behavior_label_witness :
  exists result,
    fst (classify Mock.residential IpReputation.initialWorld
           (Mock.request Mock.facebookDesktop (Mock.createMockBehavior 45 0)))
    = Normal result
    /\ classification result = GOOD
    /\ In "high_risk_browser" (flags (details result)).
Proof.
  destruct (classify_behavior_label Mock.residential IpReputation.initialWorld
              (Mock.request Mock.facebookDesktop (Mock.createMockBehavior 45 0)))
    as (result & Hres & Hlabel & _).
  { vm_compute. reflexivity. }
  exists result. split; [ exact Hres | ]. split.
  - rewrite Hlabel. reflexivity.
  - vm_compute in Hres. inversion Hres. simpl. auto.
Defined.

(** The same request scores round (80 * 0.6 + 80 * 0.3 + 90 * 0.1) = 81. *)
Lemma classify_behavior_score_witness :
  exists result,
    fst (classify Mock.residential IpReputation.initialWorld
           (Mock.request Mock.facebookDesktop (Mock.createMockBehavior 45 0)))
    = Normal result
    /\ score result = 81.
Proof.
  destruct (classify_behavior_score Mock.residential IpReputation.initialWorld
              (Mock.request Mock.facebookDesktop (Mock.createMockBehavior 45 0)))
    as (result & Hres & Hscore).
  { vm_compute. reflexivity. }
  exists result. split; [ exact Hres | ].
  rewrite Hscore. vm_compute. reflexivity.
Defined.

Lemma classify_mobile_carrier_witness :
  exists result,
    fst (classify Mock.jio IpReputation.initialWorld Mock.idlePhone) = Normal result
    /\ classification result = GOOD /\ score result = 95.
Proof.
  destruct (classify_mobile_carrier Mock.jio IpReputation.initialWorld Mock.idlePhone)
    as (result & Hres & Hlabel & Hscore & _);
    try (vm_compute; reflexivity).
  exists result. auto.
Defined.

Lemma classify_matches_classifySync_witness :
  exists result,
    fst (classify Mock.residential IpReputation.initialWorld
           (Mock.request Mock.facebookDesktop (Mock.createMockBehavior 45 0)))
    = Normal result
    /\ classification result = GOOD
    /\ syncClassification
         (classifySync
            (Spec.resolved Mock.residential IpReputation.initialWorld "203.0.113.7")
            Mock.facebookDesktop (Mock.createMockBehavior 45 0)) = GOOD.
Proof.
  destruct (classify_matches_classifySync Mock.residential
              IpReputation.initialWorld
              (Mock.request Mock.facebookDesktop (Mock.createMockBehavior 45 0)))
    as (result & Hres & Hlabel);
    try (vm_compute; reflexivity).
  exists result. split; [ exact Hres | ].
  split; [ rewrite Hlabel | ]; vm_compute; reflexivity.
Defined.

End ClassifyExamples.

(* ===================================================================== *)
(** * The derivative matcher decides the pattern's language              *)
(* ===================================================================== *)

Section RegexCorrectness.

Import Regex.
Local Open Scope string_scope.

Lemma append_nil_l (s : string) : "" ++ s = s.
Proof. reflexivity. Qed.

Lemma append_cons (c : ascii) (s1 s2 : string) :
  String c s1 ++ s2 = String c (s1 ++ s2).
Proof. reflexivity. Qed.

Lemma append_empty (s1 s2 : string) :
  EmptyString = s1 ++ s2 -> s1 = EmptyString /\ s2 = EmptyString.
Proof.
  destruct s1; intros H.
  - rewrite append_nil_l in H. auto.
  - rewrite append_cons in H. discriminate H.
Qed.

Lemma append_nil_r (s : string) : s ++ "" = s.
Proof.
  induction s as [ | c s IH]; [ reflexivity | ].
  rewrite append_cons, IH. reflexivity.
Qed.

Lemma append_assoc (s1 s2 s3 : string) : (s1 ++ s2) ++ s3 = s1 ++ (s2 ++ s3).
Proof.
  induction s1 as [ | c s1 IH]; [ reflexivity | ].
  rewrite !append_cons, IH. reflexivity.
Qed.

(** Case analysis on the first piece of a decomposition. *)
Ltac split_head E s1 c' :=
  destruct s1 as [ | c' s1];
  [ rewrite append_nil_l in E | rewrite append_cons in E ].

Lemma pow_empty (L : string -> Prop) (k : nat) : L "" -> pow L k "".
Proof. intros H. induction k; simpl; [ reflexivity | ]. exists "", "". auto. Qed.

Lemma pow_succ (L : string -> Prop) (k : nat) (s : string) :
  L "" -> pow L k s -> pow L (S k) s.
Proof. intros H Hs. exists "", s. auto. Qed.

(** A non-empty string of [k] pieces starts with a non-empty piece, and
    [k - 1] pieces follow (empty pieces in front can be moved back). *)
Lemma pow_cons (L : string -> Prop) (k : nat) (c : ascii) (s : string) :
  pow L k (String c s) ->
  (1 <= k)%nat
  /\ exists t1 t2, s = t1 ++ t2 /\ L (String c t1) /\ pow L (k - 1) t2.
Proof.
  induction k as [ | k IH]; simpl; [ discriminate | ].
  intros (s1 & s2 & E & H1 & H2). split; [ lia | ].
  replace (k - 0)%nat with k by lia.
  split_head E s1 c'.
  - subst s2. destruct (IH H2) as (Hk & t1 & t2 & E' & Ht1 & Ht2).
    exists t1, t2. repeat split; try assumption.
    replace k with (S (k - 1)) by lia. apply pow_succ; assumption.
  - inversion E; subst. exists s1, s2. auto.
Qed.

Lemma nullable_lang (r : regex) : nullable r = true <-> lang r "".
Proof.
  induction r as [ | | p | r1 IH1 r2 IH2 | r1 IH1 r2 IH2 | lo hi r IH ]; simpl.
  - split; [ discriminate | tauto ].
  - tauto.
  - split; [ discriminate | ]. intros (c & E & _). discriminate E.
  - rewrite andb_true_iff, IH1, IH2. split.
    + intros [H1 H2]. exists "", "". auto.
    + intros (s1 & s2 & E & H1 & H2).
      apply append_empty in E as [-> ->]. auto.
  - rewrite orb_true_iff, IH1, IH2. tauto.
  - rewrite andb_true_iff, orb_true_iff, Nat.leb_le, Nat.eqb_eq, IH. split.
    + intros [Hle [-> | H]].
      * exists 0%nat. simpl. split; [ lia | reflexivity ].
      * exists lo. split; [ lia | apply pow_empty; exact H ].
    + intros (k & Hk & Hpow). split; [ lia | ].
      destruct k as [ | k]; [ left; lia | right ].
      simpl in Hpow. destruct Hpow as (s1 & s2 & E & H1 & _).
      apply append_empty in E as [-> _]. exact H1.
Qed.

Lemma deriv_lang (c : ascii) (r : regex) (s : string) :
  lang (deriv c r) s <-> lang r (String c s).
Proof.
  revert s.
  induction r as [ | | p | r1 IH1 r2 IH2 | r1 IH1 r2 IH2 | lo hi r IH ];
    intros s; cbn [deriv lang].
  - tauto.
  - split; [ tauto | discriminate ].
  - destruct (p c) eqn:Hp; cbn [lang].
    + split.
      * intros ->. exists c. auto.
      * intros (c' & E & _). inversion E. reflexivity.
    + split; [ tauto | ].
      intros (c' & E & Hp'). inversion E; subst. congruence.
  - assert (Hcat : (exists s1 s2, s = s1 ++ s2 /\ lang (deriv c r1) s1 /\ lang r2 s2)
                   -> exists s1 s2, String c s = s1 ++ s2 /\ lang r1 s1 /\ lang r2 s2).
    { intros (t1 & t2 & -> & H1 & H2). exists (String c t1), t2.
      rewrite <- IH1. auto. }
    destruct (nullable r1) eqn:Hn; cbn [lang].
    + split.
      * intros [H | H]; [ exact (Hcat H) | ].
        exists "", (String c s). rewrite <- IH2, <- nullable_lang. auto.
      * intros (s1 & s2 & E & H1 & H2). split_head E s1 c'.
        -- subst s2. right. rewrite IH2. exact H2.
        -- inversion E; subst. left. exists s1, s2. rewrite IH1. auto.
    + split; [ exact Hcat | ].
      intros (s1 & s2 & E & H1 & H2). split_head E s1 c'.
      * apply nullable_lang in H1. congruence.
      * inversion E; subst. exists s1, s2. rewrite IH1. auto.
  - rewrite IH1, IH2. tauto.
  - destruct ((lo <=? hi)%nat && (1 <=? hi)%nat) eqn:Hb; cbn [lang].
    + apply andb_true_iff in Hb as [Hle H1]. apply Nat.leb_le in Hle, H1. split.
      * intros (t1 & t2 & -> & Ht1 & k & Hk & Ht2).
        exists (S k). split; [ lia | ]. cbn [pow].
        exists (String c t1), t2. rewrite <- IH. auto.
      * intros (k & Hk & Hpow).
        destruct (pow_cons _ _ _ _ Hpow) as (Hk1 & t1 & t2 & -> & Ht1 & Ht2).
        exists t1, t2. rewrite IH. repeat split; try assumption.
        exists (k - 1)%nat. split; [ lia | exact Ht2 ].
    + split; [ tauto | ]. intros (k & Hk & Hpow).
      apply pow_cons in Hpow as [Hk1 _].
      apply andb_false_iff in Hb as [Hb | Hb]; apply Nat.leb_gt in Hb; lia.
Qed.

Lemma test_lang (r : regex) (s : string) : test r s = true <-> lang r s.
Proof.
  revert r. induction s as [ | c s IH]; intros r; simpl.
  - apply nullable_lang.
  - rewrite IH. apply deriv_lang.
Qed.

End RegexCorrectness.

(* ===================================================================== *)
(** * Validation of the address                                           *)
(* ===================================================================== *)

Section IpValidation.

Import Types IpReputation Regex.
Local Open Scope string_scope.
Local Open Scope Z_scope.

Local Abbreviation allDigits s :=
  (forallb Js.isDigit (list_ascii_of_string s) = true).

Lemma isDigit_not_dot (c : ascii) :
  Js.isDigit c = true -> Ascii.eqb c "." = false.
Proof.
  intros H. destruct (Ascii.eqb_spec c "."); [ | reflexivity ].
  subst c. vm_compute in H. discriminate H.
Qed.

Lemma chr_lang (c : ascii) (s : string) :
  lang (chr c) s -> s = String c "".
Proof.
  intros (c' & -> & H). apply Ascii.eqb_eq in H. subst. reflexivity.
Qed.

Lemma pow_digit (k : nat) (s : string) :
  pow (lang digit) k s -> allDigits s /\ String.length s = k.
Proof.
  revert s. induction k as [ | k IH]; intros s; cbn [pow].
  - intros ->. split; reflexivity.
  - intros (s1 & s2 & -> & (c & -> & Hc) & H2).
    destruct (IH s2 H2) as [Hall Hlen].
    rewrite append_cons, append_nil_l. simpl. rewrite Hc, Hall, Hlen. auto.
Qed.

Lemma octet_digits (s : string) :
  lang (Rep 1 3 digit) s -> allDigits s /\ s <> "".
Proof.
  intros (k & Hk & Hpow). apply pow_digit in Hpow as [Hall Hlen].
  split; [ exact Hall | ]. intros ->. simpl in Hlen. lia.
Qed.

Lemma split_digits (d : string) : allDigits d -> Js.split "." d = [d].
Proof.
  induction d as [ | c d IH]; simpl; [ reflexivity | ].
  intros H. apply andb_true_iff in H as [Hc Hd].
  rewrite (isDigit_not_dot c Hc), (IH Hd). reflexivity.
Qed.

Lemma split_digits_dot (d rest : string) :
  allDigits d -> Js.split "." (d ++ String "." rest) = d :: Js.split "." rest.
Proof.
  induction d as [ | c d IH]; intros H.
  - reflexivity.
  - simpl in H. apply andb_true_iff in H as [Hc Hd].
    rewrite append_cons. cbn [Js.split].
    rewrite (isDigit_not_dot c Hc), (IH Hd). reflexivity.
Qed.

(** A string that the IPv4 pattern accepts is four runs of one to three
    digits with dots between them. *)
Lemma ipv4Regex_shape (ip : string) :
  test ipv4Regex ip = true ->
  exists a b c d,
    ip = a ++ String "." (b ++ String "." (c ++ String "." d))
    /\ (allDigits a /\ a <> "") /\ (allDigits b /\ b <> "")
    /\ (allDigits c /\ c <> "") /\ (allDigits d /\ d <> "").
Proof.
  intros H. apply test_lang in H.
  destruct H as (s1 & s2 & -> & (k & Hk & Hpow) & Hd).
  assert (k = 3%nat) by lia. subst k. cbn [pow] in Hpow.
  destruct Hpow as (x1 & y1 & -> & (a & e1 & -> & Ha & He1)
                    & x2 & y2 & -> & (b & e2 & -> & Hb & He2)
                    & x3 & y3 & -> & (c & e3 & -> & Hc & He3) & ->).
  apply chr_lang in He1, He2, He3. subst e1 e2 e3.
  exists a, b, c, s2.
  split; [ | auto using octet_digits ].
  rewrite append_nil_r, !append_assoc, !append_cons, !append_nil_l.
  reflexivity.
Qed.

Lemma takeDigits_all (d : string) : allDigits d -> Js.takeDigits d = d.
Proof.
  induction d as [ | c d IH]; simpl; [ reflexivity | ].
  intros H. apply andb_true_iff in H as [Hc Hd]. rewrite Hc, (IH Hd).
  reflexivity.
Qed.

(** On a non-empty run of digits [parseInt] reads the whole string. *)
Lemma parseInt_digits (d : string) :
  allDigits d -> d <> "" -> Js.parseInt d = Some (Js.digitsValue 0 d).
Proof.
  destruct d as [ | c d]; [ congruence | ]. intros H _.
  pose proof (takeDigits_all _ H) as Htake.
  simpl in H. apply andb_true_iff in H as [Hc Hd].
  unfold Js.parseInt.
  destruct c as [[] [] [] [] [] [] [] []]; try discriminate Hc;
    cbn [Js.trimStart Js.isWhiteSpace];
    simpl; simpl in Htake; rewrite (takeDigits_all d Hd); reflexivity.
Qed.

Lemma octetInRange_isOctet (d : string) :
  allDigits d -> d <> "" -> octetInRange d = true -> Spec.isOctet d = true.
Proof.
  intros Hall Hne. unfold octetInRange, Spec.isOctet.
  rewrite (parseInt_digits d Hall Hne), Hall, Z.geb_leb.
  destruct (String.eqb_spec d ""); [ contradiction | ].
  intros H. apply andb_true_iff in H as [-> ->]. reflexivity.
Qed.

(** What [isValidIp] accepts is a well-formed IPv4 address or a plausible
    IPv6 address in the specification's sense. *)
Lemma isValidIp_wellFormed (ip : string) :
  isValidIp ip = true ->
  Spec.wellFormedIPv4 ip || Spec.plausibleIPv6 ip = true.
Proof.
  unfold isValidIp. destruct (test ipv4Regex ip) eqn:H4.
  - destruct (ipv4Regex_shape ip H4)
      as (a & b & c & d & -> & [Ha Ha'] & [Hb Hb'] & [Hc Hc'] & [Hd Hd']).
    unfold Spec.wellFormedIPv4, Js.every.
    rewrite !split_digits_dot, split_digits by assumption.
    simpl. intros H.
    repeat match type of H with
           | _ && _ = true => apply andb_true_iff in H as [? H]
           end.
    rewrite !octetInRange_isOctet by assumption. reflexivity.
  - intros H6. unfold Spec.plausibleIPv6. rewrite H6. apply orb_true_r.
Qed.

End IpValidation.

(* ===================================================================== *)
(** * The resolver degrades to the neutral result                         *)
(* ===================================================================== *)

Section ResolverFailure.

Import Types IpReputation.
Local Open Scope string_scope.
Local Open Scope Z_scope.

Example isValidIp_samples :
  map isValidIp
    [ "203.0.113.7"; "192.168.001.255"; "::1"; "fe80::1:2";
      "256.1.1.1"; "1.2.3"; "1.2.3.4 "; "0001.2.3.4"; "not-an-ip"; "" ]
  = [ true; true; true; true; false; false; false; false; false; false ].
Proof. vm_compute. reflexivity. Qed.

Lemma createUnknownResult_isUnknown (ip reason : string) :
  Spec.isUnknown (createUnknownResult ip reason)
  /\ Types.ip (createUnknownResult ip reason) = ip
  /\ cached (createUnknownResult ip reason) = false.
Proof. unfold Spec.isUnknown. simpl. repeat split. Qed.

(** [fetchIpReputation] throws exactly on the failures of the lookup. *)
Lemma fetchIpReputation_fails (env : Env) (ip : string) :
  Spec.lookupFails (fetch env (Config.IP_API_CONFIG.free.url ip)) = true ->
  exists error, fetchIpReputation env ip = Throw error.
Proof.
  unfold fetchIpReputation, Spec.lookupFails, ok.
  destruct (fetch env _) as [ | message | status [ | data]]; simpl;
    try (intros _; eauto; fail).
  - destruct ((200 <=? status) && (status <=? 299)); simpl; eauto.
  - destruct ((200 <=? status) && (status <=? 299)); simpl; [ | eauto ].
    intros ->. eauto.
Qed.


(** C6. [checkIpReputation] never throws.  For an [ip] that is neither a
    well-formed IPv4 address (four dot-separated octets, each 0 to 255)
    nor a plausible IPv6 address it returns the neutral result: the five
    facets false, [asn] null, [org], [isp] and the location strings
    empty; the state is untouched.  It returns the same neutral result
    when the cache has no live entry for [ip] and the lookup times out,
    fails in transport, answers outside 200-299, or answers with a body
    that does not parse or reports an error. *)
Theorem checkIpReputation_degrades (env : Env) (w : World) (ip : string) :
  (exists rep, fst (checkIpReputation env w ip) = Normal rep)
  /\ (Spec.wellFormedIPv4 ip || Spec.plausibleIPv6 ip = false ->
      exists rep,
        checkIpReputation env w ip = (Normal rep, w)
        /\ Spec.isUnknown rep /\ Types.ip rep = ip)
  /\ (fst (Cache.get (fst (getIpCache w)) (nowLookup env) ip) = None ->
      Spec.lookupFails (fetch env (Config.IP_API_CONFIG.free.url ip)) = true ->
      exists rep,
        fst (checkIpReputation env w ip) = Normal rep
        /\ Spec.isUnknown rep /\ Types.ip rep = ip).
Proof.
  split; [ apply checkIpReputation_normal | ]. split.
  - intros Hspec.
    assert (Hvalid : isValidIp ip = false).
    { destruct (isValidIp ip) eqn:E; [ | reflexivity ].
      apply isValidIp_wellFormed in E. congruence. }
    unfold checkIpReputation. rewrite Hvalid. simpl.
    eexists. split; [ reflexivity | ].
    split; [ apply createUnknownResult_isUnknown | reflexivity ].
  - intros Hmiss Hfail.
    destruct (fetchIpReputation_fails env ip Hfail) as [error Herr].
    unfold checkIpReputation.
    destruct (isValidIp ip); simpl.
    + destruct (getIpCache w) as [c w1]. simpl in Hmiss.
      destruct (Cache.get c (nowLookup env) ip) as [cached c1].
      simpl in Hmiss. subst cached. rewrite Herr. simpl.
      eexists. split; [ reflexivity | ].
      split; [ apply createUnknownResult_isUnknown | reflexivity ].
    + eexists. split; [ reflexivity | ].
      split; [ apply createUnknownResult_isUnknown | reflexivity ].
Qed.

(** An out-of-range octet, and a timeout on a fresh cache. *)
Lemma checkIpReputation_degrades_witness :
  fst (checkIpReputation Mock.residential initialWorld "256.1.1.1")
    = Normal (createUnknownResult "256.1.1.1" "")
  /\ fst (checkIpReputation (Mock.always Aborted) initialWorld "203.0.113.7")
     = Normal (createUnknownResult "203.0.113.7" "")
  /\ fst (checkIpReputation (Mock.always (Response 503 BodyUnparsable))
            initialWorld "203.0.113.7")
     = Normal (createUnknownResult "203.0.113.7" "").
Proof.
  split; [ | split ].
  - destruct (checkIpReputation_degrades Mock.residential initialWorld "256.1.1.1")
      as (_ & Hinvalid & _).
    destruct Hinvalid as (rep & Hrep & _); [ vm_compute; reflexivity | ].
    rewrite Hrep. vm_compute in Hrep. inversion Hrep. reflexivity.
  - destruct (checkIpReputation_degrades (Mock.always Aborted) initialWorld
                "203.0.113.7") as (_ & _ & Hfail).
    destruct Hfail as (rep & Hrep & _); try (vm_compute; reflexivity).
  - destruct (checkIpReputation_degrades
                (Mock.always (Response 503 BodyUnparsable)) initialWorld
                "203.0.113.7") as (_ & _ & Hfail).
    destruct Hfail as (rep & Hrep & _); try (vm_compute; reflexivity).
Defined.

End ResolverFailure.

(* ===================================================================== *)
(** * The LRU cache: size bound and eviction order                        *)
(* ===================================================================== *)

Section JsMapFacts.

Context {V : Type}.
Implicit Types (m : JsMap.t V) (key k : string) (v : V).

Lemma JsMap_get_None_keys m key :
  JsMap.get m key = None <-> ~ In key (JsMap.keys m).
Proof.
  induction m as [ | [k v] m IH]; simpl; [ tauto | ].
  destruct (String.eqb_spec k key) as [-> | Hne].
  - split; [ discriminate | ]. intros H. exfalso. apply H. auto.
  - rewrite IH. split; [ intros H [E | Hin]; auto | tauto ].
Qed.

Lemma JsMap_delete_fresh m key :
  JsMap.get m key = None -> JsMap.delete m key = m.
Proof.
  induction m as [ | [k v] m IH]; simpl; [ reflexivity | ].
  destruct (String.eqb k key); [ discriminate | ].
  intros H. rewrite (IH H). reflexivity.
Qed.

Lemma JsMap_set_fresh m key v :
  JsMap.get m key = None -> JsMap.set m key v = (m ++ [(key, v)])%list.
Proof.
  induction m as [ | [k v0] m IH]; simpl; [ reflexivity | ].
  destruct (String.eqb k key); [ discriminate | ].
  intros H. rewrite (IH H). reflexivity.
Qed.

Lemma JsMap_get_delete m key : JsMap.get (JsMap.delete m key) key = None.
Proof.
  induction m as [ | [k v] m IH]; simpl; [ reflexivity | ].
  destruct (String.eqb k key) eqn:E; [ exact IH | ].
  simpl. rewrite E. exact IH.
Qed.

Lemma JsMap_keys_delete m key :
  JsMap.keys (JsMap.delete m key)
  = List.filter (fun k => negb (String.eqb k key)) (JsMap.keys m).
Proof.
  induction m as [ | [k v] m IH]; simpl; [ reflexivity | ].
  destruct (String.eqb k key); simpl; rewrite IH; reflexivity.
Qed.

Lemma JsMap_length_delete m key :
  (length (JsMap.delete m key) <= length m)%nat.
Proof.
  induction m as [ | [k v] m IH]; simpl; [ lia | ].
  destruct (String.eqb k key); simpl; lia.
Qed.

Lemma JsMap_length_delete_present m key :
  JsMap.has m key = true -> (length (JsMap.delete m key) < length m)%nat.
Proof.
  unfold JsMap.has.
  induction m as [ | [k v] m IH]; simpl; [ discriminate | ].
  destruct (String.eqb k key); simpl.
  - intros _. pose proof (JsMap_length_delete m key). lia.
  - intros H. specialize (IH H). lia.
Qed.

(** Delete, then set: the key moves to the most recent position. *)
Lemma JsMap_reinsert m key v :
  JsMap.set (JsMap.delete m key) key v
  = (JsMap.delete m key ++ [(key, v)])%list.
Proof. apply JsMap_set_fresh, JsMap_get_delete. Qed.

Lemma JsMap_delete_sublist m key : JsMap.delete m key `sublist_of` m.
Proof.
  induction m as [ | [k v] m IH]; simpl; [ constructor | ].
  destruct (String.eqb k key); [ apply sublist_cons | apply sublist_skip ];
    exact IH.
Qed.

Lemma JsMap_filter_sublist (f : string * V -> bool) m :
  List.filter f m `sublist_of` m.
Proof.
  induction m as [ | kv m IH]; simpl; [ constructor | ].
  destruct (f kv); [ apply sublist_skip | apply sublist_cons ]; exact IH.
Qed.

Lemma JsMap_keys_sublist m1 m2 :
  m1 `sublist_of` m2 -> JsMap.keys m1 `sublist_of` JsMap.keys m2.
Proof.
  induction 1; simpl; [ constructor | apply sublist_skip | apply sublist_cons ];
    assumption.
Qed.

Lemma Forall_sublist_of (P : string -> Prop) (l1 l2 : list string) :
  l1 `sublist_of` l2 -> Forall P l2 -> Forall P l1.
Proof.
  induction 1 as [ | x l1 l2 Hsub IH | x l1 l2 Hsub IH ]; intros H.
  - constructor.
  - inversion H; subst. constructor; auto.
  - inversion H; subst. auto.
Qed.

Lemma JsMap_keys_length m : length (JsMap.keys m) = length m.
Proof. unfold JsMap.keys. apply length_map. Qed.

End JsMapFacts.

Section LruInvariant.

Context {T : Type}.
Implicit Types (c : Cache.LRUCache T) (key : string) (now : Z).
Implicit Types (m : JsMap.t (Cache.CacheEntry T)) (e : Cache.CacheEntry T).
Local Open Scope string_scope.
Local Open Scope Z_scope.

Lemma step_maxSize c (op : Cache.Op T) :
  Cache.maxSize (Cache.step c op) = Cache.maxSize c.
Proof.
  destruct op; simpl; try reflexivity.
  - unfold Cache.get. destruct (JsMap.get _ _); [ | reflexivity ].
    destruct (_ >? _); reflexivity.
  - unfold Cache.has. destruct (JsMap.get _ _); [ | reflexivity ].
    destruct (_ >? _); reflexivity.
Qed.

(** Removing entries keeps the invariant. *)
Lemma invariant_shrink c m (s : Cache.CacheStats) :
  Spec.cacheInvariant c ->
  m `sublist_of` Cache.cache c ->
  Spec.cacheInvariant (Cache.withMap c m s).
Proof.
  intros (Hsize & Hnd & Hne) Hsub.
  pose proof (JsMap_keys_sublist _ _ Hsub) as Hkeys.
  unfold Spec.cacheInvariant, Cache.entries, JsMap.size in *. simpl.
  split; [ | split ].
  - apply sublist_length in Hsub. lia.
  - exact (sublist_NoDup _ _ Hnd Hkeys).
  - exact (Forall_sublist_of _ _ _ Hkeys Hne).
Qed.

(** Appending a fresh, non-empty key keeps it too, if there is room. *)
Lemma invariant_append c m key e (s : Cache.CacheStats) :
  Spec.cacheInvariant c ->
  m `sublist_of` Cache.cache c ->
  JsMap.get m key = None ->
  key <> "" ->
  Z.of_nat (length m) + 1 <= Cache.maxSize c ->
  Spec.cacheInvariant (Cache.withMap c (m ++ [(key, e)])%list s).
Proof.
  intros (Hsize & Hnd & Hne) Hsub Hfresh Hkey Hroom.
  pose proof (JsMap_keys_sublist _ _ Hsub) as Hkeys.
  apply JsMap_get_None_keys in Hfresh.
  unfold Spec.cacheInvariant, Cache.entries, JsMap.size, JsMap.keys in *.
  simpl. rewrite map_app. simpl. split; [ | split ].
  - rewrite length_app. simpl. lia.
  - apply NoDup_app. split; [ exact (sublist_NoDup _ _ Hnd Hkeys) | ].
    split; [ | apply NoDup_singleton ].
    intros x Hx Hx'. apply list_elem_of_singleton in Hx'. subst x.
    apply Hfresh. apply list_elem_of_In. exact Hx.
  - apply Forall_app. split; [ exact (Forall_sublist_of _ _ _ Hkeys Hne) | ].
    constructor; [ exact Hkey | constructor ].
Qed.

Lemma present_key_nonEmpty c key :
  Spec.cacheInvariant c -> JsMap.has (Cache.cache c) key = true -> key <> "".
Proof.
  intros (_ & _ & Hne) Hhas. unfold JsMap.has in Hhas.
  destruct (JsMap.get (Cache.cache c) key) eqn:E; [ | discriminate ].
  assert (Hin : In key (JsMap.keys (Cache.cache c))).
  { destruct (in_dec string_dec key (JsMap.keys (Cache.cache c))) as [ | Hn ];
      [ assumption | ].
    apply JsMap_get_None_keys in Hn. congruence. }
  rewrite Forall_forall in Hne. apply Hne. apply list_elem_of_In. exact Hin.
Qed.

Lemma get_invariant c now key :
  Spec.cacheInvariant c -> Spec.cacheInvariant (snd (Cache.get c now key)).
Proof.
  intros Hinv. unfold Cache.get.
  destruct (JsMap.get (Cache.cache c) key) as [e | ] eqn:E; simpl.
  - destruct (now >? Cache.expiresAt e); simpl.
    + apply invariant_shrink; [ exact Hinv | apply JsMap_delete_sublist ].
    + rewrite JsMap_reinsert.
      assert (Hhas : JsMap.has (Cache.cache c) key = true)
        by (unfold JsMap.has; rewrite E; reflexivity).
      apply invariant_append;
        [ exact Hinv | apply JsMap_delete_sublist | apply JsMap_get_delete
        | exact (present_key_nonEmpty c key Hinv Hhas) | ].
      pose proof (JsMap_length_delete_present _ _ Hhas).
      destruct Hinv as (Hsize & _). unfold Cache.entries, JsMap.size in Hsize.
      lia.
  - apply invariant_shrink; [ exact Hinv | reflexivity ].
Qed.

(** The size bound of [set] needs room for at least one entry and a
    non-empty key at the front whenever it evicts. *)
Lemma set_invariant c now key (v : T) (ttlMs : option Z) :
  1 <= Cache.maxSize c ->
  key <> "" ->
  Spec.cacheInvariant c ->
  Spec.cacheInvariant (Cache.set c now key v ttlMs).
Proof.
  intros Hmax Hkey Hinv. unfold Cache.set. rewrite JsMap_reinsert.
  pose proof Hinv as (Hsize & Hnd & Hne).
  unfold Cache.entries, JsMap.size in Hsize.
  set (m := Cache.cache c) in *.
  destruct (JsMap.has m key) eqn:Hhas; rewrite ?andb_false_r; simpl.
  - apply invariant_append;
      [ exact Hinv | apply JsMap_delete_sublist | apply JsMap_get_delete
      | exact Hkey | ].
    pose proof (JsMap_length_delete_present _ _ Hhas). fold m. lia.
  - rewrite andb_true_r.
    destruct (JsMap.size m >=? Cache.maxSize c) eqn:Hfull.
    + unfold Cache.evictOldest.
      destruct m as [ | [k0 e0] m'] eqn:Em; simpl.
      * rewrite Z.geb_leb in Hfull. apply Z.leb_le in Hfull.
        unfold JsMap.size in Hfull. simpl in Hfull. lia.
      * assert (Hk0 : k0 <> "") by (inversion Hne; assumption).
        destruct (String.eqb_spec k0 ""); [ contradiction | ]. simpl.
        rewrite String.eqb_refl.
        apply invariant_append; try assumption.
        -- fold m. rewrite Em.
           etransitivity; [ apply JsMap_delete_sublist | ].
           etransitivity; [ apply JsMap_delete_sublist | ].
           apply sublist_cons. reflexivity.
        -- apply JsMap_get_delete.
        -- pose proof (JsMap_length_delete (JsMap.delete m' k0) key).
           pose proof (JsMap_length_delete m' k0).
           simpl in Hsize. lia.
    + apply invariant_append;
        [ exact Hinv | apply JsMap_delete_sublist | apply JsMap_get_delete
        | exact Hkey | ].
      pose proof (JsMap_length_delete m key).
      rewrite Z.geb_leb in Hfull. apply Z.leb_gt in Hfull.
      unfold JsMap.size in Hfull. lia.
Qed.

Lemma step_invariant c (op : Cache.Op T) :
  1 <= Cache.maxSize c ->
  Spec.storesNonEmptyKey op ->
  Spec.cacheInvariant c ->
  Spec.cacheInvariant (Cache.step c op).
Proof.
  intros Hmax Hop Hinv. destruct op; simpl in *.
  - apply get_invariant, Hinv.
  - apply set_invariant; assumption.
  - unfold Cache.has. destruct (JsMap.get _ _) as [e | ]; [ | exact Hinv ].
    destruct (_ >? _); [ | exact Hinv ]. simpl.
    apply invariant_shrink; [ exact Hinv | apply JsMap_delete_sublist ].
  - apply invariant_shrink; [ exact Hinv | apply JsMap_delete_sublist ].
  - apply invariant_shrink; [ exact Hinv | apply sublist_nil_l ].
  - apply invariant_shrink; [ exact Hinv | apply JsMap_filter_sublist ].
Qed.

Lemma run_invariant (ops : list (Cache.Op T)) c :
  1 <= Cache.maxSize c ->
  Forall Spec.storesNonEmptyKey ops ->
  Spec.cacheInvariant c ->
  Spec.cacheInvariant (Cache.run c ops)
  /\ Cache.maxSize (Cache.run c ops) = Cache.maxSize c.
Proof.
  revert c. induction ops as [ | op ops IH]; intros c Hmax Hops Hinv; simpl.
  - auto.
  - inversion Hops as [ | op' ops' Hop Hrest ]; subst.
    destruct (IH (Cache.step c op)) as [Hinv' Hmax'].
    + rewrite step_maxSize. exact Hmax.
    + exact Hrest.
    + apply step_invariant; assumption.
    + rewrite step_maxSize in Hmax'. auto.
Qed.

(** With room for one entry at least and no empty key stored, the number
    of entries stays within [maxSize] through every sequence of calls. *)
Lemma lru_size_bounded (maxSize ttl : Z) (ops : list (Cache.Op T)) :
  1 <= maxSize ->
  Forall Spec.storesNonEmptyKey ops ->
  Cache.entries (Cache.run (Cache.new maxSize ttl) ops) <= maxSize.
Proof.
  intros Hmax Hops.
  destruct (run_invariant ops (Cache.new maxSize ttl)) as [(H & _) E];
    try assumption.
  - unfold Spec.cacheInvariant, Cache.entries, JsMap.size. simpl.
    split; [ lia | split; constructor ].
  - rewrite E in H. exact H.
Qed.

End LruInvariant.

Section LruOrder.

Context {T : Type}.
Implicit Types (c : Cache.LRUCache T) (key : string) (now : Z).
Implicit Types (m : JsMap.t (Cache.CacheEntry T)) (e : Cache.CacheEntry T).
Local Open Scope string_scope.
Local Open Scope Z_scope.

(** A hit moves the entry to the most recent position. *)
Lemma get_promotes c now key e :
  JsMap.get (Cache.cache c) key = Some e ->
  now <= Cache.expiresAt e ->
  fst (Cache.get c now key) = Some (Cache.value e)
  /\ JsMap.keys (Cache.cache (snd (Cache.get c now key)))
     = (List.filter (fun k => negb (String.eqb k key)) (JsMap.keys (Cache.cache c))
        ++ [key])%list.
Proof.
  intros Hget Hlive. unfold Cache.get. rewrite Hget.
  destruct (Z.gtb_spec now (Cache.expiresAt e)); [ lia | ]. simpl.
  split; [ reflexivity | ].
  rewrite JsMap_reinsert. unfold JsMap.keys at 1. rewrite map_app. simpl.
  fold (JsMap.keys (JsMap.delete (Cache.cache c) key)).
  rewrite JsMap_keys_delete. reflexivity.
Qed.

(** A new key on a cache with room goes to the most recent position. *)
Lemma set_appends c now key (v : T) (ttlMs : option Z) :
  Cache.entries c < Cache.maxSize c ->
  JsMap.has (Cache.cache c) key = false ->
  JsMap.keys (Cache.cache (Cache.set c now key v ttlMs))
  = (JsMap.keys (Cache.cache c) ++ [key])%list.
Proof.
  intros Hroom Hfresh. unfold Cache.set. rewrite JsMap_reinsert.
  unfold Cache.entries in Hroom.
  destruct (Z.geb_spec (JsMap.size (Cache.cache c)) (Cache.maxSize c)); [ lia | ].
  simpl. unfold JsMap.has in Hfresh.
  destruct (JsMap.get (Cache.cache c) key) eqn:E; [ discriminate | ].
  rewrite (JsMap_delete_fresh _ _ E).
  unfold JsMap.keys. rewrite map_app. reflexivity.
Qed.

(** A new key on a full cache whose oldest key is not the empty string:
    the oldest entry, and no other, makes room. *)
Lemma set_evicts_oldest c now key (v : T) (ttlMs : option Z) :
  Spec.cacheInvariant c ->
  1 <= Cache.maxSize c ->
  Cache.entries c = Cache.maxSize c ->
  JsMap.has (Cache.cache c) key = false ->
  JsMap.keys (Cache.cache (Cache.set c now key v ttlMs))
  = (tl (JsMap.keys (Cache.cache c)) ++ [key])%list
  /\ Cache.entries (Cache.set c now key v ttlMs) = Cache.maxSize c.
Proof.
  intros (_ & Hnd & Hne) Hmax Hfull Hfresh.
  unfold Cache.set, Cache.entries in *. rewrite JsMap_reinsert.
  destruct (Z.geb_spec (JsMap.size (Cache.cache c)) (Cache.maxSize c)); [ | lia ].
  rewrite Hfresh. simpl.
  unfold JsMap.size in Hfull.
  destruct (Cache.cache c) as [ | [k0 e0] m'] eqn:Em; simpl in *; [ lia | ].
  unfold Cache.evictOldest; simpl.
  assert (Hk0 : k0 <> "") by (inversion Hne; assumption).
  destruct (String.eqb_spec k0 ""); [ contradiction | ]. simpl.
  rewrite String.eqb_refl.
  assert (Hm' : JsMap.get m' k0 = None).
  { apply JsMap_get_None_keys. apply NoDup_cons in Hnd as [Hnot _].
    intros Hin. apply Hnot. apply list_elem_of_In. exact Hin. }
  rewrite (JsMap_delete_fresh _ _ Hm').
  unfold JsMap.has in Hfresh. simpl in Hfresh.
  destruct (String.eqb k0 key); [ discriminate | ].
  destruct (JsMap.get m' key) eqn:E; [ discriminate | ].
  rewrite (JsMap_delete_fresh _ _ E).
  unfold JsMap.keys, JsMap.size. rewrite map_app, length_app. simpl.
  split; [ reflexivity | lia ].
Qed.

(** When the oldest key is the empty string, [evictOldest] deletes
    nothing: a new key makes the cache grow, full or not. *)
Lemma set_keeps_empty_first_key c now key (v : T) (ttlMs : option Z) :
  JsMap.firstKey (Cache.cache c) = Some "" ->
  JsMap.has (Cache.cache c) key = false ->
  Cache.entries (Cache.set c now key v ttlMs) = Cache.entries c + 1.
Proof.
  intros Hfirst Hfresh. unfold Cache.set, Cache.entries. rewrite JsMap_reinsert.
  unfold Cache.evictOldest. rewrite Hfirst, Hfresh. simpl.
  unfold JsMap.has in Hfresh.
  destruct (JsMap.get (Cache.cache c) key) eqn:E; [ discriminate | ].
  destruct (_ >=? _); simpl; rewrite (JsMap_delete_fresh _ _ E);
    unfold JsMap.size; rewrite length_app; simpl; lia.
Qed.

End LruOrder.

Section LruExamples.

Local Open Scope string_scope.
Local Open Scope Z_scope.

(** Three slots; [a] is read before the fourth key arrives, so [b], the
    oldest untouched entry, is the one that goes. *)
Example lru_get_protects :
  let ops :=
    [ Cache.OpSet 0 "a" 1 None; Cache.OpSet 1 "b" 2 None;
      Cache.OpSet 2 "c" 3 None; Cache.OpGet 3 "a";
      Cache.OpSet 4 "d" 4 None ] in
  let c := Cache.run (Cache.new 3 60000) ops in
  JsMap.keys (Cache.cache c) = ["c"; "a"; "d"] /\ Cache.entries c = 3.
Proof. split; reflexivity. Qed.

(** C7 fails on the code.  [evictOldest] guards the delete with
    [if (firstKey)], which is false for the empty string as it is for
    [undefined]: whenever the oldest key is the empty string, storing a
    new key evicts nothing.  With [maxSize = 1], storing under the empty
    string and then under an address leaves two entries; with a
    non-empty first key the same calls leave one. *)
Theorem lru_empty_key_exceeds_maxSize :
  (forall (c : Cache.LRUCache Z) now key v ttlMs,
      JsMap.firstKey (Cache.cache c) = Some "" ->
      JsMap.has (Cache.cache c) key = false ->
      Cache.entries (Cache.set c now key v ttlMs) = Cache.entries c + 1)
  /\ (let c := Cache.run (Cache.new 1 60000)
                 [ Cache.OpSet 0 "" 1 None; Cache.OpSet 1 "203.0.113.7" 2 None ] in
      Cache.maxSize c = 1 /\ Cache.entries c = 2
      /\ JsMap.keys (Cache.cache c) = [""; "203.0.113.7"])
  /\ (let c := Cache.run (Cache.new 1 60000)
                 [ Cache.OpSet 0 "10.0.0.1" 1 None;
                   Cache.OpSet 1 "203.0.113.7" 2 None ] in
      Cache.maxSize c = 1 /\ Cache.entries c = 1
      /\ JsMap.keys (Cache.cache c) = ["203.0.113.7"]).
Proof.
  split; [ | split ].
  - intros c now key v ttlMs. apply set_keeps_empty_first_key.
  - cbv zeta. repeat split.
  - cbv zeta. repeat split.
Qed.

End LruExamples.

(* ===================================================================== *)
(** * The LRU cache: lookups, expiry and statistics                       *)
(* ===================================================================== *)

Section JsMapLookup.

Context {V : Type}.
Implicit Types (m : JsMap.t V) (key k : string) (v : V).

Lemma JsMap_get_app_fresh m key v :
  JsMap.get m key = None -> JsMap.get (m ++ [(key, v)])%list key = Some v.
Proof.
  induction m as [ | [k v0] m IH]; simpl.
  - intros _. rewrite String.eqb_refl. reflexivity.
  - destruct (String.eqb k key); [ discriminate | exact IH ].
Qed.

Lemma JsMap_get_app_other m key k v :
  k <> key -> JsMap.get (m ++ [(key, v)])%list k = JsMap.get m k.
Proof.
  intros Hne. induction m as [ | [k0 v0] m IH]; simpl.
  - destruct (String.eqb_spec key k); [ congruence | reflexivity ].
  - destruct (String.eqb k0 k); [ reflexivity | exact IH ].
Qed.

Lemma JsMap_get_delete_other m key k :
  k <> key -> JsMap.get (JsMap.delete m key) k = JsMap.get m k.
Proof.
  intros Hne. induction m as [ | [k0 v0] m IH]; simpl; [ reflexivity | ].
  destruct (String.eqb_spec k0 key) as [-> | Hk0]; simpl.
  - destruct (String.eqb_spec key k); [ congruence | exact IH ].
  - destruct (String.eqb k0 k); [ reflexivity | exact IH ].
Qed.

Lemma JsMap_get_sublist_None m1 m2 key :
  m1 `sublist_of` m2 -> JsMap.get m2 key = None -> JsMap.get m1 key = None.
Proof.
  intros Hsub H. apply JsMap_get_None_keys. apply JsMap_get_None_keys in H.
  intros Hin. apply H.
  apply list_elem_of_In.
  apply (sublist_subseteq _ _ (JsMap_keys_sublist _ _ Hsub)).
  apply list_elem_of_In. exact Hin.
Qed.

(** With one entry per key, deleting a stored key removes one entry. *)
Lemma JsMap_length_delete_NoDup m key :
  NoDup (JsMap.keys m) ->
  JsMap.has m key = true ->
  S (length (JsMap.delete m key)) = length m.
Proof.
  unfold JsMap.has.
  induction m as [ | [k v] m IH]; simpl; [ discriminate | ].
  intros Hnd. apply NoDup_cons in Hnd as [Hk Hnd].
  destruct (String.eqb_spec k key) as [-> | Hne]; simpl.
  - intros _. rewrite JsMap_delete_fresh; [ reflexivity | ].
    apply JsMap_get_None_keys. intros Hin. apply Hk.
    apply list_elem_of_In. exact Hin.
  - intros H. rewrite (IH Hnd H). reflexivity.
Qed.

End JsMapLookup.

Section LruLookup.

Context {T : Type}.
Implicit Types (c : Cache.LRUCache T) (key : string) (now : Z).
Implicit Types (m : JsMap.t (Cache.CacheEntry T)) (e : Cache.CacheEntry T).
Local Open Scope string_scope.
Local Open Scope Z_scope.

(** What [set] leaves under its key. *)
Lemma set_stores c now key (v : T) (ttlMs : option Z) :
  JsMap.get (Cache.cache (Cache.set c now key v ttlMs)) key
  = Some (Cache.mkEntry v
            (now + match ttlMs with Some t => t | None => Cache.defaultTtlMs c end)
            now).
Proof.
  unfold Cache.set. rewrite JsMap_reinsert. simpl.
  apply JsMap_get_app_fresh, JsMap_get_delete.
Qed.

(** X1. A value stored by [set] at time [now] with time-to-live [ttl]
    (the given one, or the cache's default) is what [get] returns for
    that key, and [has] is true, at every time up to and including
    [now + ttl]; strictly after [now + ttl] [get] returns [undefined],
    [has] is false, and the [get] removes the entry.  This holds for
    every cache, key and value. *)
Theorem set_then_get c now key (v : T) (ttlMs : option Z) (later : Z) :
  let ttl := match ttlMs with Some t => t | None => Cache.defaultTtlMs c end in
  let c' := Cache.set c now key v ttlMs in
  (later <= now + ttl ->
     fst (Cache.get c' later key) = Some v
     /\ fst (Cache.has c' later key) = true)
  /\ (now + ttl < later ->
        fst (Cache.get c' later key) = None
        /\ fst (Cache.has c' later key) = false
        /\ JsMap.get (Cache.cache (snd (Cache.get c' later key))) key = None).
Proof.
  intros ttl c'.
  pose proof (set_stores c now key v ttlMs) as Hget. fold ttl c' in Hget.
  unfold Cache.get, Cache.has. rewrite Hget. simpl.
  destruct (Z.gtb_spec later (now + ttl)); simpl.
  - split; [ lia | ]. intros _. repeat split. apply JsMap_get_delete.
  - split; [ | lia ]. intros _. split; reflexivity.
Qed.

(** X2. [has] answers as [get] would: it is true exactly when [get]
    returns a value.  A [has] that answers true changes nothing, neither
    the order of the entries nor a counter; in every case it leaves the
    hit and miss counters alone, while [get] counts each call. *)
Theorem has_agrees_with_get c now key :
  fst (Cache.has c now key)
  = match fst (Cache.get c now key) with Some _ => true | None => false end
  /\ (fst (Cache.has c now key) = true -> snd (Cache.has c now key) = c)
  /\ Cache.hits (Cache.stats (snd (Cache.has c now key))) = Cache.hits (Cache.stats c)
  /\ Cache.misses (Cache.stats (snd (Cache.has c now key)))
     = Cache.misses (Cache.stats c)
  /\ Cache.hits (Cache.stats (snd (Cache.get c now key)))
     + Cache.misses (Cache.stats (snd (Cache.get c now key)))
     = Cache.hits (Cache.stats c) + Cache.misses (Cache.stats c) + 1.
Proof.
  unfold Cache.has, Cache.get.
  destruct (JsMap.get (Cache.cache c) key) as [e | ]; simpl.
  - destruct (now >? Cache.expiresAt e); simpl; repeat split; try discriminate; lia.
  - repeat split; try discriminate; lia.
Qed.

(** X3. After [delete(key)] the key is gone: [get] misses and [has] is
    false at every time.  Lookups of every other key find what they found
    before.  [delete] returns true exactly when an entry was stored under
    the key, expired or not, and a [delete] that returns false leaves the
    stored entries as they were. *)
Theorem delete_then_get c key now (other : string) :
  let c' := snd (Cache.delete c key) in
  fst (Cache.get c' now key) = None
  /\ fst (Cache.has c' now key) = false
  /\ (other <> key -> fst (Cache.get c' now other) = fst (Cache.get c now other))
  /\ (fst (Cache.delete c key) = true <-> JsMap.get (Cache.cache c) key <> None)
  /\ (fst (Cache.delete c key) = false -> Cache.cache c' = Cache.cache c).
Proof.
  intros c'. subst c'. unfold Cache.delete, Cache.get, Cache.has. simpl.
  rewrite JsMap_get_delete. simpl.
  split; [ reflexivity | ]. split; [ reflexivity | ]. split; [ | split ].
  - intros Hne. rewrite (JsMap_get_delete_other _ _ _ Hne).
    destruct (JsMap.get (Cache.cache c) other) as [e | ]; [ | reflexivity ].
    destruct (now >? Cache.expiresAt e); reflexivity.
  - unfold JsMap.has. destruct (JsMap.get (Cache.cache c) key).
    + split; [ discriminate | reflexivity ].
    + split; [ discriminate | congruence ].
  - unfold JsMap.has.
    destruct (JsMap.get (Cache.cache c) key) eqn:E; [ discriminate | ].
    intros _. apply JsMap_delete_fresh, E.
Qed.

(** The entries that [cleanup] keeps. *)
Lemma filter_live_all now m :
  Forall (fun kv => Props.live now (snd kv))
    (List.filter (fun kv => negb (now >? Cache.expiresAt (snd kv))) m).
Proof.
  apply Forall_forall. intros kv Hin.
  apply list_elem_of_In, filter_In in Hin as [_ H].
  unfold Props.live. destruct (Z.gtb_spec now (Cache.expiresAt (snd kv)));
    [ discriminate | lia ].
Qed.

Lemma filter_split_length (f : string * Cache.CacheEntry T -> bool) m :
  (length (List.filter f m) + length (List.filter (fun kv => negb (f kv)) m)
   = length m)%nat.
Proof.
  induction m as [ | kv m IH]; simpl; [ reflexivity | ].
  destruct (f kv); simpl; lia.
Qed.

Lemma filter_none (f : string * Cache.CacheEntry T -> bool) m :
  Forall (fun kv => f kv = false) m -> List.filter f m = [].
Proof.
  induction 1 as [ | kv m Hkv Hm IH]; simpl; [ reflexivity | ].
  rewrite Hkv. exact IH.
Qed.

(** X4. [cleanup] returns the number of entries it removes: the size drops
    by exactly that number.  Afterwards every stored entry is live at the
    time of the call, every entry that was live is still stored, the
    order of the kept entries is as before, and a second [cleanup] at the
    same time removes nothing. *)
Theorem cleanup_removes_expired c now :
  let n := fst (Cache.cleanup c now) in
  let c' := snd (Cache.cleanup c now) in
  0 <= n
  /\ Cache.entries c' = Cache.entries c - n
  /\ Forall (fun kv => Props.live now (snd kv)) (Cache.cache c')
  /\ (forall kv, In kv (Cache.cache c) -> Props.live now (snd kv) ->
        In kv (Cache.cache c'))
  /\ Cache.cache c' `sublist_of` Cache.cache c
  /\ fst (Cache.cleanup c' now) = 0.
Proof.
  intros n c'. subst n c'. unfold Cache.cleanup, Cache.entries, JsMap.size.
  simpl.
  pose proof (filter_split_length
                (fun kv => now >? Cache.expiresAt (snd kv)) (Cache.cache c)).
  split; [ lia | ]. split; [ lia | ].
  split; [ apply filter_live_all | ].
  split; [ | split ].
  - intros kv Hin Hlive. apply filter_In. split; [ exact Hin | ].
    unfold Props.live in Hlive.
    destruct (Z.gtb_spec now (Cache.expiresAt (snd kv))); [ lia | reflexivity ].
  - apply JsMap_filter_sublist.
  - rewrite filter_none; [ reflexivity | ].
    eapply Forall_impl; [ apply filter_live_all | ].
    intros kv Hlive. simpl in Hlive. unfold Props.live in Hlive.
    destruct (Z.gtb_spec now (Cache.expiresAt (snd kv))); [ lia | reflexivity ].
Qed.

End LruLookup.

Section LruStatistics.

Context {T : Type}.
Implicit Types (c : Cache.LRUCache T) (key : string) (now : Z).
Implicit Types (m : JsMap.t (Cache.CacheEntry T)) (e : Cache.CacheEntry T).
Local Open Scope string_scope.
Local Open Scope Z_scope.

Lemma NoDup_keys_sublist m1 m2 :
  m1 `sublist_of` m2 -> NoDup (JsMap.keys m2) -> NoDup (JsMap.keys m1).
Proof.
  intros Hsub Hnd. exact (sublist_NoDup _ _ Hnd (JsMap_keys_sublist _ _ Hsub)).
Qed.

Lemma NoDup_keys_append m key e :
  NoDup (JsMap.keys m) -> JsMap.get m key = None ->
  NoDup (JsMap.keys (m ++ [(key, e)])%list).
Proof.
  intros Hnd Hfresh. apply JsMap_get_None_keys in Hfresh.
  unfold JsMap.keys in *. rewrite map_app. simpl.
  apply NoDup_app. split; [ exact Hnd | ].
  split; [ | apply NoDup_singleton ].
  intros x Hx Hx'. apply list_elem_of_singleton in Hx'. subst x.
  apply Hfresh. apply list_elem_of_In. exact Hx.
Qed.

Lemma evictOldest_sublist m : Cache.evictOldest m `sublist_of` m.
Proof.
  unfold Cache.evictOldest. destruct (JsMap.firstKey m); [ | reflexivity ].
  destruct (negb _); [ apply JsMap_delete_sublist | reflexivity ].
Qed.

Lemma step_synced c (op : Cache.Op T) :
  Props.synced c -> Props.synced (Cache.step c op).
Proof.
  intros [Hnd Hsize]. unfold Props.synced, Cache.entries in *.
  destruct op as [now key | now key v ttlMs | now key | key | | now]; simpl.
  - unfold Cache.get.
    destruct (JsMap.get (Cache.cache c) key) as [e | ] eqn:E; simpl;
      [ | auto ].
    destruct (now >? Cache.expiresAt e); simpl.
    + split; [ | reflexivity ].
      exact (NoDup_keys_sublist _ _ (JsMap_delete_sublist _ _) Hnd).
    + rewrite JsMap_reinsert. split.
      * apply NoDup_keys_append; [ | apply JsMap_get_delete ].
        exact (NoDup_keys_sublist _ _ (JsMap_delete_sublist _ _) Hnd).
      * rewrite Hsize. unfold JsMap.size. rewrite length_app. simpl.
        assert (Hhas : JsMap.has (Cache.cache c) key = true)
          by (unfold JsMap.has; rewrite E; reflexivity).
        pose proof (JsMap_length_delete_NoDup _ _ Hnd Hhas). lia.
  - unfold Cache.set. rewrite JsMap_reinsert. simpl. split; [ | reflexivity ].
    apply NoDup_keys_append; [ | apply JsMap_get_delete ].
    apply (NoDup_keys_sublist _ (Cache.cache c)); [ | exact Hnd ].
    etransitivity; [ apply JsMap_delete_sublist | ].
    destruct (_ && _); [ apply evictOldest_sublist | reflexivity ].
  - unfold Cache.has.
    destruct (JsMap.get (Cache.cache c) key) as [e | ]; [ | auto ].
    destruct (now >? Cache.expiresAt e); simpl; [ | auto ].
    split; [ | reflexivity ].
    exact (NoDup_keys_sublist _ _ (JsMap_delete_sublist _ _) Hnd).
  - split; [ | reflexivity ].
    exact (NoDup_keys_sublist _ _ (JsMap_delete_sublist _ _) Hnd).
  - split; [ constructor | reflexivity ].
  - split; [ | reflexivity ].
    exact (NoDup_keys_sublist _ _ (JsMap_filter_sublist _ _) Hnd).
Qed.

Lemma step_counters c (op : Cache.Op T) :
  Cache.hits (Cache.stats (Cache.step c op))
  + Cache.misses (Cache.stats (Cache.step c op))
  = Cache.hits (Cache.stats c) + Cache.misses (Cache.stats c)
    + Props.countGets [op]
  /\ Cache.statsMaxSize (Cache.stats (Cache.step c op))
     = Cache.statsMaxSize (Cache.stats c).
Proof.
  destruct op as [now key | now key v ttlMs | now key | key | | now];
    unfold Props.countGets; simpl.
  - unfold Cache.get. destruct (JsMap.get (Cache.cache c) key) as [e | ]; simpl.
    + destruct (now >? Cache.expiresAt e); simpl; split; lia.
    + split; lia.
  - split; lia.
  - unfold Cache.has. destruct (JsMap.get (Cache.cache c) key) as [e | ]; simpl.
    + destruct (now >? Cache.expiresAt e); simpl; split; lia.
    + split; lia.
  - split; lia.
  - split; lia.
  - split; lia.
Qed.

Lemma countGets_cons (op : Cache.Op T) (ops : list (Cache.Op T)) :
  Props.countGets (op :: ops) = Props.countGets [op] + Props.countGets ops.
Proof.
  unfold Props.countGets. simpl. destruct op; simpl; lia.
Qed.

Lemma run_statistics (ops : list (Cache.Op T)) c :
  Props.synced c ->
  Props.synced (Cache.run c ops)
  /\ Cache.hits (Cache.stats (Cache.run c ops))
     + Cache.misses (Cache.stats (Cache.run c ops))
     = Cache.hits (Cache.stats c) + Cache.misses (Cache.stats c)
       + Props.countGets ops
  /\ Cache.statsMaxSize (Cache.stats (Cache.run c ops))
     = Cache.statsMaxSize (Cache.stats c).
Proof.
  revert c. induction ops as [ | op ops IH]; intros c Hs; simpl.
  - unfold Props.countGets. simpl. repeat split; try apply Hs; lia.
  - destruct (IH (Cache.step c op) (step_synced c op Hs)) as (H1 & H2 & H3).
    destruct (step_counters c op) as [H4 H5].
    rewrite countGets_cons. repeat split; try apply H1; lia.
Qed.

(** X5. The statistics of a cache that started empty are right after
    every sequence of calls: [hits + misses] is the number of [get]
    calls made, the recorded [size] is the number of stored entries, the
    recorded [maxSize] is the configured one, and no key is stored
    twice. *)
Theorem stats_track_cache (maxSize ttl : Z) (ops : list (Cache.Op T)) :
  let c := Cache.run (Cache.new maxSize ttl) ops in
  Cache.hits (Cache.stats c) + Cache.misses (Cache.stats c) = Props.countGets ops
  /\ Cache.size (Cache.stats c) = Cache.entries c
  /\ Cache.statsMaxSize (Cache.stats c) = maxSize
  /\ NoDup (JsMap.keys (Cache.cache c)).
Proof.
  intros c. subst c.
  destruct (run_statistics ops (Cache.new maxSize ttl)) as ([Hnd Hsize] & H2 & H3).
  - split; [ constructor | reflexivity ].
  - simpl in H2, H3. repeat split; try assumption; lia.
Qed.

End LruStatistics.

Section LruEviction.

Context {T : Type}.
Implicit Types (c : Cache.LRUCache T) (key : string) (now : Z).
Implicit Types (m : JsMap.t (Cache.CacheEntry T)) (e : Cache.CacheEntry T).
Local Open Scope string_scope.
Local Open Scope Z_scope.

Lemma new_invariant (maxSize ttl : Z) :
  0 <= maxSize -> Spec.cacheInvariant (Cache.new (T := T) maxSize ttl).
Proof.
  intros H. unfold Spec.cacheInvariant, Cache.entries, JsMap.size. simpl.
  split; [ lia | split; constructor ].
Qed.

(** X6. A cache created with room for at least one entry, and never
    asked to store under the empty string, keeps its invariant through
    every sequence of [get], [set], [has], [delete], [clear] and
    [cleanup] calls: at most [maxSize] entries, one entry per key, no
    empty key, and [maxSize] itself never changes. *)
Theorem lru_invariant_from_new (maxSize ttl : Z) (ops : list (Cache.Op T)) :
  1 <= maxSize ->
  Forall Spec.storesNonEmptyKey ops ->
  let c := Cache.run (Cache.new maxSize ttl) ops in
  Cache.entries c <= maxSize
  /\ Cache.maxSize c = maxSize
  /\ NoDup (JsMap.keys (Cache.cache c))
  /\ Forall (fun k => k <> "") (JsMap.keys (Cache.cache c)).
Proof.
  intros Hmax Hops c. subst c.
  destruct (run_invariant ops (Cache.new maxSize ttl)) as [(H1 & H2 & H3) E];
    try assumption.
  - apply new_invariant. lia.
  - simpl in E. rewrite E in H1. auto.
Qed.

(** The map before and after a [set] of a new key on a full cache. *)
Lemma set_full_shape c now key (v : T) (ttlMs : option Z) :
  Spec.cacheInvariant c ->
  1 <= Cache.maxSize c ->
  Cache.entries c = Cache.maxSize c ->
  JsMap.has (Cache.cache c) key = false ->
  exists k0 e0 m',
    Cache.cache c = (k0, e0) :: m'
    /\ JsMap.get m' k0 = None
    /\ Cache.cache (Cache.set c now key v ttlMs)
       = (m' ++ [(key, Cache.mkEntry v
                         (now + match ttlMs with
                                | Some t => t
                                | None => Cache.defaultTtlMs c
                                end) now)])%list.
Proof.
  intros (_ & Hnd & Hne) Hmax Hfull Hfresh.
  unfold Cache.set, Cache.entries in *. rewrite JsMap_reinsert.
  destruct (Z.geb_spec (JsMap.size (Cache.cache c)) (Cache.maxSize c)); [ | lia ].
  rewrite Hfresh. simpl.
  unfold JsMap.size in Hfull.
  destruct (Cache.cache c) as [ | [k0 e0] m']; simpl in *; [ lia | ].
  exists k0, e0, m'. split; [ reflexivity | ].
  assert (Hm' : JsMap.get m' k0 = None).
  { apply JsMap_get_None_keys. apply NoDup_cons in Hnd as [Hnot _].
    intros Hin. apply Hnot. apply list_elem_of_In. exact Hin. }
  split; [ exact Hm' | ].
  unfold Cache.evictOldest; simpl.
  assert (Hk0 : k0 <> "") by (inversion Hne; assumption).
  destruct (String.eqb_spec k0 ""); [ contradiction | ]. simpl.
  rewrite String.eqb_refl, (JsMap_delete_fresh _ _ Hm').
  unfold JsMap.has in Hfresh. simpl in Hfresh.
  destruct (String.eqb k0 key); [ discriminate | ].
  destruct (JsMap.get m' key) eqn:E; [ discriminate | ].
  rewrite (JsMap_delete_fresh _ _ E). reflexivity.
Qed.

(** X7. On a full cache that satisfies the invariant (at most [maxSize]
    entries, one per key, no empty key), storing a key that is not
    present evicts exactly the oldest entry: the key order becomes the
    old order without its first key, followed by the new key; the size
    stays [maxSize]; the evicted key is no longer found; every other key
    is found with the entry it had. *)
Theorem set_on_full_cache c now key (v : T) (ttlMs : option Z) :
  Spec.cacheInvariant c ->
  1 <= Cache.maxSize c ->
  Cache.entries c = Cache.maxSize c ->
  JsMap.has (Cache.cache c) key = false ->
  let c' := Cache.set c now key v ttlMs in
  JsMap.keys (Cache.cache c') = (tl (JsMap.keys (Cache.cache c)) ++ [key])%list
  /\ Cache.entries c' = Cache.maxSize c
  /\ (forall oldest, JsMap.firstKey (Cache.cache c) = Some oldest ->
        JsMap.get (Cache.cache c') oldest = None)
  /\ (forall k, k <> key -> JsMap.firstKey (Cache.cache c) <> Some k ->
        JsMap.get (Cache.cache c') k = JsMap.get (Cache.cache c) k).
Proof.
  intros Hinv Hmax Hfull Hfresh c'. subst c'.
  destruct (set_full_shape c now key v ttlMs Hinv Hmax Hfull Hfresh)
    as (k0 & e0 & m' & Hc & Hk0 & Hc').
  unfold Cache.entries in *. rewrite Hc' . rewrite Hc in *.
  unfold JsMap.has in Hfresh. simpl in Hfresh.
  destruct (String.eqb_spec k0 key) as [ | Hne0]; [ discriminate | ].
  split; [ | split; [ | split ] ].
  - unfold JsMap.keys. rewrite map_app. reflexivity.
  - rewrite <- Hfull. unfold JsMap.size. rewrite length_app. simpl. lia.
  - intros oldest E. simpl in E. inversion E; subst oldest.
    rewrite JsMap_get_app_other by congruence. exact Hk0.
  - intros k Hk Hfirst. simpl in Hfirst.
    rewrite JsMap_get_app_other by exact Hk. simpl.
    destruct (String.eqb_spec k0 k); [ congruence | reflexivity ].
Qed.

(** X8. A [get] that finds a live entry returns its value and moves the
    entry to the most recent position, behind all other keys, whose
    order and entries stay as they were.  The entry keeps its expiry
    time: reading does not extend the time to live. *)
Theorem get_hit_promotes c now key e :
  JsMap.get (Cache.cache c) key = Some e ->
  now <= Cache.expiresAt e ->
  let c' := snd (Cache.get c now key) in
  fst (Cache.get c now key) = Some (Cache.value e)
  /\ JsMap.keys (Cache.cache c')
     = (List.filter (fun k => negb (String.eqb k key)) (JsMap.keys (Cache.cache c))
        ++ [key])%list
  /\ JsMap.get (Cache.cache c') key
     = Some (Cache.mkEntry (Cache.value e) (Cache.expiresAt e) now)
  /\ (forall k, k <> key ->
        JsMap.get (Cache.cache c') k = JsMap.get (Cache.cache c) k).
Proof.
  intros Hget Hlive c'. subst c'.
  destruct (get_promotes c now key e Hget Hlive) as [Hv Hkeys].
  split; [ exact Hv | ]. split; [ exact Hkeys | ].
  unfold Cache.get. rewrite Hget.
  destruct (Z.gtb_spec now (Cache.expiresAt e)); [ lia | ]. simpl.
  rewrite JsMap_reinsert. split.
  - apply JsMap_get_app_fresh, JsMap_get_delete.
  - intros k Hk. rewrite JsMap_get_app_other by exact Hk.
    apply JsMap_get_delete_other, Hk.
Qed.

(** X9. Storing under a key that is already present evicts nothing, even
    on a full cache: the old entry of the key is replaced by the new
    value with a fresh expiry, the key moves to the most recent position,
    every other key keeps its entry, and with one entry per key the size
    does not change. *)
Theorem set_existing_key c now key (v : T) (ttlMs : option Z) :
  NoDup (JsMap.keys (Cache.cache c)) ->
  JsMap.has (Cache.cache c) key = true ->
  let ttl := match ttlMs with Some t => t | None => Cache.defaultTtlMs c end in
  let c' := Cache.set c now key v ttlMs in
  Cache.entries c' = Cache.entries c
  /\ JsMap.keys (Cache.cache c')
     = (List.filter (fun k => negb (String.eqb k key)) (JsMap.keys (Cache.cache c))
        ++ [key])%list
  /\ JsMap.get (Cache.cache c') key = Some (Cache.mkEntry v (now + ttl) now)
  /\ (forall k, k <> key ->
        JsMap.get (Cache.cache c') k = JsMap.get (Cache.cache c) k).
Proof.
  intros Hnd Hhas ttl c'. subst ttl c'.
  split; [ | split; [ | split ] ].
  - unfold Cache.set, Cache.entries. rewrite JsMap_reinsert, Hhas, andb_false_r.
    simpl. unfold JsMap.size. rewrite length_app. simpl.
    pose proof (JsMap_length_delete_NoDup _ _ Hnd Hhas). lia.
  - unfold Cache.set. rewrite JsMap_reinsert, Hhas, andb_false_r. simpl.
    unfold JsMap.keys at 1. rewrite map_app. simpl.
    fold (JsMap.keys (JsMap.delete (Cache.cache c) key)).
    rewrite JsMap_keys_delete. reflexivity.
  - apply set_stores.
  - intros k Hk. unfold Cache.set.
    rewrite JsMap_reinsert, Hhas, andb_false_r. simpl.
    rewrite JsMap_get_app_other by exact Hk.
    apply JsMap_get_delete_other, Hk.
Qed.

End LruEviction.

Section LruWitnesses.

Local Open Scope string_scope.
Local Open Scope Z_scope.

Lemma abc_invariant : Spec.cacheInvariant Samples.abc /\ Cache.maxSize Samples.abc = 3.
Proof.
  apply run_invariant.
  - simpl. lia.
  - repeat constructor; discriminate.
  - apply new_invariant. lia.
Qed.

Lemma lru_invariant_from_new_witness :
  Cache.entries Samples.abc <= 3
  /\ NoDup (JsMap.keys (Cache.cache Samples.abc)).
Proof.
  destruct (lru_invariant_from_new (T := Z) 3 60000
              [ Cache.OpSet 0 "a" 1 None; Cache.OpSet 1 "b" 2 None;
                Cache.OpSet 2 "c" 3 None ]) as (H1 & _ & H3 & _).
  - lia.
  - repeat constructor; discriminate.
  - split; [ exact H1 | exact H3 ].
Defined.

(** A fourth key on the full sample cache: [a] goes, [b] and [c] stay. *)
Lemma set_on_full_cache_witness :
  JsMap.keys (Cache.cache (Cache.set Samples.abc 3 "d" 4 None)) = ["b"; "c"; "d"]
  /\ JsMap.get (Cache.cache (Cache.set Samples.abc 3 "d" 4 None)) "a" = None.
Proof.
  destruct (set_on_full_cache Samples.abc 3 "d" 4 None)
    as (Hkeys & _ & Hgone & _).
  - apply abc_invariant.
  - vm_compute. discriminate.
  - reflexivity.
  - reflexivity.
  - split; [ rewrite Hkeys; reflexivity | apply Hgone; reflexivity ].
Defined.

Lemma get_hit_promotes_witness :
  fst (Cache.get Samples.abc 5 "a") = Some 1
  /\ JsMap.keys (Cache.cache (snd (Cache.get Samples.abc 5 "a"))) = ["b"; "c"; "a"].
Proof.
  destruct (get_hit_promotes Samples.abc 5 "a" (Cache.mkEntry 1 60000 0))
    as (Hv & Hkeys & _).
  - reflexivity.
  - simpl. lia.
  - split; [ exact Hv | rewrite Hkeys; reflexivity ].
Defined.

Lemma set_existing_key_witness :
  Cache.entries (Cache.set Samples.abc 3 "a" 9 None) = 3
  /\ JsMap.keys (Cache.cache (Cache.set Samples.abc 3 "a" 9 None)) = ["b"; "c"; "a"].
Proof.
  destruct (set_existing_key Samples.abc 3 "a" 9 None) as (Hsize & Hkeys & _).
  - apply abc_invariant.
  - reflexivity.
  - split; [ rewrite Hsize; reflexivity | rewrite Hkeys; reflexivity ].
Defined.

End LruWitnesses.

(* ===================================================================== *)
(** * Parsing the lookup answer                                           *)
(* ===================================================================== *)

Section AsnParsing.

Import Types IpReputation.
Local Open Scope string_scope.
Local Open Scope Z_scope.

Local Abbreviation allDigits s :=
  (forallb Js.isDigit (list_ascii_of_string s) = true).
Local Abbreviation noDigit s :=
  (forallb (fun c => negb (Js.isDigit c)) (list_ascii_of_string s) = true).

(** Text that does not go on with a digit. *)
Local Abbreviation stopsDigits rest :=
  (match rest with
   | EmptyString => True
   | String c _ => Js.isDigit c = false
   end).





(** ** Decimal rendering *)










End AsnParsing.

Section LookupAnswer.

Import Types IpReputation.
Local Open Scope string_scope.
Local Open Scope Z_scope.

Lemma startsWith_app_l (s a b : string) :
  Js.startsWith s (a ++ b) = true -> Js.startsWith s a = true.
Proof.
  revert s. induction a as [ | c a IH]; intros s;
    [ destruct s; reflexivity | ].
  rewrite append_cons. destruct s as [ | c' s]; simpl; [ discriminate | ].
  intros H. apply andb_true_iff in H as [Hc H].
  rewrite Hc. exact (IH s H).
Qed.

(** A string that includes a text includes every prefix of that text. *)
Lemma includes_app_l (s a b : string) :
  Js.includes s (a ++ b) = true -> Js.includes s a = true.
Proof.
  induction s as [ | c s IH]; cbn [Js.includes].
  - rewrite !orb_false_r. apply startsWith_app_l.
  - intros H. apply orb_true_iff in H as [H | H].
    + rewrite (startsWith_app_l _ _ _ H). reflexivity.
    + rewrite (IH H). apply orb_true_r.
Qed.

Lemma some_includes (org keyword : string) (keywords : list string) :
  In keyword keywords -> Js.includes org keyword = true ->
  Js.some (fun k => Js.includes org k) keywords = true.
Proof.
  intros Hin H. unfold Js.some. apply existsb_exists. exists keyword. auto.
Qed.

(** No ASN is on both the carrier list and the datacenter list. *)
Lemma carrier_not_datacenter_asn (n : option Z) :
  inSet Config.ALL_CARRIER_ASNS n = true ->
  inSet Config.DATACENTER_ASNS n = false.
Proof.
  destruct n as [n | ]; simpl; [ | reflexivity ].
  intros H. apply bool_decide_eq_true in H.
  unfold Config.ALL_CARRIER_ASNS in H. apply elem_of_list_to_set in H.
  apply list_elem_of_In in H. simpl in H.
  repeat (destruct H as [<- | H]; [ vm_compute; reflexivity | ]).
  destruct H.
Qed.

(** X12. In every reputation that [parseIpApiResponse] builds, [isTor]
    implies [isVpn]: the Tor texts "tor exit" and "tor project" contain
    the VPN keyword "tor".  [isProxy] and [cached] are always false, and
    [isp] repeats [org]. *)
Theorem parsed_tor_is_vpn (data : Api.IpApiResponse) :
  let r := parseIpApiResponse data in
  (isTor r = true -> isVpn r = true)
  /\ isProxy r = false
  /\ cached r = false
  /\ isp r = org r.
Proof.
  cbv zeta. unfold parseIpApiResponse. cbn [isTor isVpn isProxy cached isp org].
  split; [ | repeat split ].
  intros H. apply (some_includes _ "tor"); [ simpl; auto | ].
  apply orb_true_iff in H as [H | H].
  - exact (includes_app_l _ "tor" " exit" H).
  - exact (includes_app_l _ "tor" " project" H).
Qed.

(** X13. A parsed reputation is a mobile carrier's only if the answer
    carries an ASN of the carrier list.  The carrier list and the
    datacenter ASN list share no number, so a reputation that is both
    carrier and datacenter owes the datacenter facet to a hosting keyword
    in the organisation name, never to its ASN. *)
Theorem parsed_carrier_conflict (data : Api.IpApiResponse) :
  let r := parseIpApiResponse data in
  isMobileCarrier r = true ->
  (exists n, asn r = Some n /\ n ∈ Config.ALL_CARRIER_ASNS)
  /\ inSet Config.DATACENTER_ASNS (asn r) = false
  /\ (isDatacenter r = true ->
        Js.some (fun keyword => Js.includes (Js.toLowerCase (org r)) keyword)
          Config.DATACENTER_KEYWORDS = true).
Proof.
  cbv zeta. unfold parseIpApiResponse.
  cbn [isMobileCarrier isDatacenter asn org].
  intros Hc. pose proof (carrier_not_datacenter_asn _ Hc) as Hd.
  split; [ | split; [ exact Hd | ] ].
  - destruct (parseAsn (Api.asn data)) as [n | ]; [ | discriminate Hc ].
    exists n. split; [ reflexivity | ].
    simpl in Hc. apply bool_decide_eq_true in Hc. exact Hc.
  - rewrite Hd. simpl. auto.
Qed.

(** A Jio answer whose organisation name mentions a cloud. *)
Lemma parsed_carrier_conflict_witness :
  let r :=
    parseIpApiResponse (Mock.answer "203.0.113.7" "Jio Cloud Services" "AS55836") in
  isMobileCarrier r = true /\ isDatacenter r = true
  /\ inSet Config.DATACENTER_ASNS (asn r) = false.
Proof.
  cbv zeta.
  destruct (parsed_carrier_conflict
              (Mock.answer "203.0.113.7" "Jio Cloud Services" "AS55836"))
    as (_ & Hasn & _).
  - vm_compute. reflexivity.
  - split; [ vm_compute; reflexivity | ].
    split; [ vm_compute; reflexivity | exact Hasn ].
Defined.

End LookupAnswer.

(* ===================================================================== *)
(** * The server state through every run of calls                         *)
(* ===================================================================== *)

Section CacheContents.

Context {T : Type}.
Variable Q : string -> T -> Prop.
Implicit Types (c : Cache.LRUCache T) (key : string) (now : Z).
Implicit Types (m : JsMap.t (Cache.CacheEntry T)) (e : Cache.CacheEntry T).

Local Abbreviation holds m :=
  (Forall (fun kv => Q (fst kv) (Cache.value (snd kv))) m).

Lemma Forall_sublist_entries (P : string * Cache.CacheEntry T -> Prop) m1 m2 :
  m1 `sublist_of` m2 -> Forall P m2 -> Forall P m1.
Proof.
  induction 1 as [ | x l1 l2 Hsub IH | x l1 l2 Hsub IH ]; intros H.
  - constructor.
  - inversion H; subst. constructor; auto.
  - inversion H; subst. auto.
Qed.

Lemma JsMap_get_In m key e : JsMap.get m key = Some e -> In (key, e) m.
Proof.
  induction m as [ | [k v] m IH]; simpl; [ discriminate | ].
  destruct (String.eqb_spec k key) as [-> | Hne].
  - intros E. inversion E. auto.
  - intros E. right. exact (IH E).
Qed.

Lemma get_contents c now key :
  holds (Cache.cache c) -> holds (Cache.cache (snd (Cache.get c now key))).
Proof.
  intros H. unfold Cache.get.
  destruct (JsMap.get (Cache.cache c) key) as [e | ] eqn:E; simpl; [ | exact H ].
  destruct (now >? Cache.expiresAt e); simpl.
  - exact (Forall_sublist_entries _ _ _ (JsMap_delete_sublist _ _) H).
  - rewrite JsMap_reinsert. apply Forall_app. split.
    + exact (Forall_sublist_entries _ _ _ (JsMap_delete_sublist _ _) H).
    + constructor; [ | constructor ]. simpl.
      apply JsMap_get_In in E. rewrite Forall_forall in H.
      apply (H (key, e)). apply list_elem_of_In. exact E.
Qed.

Lemma get_value_contents c now key (v : T) :
  holds (Cache.cache c) -> fst (Cache.get c now key) = Some v -> Q key v.
Proof.
  intros H. unfold Cache.get.
  destruct (JsMap.get (Cache.cache c) key) as [e | ] eqn:E; simpl;
    [ | discriminate ].
  destruct (now >? Cache.expiresAt e); simpl; [ discriminate | ].
  intros Hv. inversion Hv; subst v.
  apply JsMap_get_In in E. rewrite Forall_forall in H.
  apply (H (key, e)). apply list_elem_of_In. exact E.
Qed.

Lemma set_contents c now key (v : T) (ttlMs : option Z) :
  holds (Cache.cache c) -> Q key v ->
  holds (Cache.cache (Cache.set c now key v ttlMs)).
Proof.
  intros H Hv. unfold Cache.set. rewrite JsMap_reinsert. simpl.
  apply Forall_app. split; [ | constructor; [ exact Hv | constructor ] ].
  apply (Forall_sublist_entries _ _ (Cache.cache c)); [ | exact H ].
  etransitivity; [ apply JsMap_delete_sublist | ].
  destruct (_ && _); [ | reflexivity ].
  unfold Cache.evictOldest. destruct (JsMap.firstKey _); [ | reflexivity ].
  destruct (negb _); [ apply JsMap_delete_sublist | reflexivity ].
Qed.

End CacheContents.

Section WorldInvariant.

Import Types IpReputation Classifier.
Local Open Scope string_scope.
Local Open Scope Z_scope.

Lemma parsed_fromLookup (data : Api.IpApiResponse) :
  Props.fromLookup (parseIpApiResponse data).
Proof.
  unfold Props.fromLookup, parseIpApiResponse. cbn [isTor isVpn isProxy].
  split; [ reflexivity | ].
  intros H. apply (some_includes _ "tor"); [ simpl; auto | ].
  apply orb_true_iff in H as [H | H].
  - exact (includes_app_l _ "tor" " exit" H).
  - exact (includes_app_l _ "tor" " project" H).
Qed.

Lemma unknown_fromLookup (ip reason : string) :
  Props.fromLookup (createUnknownResult ip reason).
Proof. split; [ reflexivity | discriminate ]. Qed.

Lemma markCached_fromLookup (r : IpReputationResult) :
  Props.fromLookup r -> Props.fromLookup (markCached r).
Proof. intros H. exact H. Qed.

Lemma fetchIpReputation_fromLookup (env : Env) (ip : string) (r : IpReputationResult) :
  fetchIpReputation env ip = Normal r -> Props.fromLookup r.
Proof.
  unfold fetchIpReputation.
  destruct (fetch env _) as [ | message | status [ | data]]; simpl;
    try discriminate.
  - destruct (negb (ok status)); discriminate.
  - destruct (negb (ok status)); simpl; [ discriminate | ].
    destruct (Api.error data); [ discriminate | ].
    intros E. inversion E. apply parsed_fromLookup.
Qed.

Lemma isValidIp_nonEmpty (ip : string) : isValidIp ip = true -> ip <> "".
Proof. intros H ->. vm_compute in H. discriminate H. Qed.

Lemma get_config c now key :
  Cache.maxSize (snd (Cache.get (T := IpReputationResult) c now key)) = Cache.maxSize c
  /\ Cache.defaultTtlMs (snd (Cache.get c now key)) = Cache.defaultTtlMs c.
Proof.
  unfold Cache.get. destruct (JsMap.get _ _) as [e | ]; [ | auto ].
  destruct (_ >? _); auto.
Qed.

Lemma new_cacheOk :
  Props.cacheOk
    (Cache.new Config.CACHE_CONFIG.ip.maxSize Config.CACHE_CONFIG.ip.ttlMs).
Proof.
  split; [ apply new_invariant; vm_compute; discriminate | ].
  repeat split. constructor.
Qed.

Lemma getIpCache_ok (w : World) :
  Props.worldOk w ->
  Props.cacheOk (fst (getIpCache w))
  /\ manualWhitelist (snd (getIpCache w)) = manualWhitelist w
  /\ manualBlacklist (snd (getIpCache w)) = manualBlacklist w.
Proof.
  intros [Hc _]. unfold getIpCache.
  destruct (ipCache w) as [c | ]; simpl; [ auto | ].
  split; [ apply new_cacheOk | auto ].
Qed.

Lemma get_cacheOk c now key :
  Props.cacheOk c -> Props.cacheOk (snd (Cache.get c now key)).
Proof.
  intros (Hinv & Hmax & Httl & Hall).
  destruct (get_config c now key) as [E1 E2].
  split; [ apply get_invariant, Hinv | ].
  split; [ congruence | ]. split; [ congruence | ].
  apply (get_contents (fun k v => isValidIp k = true /\ Props.fromLookup v)).
  exact Hall.
Qed.

Lemma set_cacheOk c now key (v : IpReputationResult) :
  Props.cacheOk c -> isValidIp key = true -> Props.fromLookup v ->
  Props.cacheOk (Cache.set c now key v None).
Proof.
  intros (Hinv & Hmax & Httl & Hall) Hkey Hv.
  split; [ | split; [ exact Hmax | split; [ exact Httl | ] ] ].
  - apply set_invariant; [ | apply isValidIp_nonEmpty, Hkey | exact Hinv ].
    rewrite Hmax. vm_compute. discriminate.
  - apply (set_contents (fun k v => isValidIp k = true /\ Props.fromLookup v));
      auto.
Qed.

Lemma delete_cacheOk c key :
  Props.cacheOk c -> Props.cacheOk (snd (Cache.delete c key)).
Proof.
  intros (Hinv & Hmax & Httl & Hall). unfold Cache.delete. simpl.
  split; [ apply invariant_shrink; [ exact Hinv | apply JsMap_delete_sublist ] | ].
  split; [ exact Hmax | split; [ exact Httl | ] ].
  exact (Forall_sublist_entries _ _ _ (JsMap_delete_sublist _ _) Hall).
Qed.

Lemma checkIpReputation_worldOk (env : Env) (w : World) (ip : string) :
  Props.worldOk w ->
  Props.worldOk (snd (checkIpReputation env w ip))
  /\ Props.fromLookup (Spec.resolved env w ip)
  /\ manualWhitelist (snd (checkIpReputation env w ip)) = manualWhitelist w
  /\ manualBlacklist (snd (checkIpReputation env w ip)) = manualBlacklist w.
Proof.
  intros Hw. unfold Spec.resolved, checkIpReputation.
  destruct (isValidIp ip) eqn:Hvalid; simpl.
  2: { split; [ exact Hw | ]. split; [ apply unknown_fromLookup | auto ]. }
  destruct (getIpCache_ok w Hw) as (Hc & HW & HB).
  destruct (getIpCache w) as [c w1]. simpl in Hc, HW, HB.
  pose proof (get_cacheOk c (nowLookup env) ip Hc) as Hc1.
  pose proof (get_value_contents
                (fun k v => isValidIp k = true /\ Props.fromLookup v)
                c (nowLookup env) ip) as Hhit.
  destruct (Cache.get c (nowLookup env) ip) as [[r | ] c1]; simpl in *.
  - destruct Hw as [_ Hd].
    split; [ split; [ exact Hc1 | simpl; rewrite HW, HB; exact Hd ] | ].
    split; [ | auto ].
    apply markCached_fromLookup. apply (Hhit r); [ apply Hc | reflexivity ].
  - destruct Hw as [_ Hd].
    destruct (fetchIpReputation env ip) as [result | error] eqn:Hfetch; simpl.
    + pose proof (fetchIpReputation_fromLookup env ip result Hfetch) as Hres.
      split; [ split; [ | simpl; rewrite HW, HB; exact Hd ] | ].
      * simpl. apply set_cacheOk; assumption.
      * split; [ exact Hres | auto ].
    + split; [ split; [ exact Hc1 | simpl; rewrite HW, HB; exact Hd ] | ].
      split; [ apply unknown_fromLookup | auto ].
Qed.

Lemma classify_world (env : Env) (w : World) (input : ClassifyInput) :
  snd (classify env w input) = w
  \/ snd (classify env w input) = snd (checkIpReputation env w (ip input)).
Proof.
  unfold classify.
  destruct (isBlacklisted w (ip input)); [ auto | ].
  destruct (isWhitelisted w (ip input)); [ auto | ].
  destruct (isAutomated _); [ auto | ].
  destruct (isHeadless _); [ auto | ].
  destruct (isFakeMobile _); [ auto | ].
  destruct (checkIpReputation env w (ip input)) as [resolved w']. auto.
Qed.

Lemma stepWorld_ok (w : World) (call : Props.Call) :
  Props.worldOk w -> Props.worldOk (Props.stepWorld w call).
Proof.
  intros Hw. destruct call as [env ip | env input | ip | ip | ip]; simpl.
  - apply checkIpReputation_worldOk, Hw.
  - destruct (classify_world env w input) as [-> | ->];
      [ exact Hw | apply checkIpReputation_worldOk, Hw ].
  - destruct Hw as [Hc Hd]. split; [ exact Hc | ]. simpl.
    intros x Hx Hx'. apply elem_of_difference in Hx' as [Hx' Hne].
    apply elem_of_union in Hx as [Hx | Hx]; [ exact (Hd x Hx Hx') | ].
    contradiction.
  - destruct Hw as [Hc Hd]. split; [ exact Hc | ]. simpl.
    intros x Hx Hx'. apply elem_of_difference in Hx as [Hx Hne].
    apply elem_of_union in Hx' as [Hx' | Hx']; [ exact (Hd x Hx Hx') | ].
    contradiction.
  - unfold Route.invalidateIp.
    destruct (getIpCache_ok w Hw) as (Hc & HW & HB).
    destruct (getIpCache w) as [c w1]. simpl in *.
    destruct Hw as [_ Hd]. split; simpl.
    + apply delete_cacheOk, Hc.
    + rewrite HW, HB. exact Hd.
Qed.

Lemma runWorld_ok (calls : list Props.Call) (w : World) :
  Props.worldOk w -> Props.worldOk (Props.runWorld w calls).
Proof.
  revert w. induction calls as [ | call calls IH]; intros w Hw; simpl.
  - exact Hw.
  - apply IH, stepWorld_ok, Hw.
Qed.

Lemma initialWorld_ok : Props.worldOk initialWorld.
Proof.
  split; [ exact I | ]. simpl.
  intros x Hx. apply not_elem_of_empty in Hx. destruct Hx.
Qed.

End WorldInvariant.

Section ReachableWorlds.

Import Types IpReputation Classifier.
Local Open Scope string_scope.
Local Open Scope Z_scope.

(** X14. Through every run of resolver calls, classifications, list
    updates and cache invalidations from the initial state, the IP cache
    holds at most 1000 entries, one per key, and every key is an address
    that [isValidIp] accepts, so never the empty string: the resolver
    never brings the cache into the state in which [evictOldest] fails to
    evict. *)
Theorem ip_cache_stays_bounded (calls : list Props.Call) :
  match ipCache (Props.runWorld initialWorld calls) with
  | Some c =>
      Cache.entries c <= 1000
      /\ Cache.maxSize c = 1000
      /\ NoDup (JsMap.keys (Cache.cache c))
      /\ Forall (fun k => isValidIp k = true /\ k <> "") (JsMap.keys (Cache.cache c))
  | None => True
  end.
Proof.
  destruct (runWorld_ok calls initialWorld initialWorld_ok) as [Hc _].
  destruct (ipCache (Props.runWorld initialWorld calls)) as [c | ]; [ | exact I ].
  destruct Hc as ((Hsize & Hnd & _) & Hmax & _ & Hall).
  rewrite Hmax in Hsize.
  split; [ exact Hsize | ]. split; [ exact Hmax | ]. split; [ exact Hnd | ].
  unfold JsMap.keys. apply Forall_forall. intros k Hk.
  apply list_elem_of_In, in_map_iff in Hk as ([k' e] & <- & Hin).
  rewrite Forall_forall in Hall.
  apply list_elem_of_In in Hin. destruct (Hall _ Hin) as [Hvalid _].
  simpl in *. split; [ exact Hvalid | apply isValidIp_nonEmpty, Hvalid ].
Qed.




Lemma checkIpReputation_lists (env : Env) (w : World) (ip : string) :
  manualWhitelist (snd (checkIpReputation env w ip)) = manualWhitelist w
  /\ manualBlacklist (snd (checkIpReputation env w ip)) = manualBlacklist w.
Proof.
  unfold checkIpReputation, getIpCache.
  destruct (isValidIp ip); simpl; [ | auto ].
  destruct (ipCache w) as [c | ];
    match goal with
    | |- context [Cache.get ?c0 ?n ?k] =>
        destruct (Cache.get c0 n k) as [[r | ] c1]
    end; simpl; auto;
    destruct (fetchIpReputation env ip); simpl; auto.
Qed.

(** X16. In every state reached from the initial one no address is on
    both manual lists, so the deny rule and the allow rule of [classify]
    never both apply.  Only [addToWhitelist] and [addToBlacklist] change
    the lists: resolving, classifying and invalidating leave both as they
    are, in every state. *)
Theorem manual_lists_stay_disjoint (calls : list Props.Call) (ip : string) :
  let w := Props.runWorld initialWorld calls in
  ~ (isWhitelisted w ip = true /\ isBlacklisted w ip = true)
  /\ forall (w0 : World) (call : Props.Call),
       match call with
       | Props.AddToWhitelist _ | Props.AddToBlacklist _ => True
       | _ =>
           manualWhitelist (Props.stepWorld w0 call) = manualWhitelist w0
           /\ manualBlacklist (Props.stepWorld w0 call) = manualBlacklist w0
       end.
Proof.
  intros w. split.
  - destruct (runWorld_ok calls initialWorld initialWorld_ok) as [_ Hd].
    fold w in Hd. unfold isWhitelisted, isBlacklisted.
    intros [H1 H2]. apply bool_decide_eq_true in H1, H2. exact (Hd ip H1 H2).
  - intros w0 [env x | env input | x | x | x]; simpl; try exact I.
    + apply checkIpReputation_lists.
    + destruct (classify_world env w0 input) as [-> | ->];
        [ auto | apply checkIpReputation_lists ].
    + unfold Route.invalidateIp, getIpCache.
      destruct (ipCache w0); simpl; auto.
Qed.

End ReachableWorlds.

(* ===================================================================== *)
(** * The resolver and its cache                                          *)
(* ===================================================================== *)

Section ResolverCache.

Import Types IpReputation.
Local Open Scope string_scope.
Local Open Scope Z_scope.


(** The key is absent after a [get] that missed. *)
Lemma get_miss_absent {T} (c : Cache.LRUCache T) now key :
  fst (Cache.get c now key) = None ->
  JsMap.get (Cache.cache (snd (Cache.get c now key))) key = None.
Proof.
  unfold Cache.get.
  destruct (JsMap.get (Cache.cache c) key) as [e | ] eqn:E; simpl;
    [ | intros _; exact E ].
  destruct (now >? Cache.expiresAt e); simpl; [ | discriminate ].
  intros _. apply JsMap_get_delete.
Qed.

Lemma get_absent {T} (c : Cache.LRUCache T) now key :
  JsMap.get (Cache.cache c) key = None -> fst (Cache.get c now key) = None.
Proof. intros E. unfold Cache.get. rewrite E. reflexivity. Qed.

(** [checkIpReputation] on an address that [isValidIp] accepts. *)
Lemma checkIpReputation_valid (env : Env) (w : World) (ip : string) :
  isValidIp ip = true ->
  let c := fst (getIpCache w) in
  let hit := Cache.get c (nowLookup env) ip in
  fst (checkIpReputation env w ip)
  = match fst hit with
    | Some r => Normal (markCached r)
    | None => Props.lookedUp env ip
    end
  /\ ipCache (snd (checkIpReputation env w ip))
     = Some match fst hit, fetchIpReputation env ip with
            | None, Normal result =>
                Cache.set (snd hit) (nowStore env) ip result None
            | _, _ => snd hit
            end.
Proof.
  intros Hvalid c hit. subst c hit. unfold checkIpReputation, Props.lookedUp.
  rewrite Hvalid. simpl.
  destruct (getIpCache w) as [c w1]. simpl.
  destruct (Cache.get c (nowLookup env) ip) as [[r | ] c1]; simpl.
  - destruct (fetchIpReputation env ip); auto.
  - destruct (fetchIpReputation env ip); simpl; auto.
Qed.

Lemma getIpCache_existing (w : World) c :
  ipCache w = Some c -> fst (getIpCache w) = c.
Proof. intros E. unfold getIpCache. rewrite E. reflexivity. Qed.



(** X18. A failed lookup is not cached.  When the cache does not serve a
    valid address and the lookup fails, nothing is stored under the
    address, and the next call for it asks the lookup service again, at
    whatever time it is made. *)
Theorem failed_lookup_not_cached (env : Env) (w : World) (ip : string) :
  isValidIp ip = true ->
  fst (Cache.get (fst (getIpCache w)) (nowLookup env) ip) = None ->
  Spec.lookupFails (fetch env (Config.IP_API_CONFIG.free.url ip)) = true ->
  let w1 := snd (checkIpReputation env w ip) in
  (exists c1, ipCache w1 = Some c1 /\ JsMap.get (Cache.cache c1) ip = None)
  /\ forall env', fst (checkIpReputation env' w1 ip) = Props.lookedUp env' ip.
Proof.
  intros Hvalid Hmiss Hfail w1.
  destruct (fetchIpReputation_fails env ip Hfail) as [error Hfetch].
  destruct (checkIpReputation_valid env w ip Hvalid) as [_ Hcache].
  rewrite Hmiss, Hfetch in Hcache. fold w1 in Hcache.
  pose proof (get_miss_absent _ _ _ Hmiss) as Habsent.
  split; [ eexists; split; [ exact Hcache | exact Habsent ] | ].
  intros env'.
  destruct (checkIpReputation_valid env' w1 ip Hvalid) as [Hres' _].
  rewrite (getIpCache_existing w1 _ Hcache) in Hres'.
  rewrite (get_absent _ _ _ Habsent) in Hres'. exact Hres'.
Qed.

Lemma failed_lookup_not_cached_witness :
  let w1 := snd (checkIpReputation (Mock.always Aborted) initialWorld "203.0.113.7") in
  exists r,
    fst (checkIpReputation Mock.jio w1 "203.0.113.7") = Normal r
    /\ cached r = false /\ isMobileCarrier r = true.
Proof.
  cbv zeta.
  destruct (failed_lookup_not_cached (Mock.always Aborted) initialWorld
              "203.0.113.7") as [_ Hnext];
    [ vm_compute; reflexivity | vm_compute; reflexivity
    | vm_compute; reflexivity | ].
  rewrite (Hnext Mock.jio). eexists. split; [ vm_compute; reflexivity | ].
  split; reflexivity.
Defined.

(** X19. The [cached] flag of a resolved reputation is true exactly when
    the address is valid and the cache served it; the reputation is then
    the stored one with the flag set.  Looked-up and neutral results
    always carry [cached] false. *)
Theorem cached_flag (env : Env) (w : World) (ip : string) :
  let hit := fst (Cache.get (fst (getIpCache w)) (nowLookup env) ip) in
  let rep := Spec.resolved env w ip in
  (cached rep = true <-> isValidIp ip = true /\ hit <> None)
  /\ (isValidIp ip = true ->
      forall r, hit = Some r -> rep = markCached r).
Proof.
  intros hit rep. subst hit rep. unfold Spec.resolved.
  destruct (isValidIp ip) eqn:Hvalid.
  - destruct (checkIpReputation_valid env w ip Hvalid) as [Hres _].
    rewrite Hres.
    destruct (fst (Cache.get (fst (getIpCache w)) (nowLookup env) ip)) as [r | ].
    + split; [ | intros _ r' E; inversion E; reflexivity ].
      simpl. split; [ intros _; split; [ reflexivity | discriminate ] | reflexivity ].
    + split; [ | discriminate ].
      assert (Hfresh : cached match Props.lookedUp env ip with
                              | Normal rep => rep
                              | Throw _ => createUnknownResult ip ""
                              end = false).
      { unfold Props.lookedUp, fetchIpReputation.
        destruct (fetch env _) as [ | message | status [ | data]]; simpl;
          try reflexivity.
        - destruct (negb (ok status)); reflexivity.
        - destruct (negb (ok status)); simpl; [ reflexivity | ].
          destruct (Api.error data); reflexivity. }
      rewrite Hfresh. split; [ discriminate | intros [_ H]; congruence ].
  - unfold checkIpReputation. rewrite Hvalid. simpl.
    split; [ | discriminate ].
    split; [ discriminate | intros [H _]; discriminate H ].
Qed.

End ResolverCache.

(* ===================================================================== *)
(** * What [isValidIp] accepts                                            *)
(* ===================================================================== *)

Section PatternBounds.

Import Regex.
Local Open Scope string_scope.

Lemma length_append (s1 s2 : string) :
  String.length (s1 ++ s2) = (String.length s1 + String.length s2)%nat.
Proof.
  induction s1 as [ | c s1 IH]; [ reflexivity | ].
  rewrite append_cons. simpl. rewrite IH. reflexivity.
Qed.

Lemma chars_append (s1 s2 : string) :
  list_ascii_of_string (s1 ++ s2)
  = (list_ascii_of_string s1 ++ list_ascii_of_string s2)%list.
Proof.
  induction s1 as [ | c s1 IH]; [ reflexivity | ].
  rewrite append_cons. simpl. rewrite IH. reflexivity.
Qed.

Lemma In_allAscii (c : ascii) : In c Props.allAscii.
Proof.
  unfold Props.allAscii. apply in_map_iff. exists (nat_of_ascii c).
  split; [ apply ascii_nat_embedding | ].
  apply in_seq. pose proof (nat_ascii_bounded c). lia.
Qed.

Lemma pow_forall (L : string -> Prop) (P : string -> Prop) (k : nat) (s : string) :
  P "" -> (forall s1 s2, L s1 -> P s2 -> P (s1 ++ s2)) ->
  pow L k s -> P s.
Proof.
  intros Hnil Happ. revert s. induction k as [ | k IH]; intros s; cbn [pow].
  - intros ->. exact Hnil.
  - intros (s1 & s2 & -> & H1 & H2). apply Happ; auto.
Qed.

(** The strings of a pattern are made of the characters of its classes. *)
Lemma lang_within (P : ascii -> bool) (r : regex) (s : string) :
  Props.within P r = true -> lang r s ->
  forallb P (list_ascii_of_string s) = true.
Proof.
  revert s.
  induction r as [ | | p | r1 IH1 r2 IH2 | r1 IH1 r2 IH2 | lo hi r IH ];
    intros s; cbn [Props.within lang].
  - intros _ [].
  - intros _ ->. reflexivity.
  - intros Hp (c & -> & Hc). simpl.
    rewrite forallb_forall in Hp. specialize (Hp c (In_allAscii c)).
    rewrite Hc in Hp. simpl in Hp. rewrite Hp. reflexivity.
  - intros Hw (s1 & s2 & -> & H1 & H2).
    apply andb_true_iff in Hw as [Hw1 Hw2].
    rewrite chars_append, forallb_app, (IH1 _ Hw1 H1), (IH2 _ Hw2 H2).
    reflexivity.
  - intros Hw [H | H]; apply andb_true_iff in Hw as [Hw1 Hw2]; auto.
  - intros Hw (k & _ & Hpow).
    apply (pow_forall (lang r)
             (fun t => forallb P (list_ascii_of_string t) = true) k s);
      [ reflexivity | | exact Hpow ].
    intros s1 s2 H1 H2.
    rewrite chars_append, forallb_app, (IH _ Hw H1), H2. reflexivity.
Qed.

Lemma pow_length (L : string -> Prop) (lo hi k : nat) (s : string) :
  (forall t, L t -> (lo <= String.length t <= hi)%nat) ->
  pow L k s -> (k * lo <= String.length s <= k * hi)%nat.
Proof.
  intros HL. revert s. induction k as [ | k IH]; intros s; cbn [pow].
  - intros ->. simpl. lia.
  - intros (s1 & s2 & -> & H1 & H2). rewrite length_append.
    specialize (HL _ H1). specialize (IH _ H2). lia.
Qed.

(** The length of a string of a pattern lies between the pattern's
    bounds. *)
Lemma lang_length (r : regex) (s : string) :
  lang r s -> (Props.minLen r <= String.length s <= Props.maxLen r)%nat.
Proof.
  revert s.
  induction r as [ | | p | r1 IH1 r2 IH2 | r1 IH1 r2 IH2 | lo hi r IH ];
    intros s; cbn [Props.minLen Props.maxLen lang].
  - intros [].
  - intros ->. simpl. lia.
  - intros (c & -> & _). simpl. lia.
  - intros (s1 & s2 & -> & H1 & H2). rewrite length_append.
    specialize (IH1 _ H1). specialize (IH2 _ H2). lia.
  - intros [H | H]; [ specialize (IH1 _ H) | specialize (IH2 _ H) ]; lia.
  - intros (k & Hk & Hpow).
    pose proof (pow_length _ _ _ _ _ IH Hpow) as Hlen. nia.
Qed.

End PatternBounds.

Section AcceptedAddresses.

Import Types IpReputation Regex.
Local Open Scope string_scope.
Local Open Scope Z_scope.

Local Abbreviation allDigits s :=
  (forallb Js.isDigit (list_ascii_of_string s) = true).

Lemma digits_pow (s : string) :
  allDigits s -> pow (lang digit) (String.length s) s.
Proof.
  induction s as [ | c s IH]; simpl; [ reflexivity | ].
  intros H. apply andb_true_iff in H as [Hc Hs].
  exists (String c ""), s. split; [ reflexivity | ].
  split; [ exists c; auto | exact (IH Hs) ].
Qed.

(** The strings of [\d{1,3}]. *)
Lemma octet_lang_iff (s : string) :
  lang (Rep 1 3 digit) s
  <-> allDigits s /\ (1 <= String.length s <= 3)%nat.
Proof.
  split.
  - intros (k & Hk & Hpow). apply pow_digit in Hpow as [Hall Hlen].
    split; [ exact Hall | lia ].
  - intros [Hall Hlen]. exists (String.length s).
    split; [ exact Hlen | apply digits_pow, Hall ].
Qed.

Lemma dotted (a b c d : string) :
  (a ++ String "." (b ++ String "." (c ++ String "." d)))
  = (((a ++ ".") ++ ((b ++ ".") ++ ((c ++ ".") ++ ""))) ++ d).
Proof.
  rewrite append_nil_r, !append_assoc, !append_cons, !append_nil_l.
  reflexivity.
Qed.

Lemma split_dotted (a b c d : string) :
  allDigits a -> allDigits b -> allDigits c -> allDigits d ->
  Js.split "." (a ++ String "." (b ++ String "." (c ++ String "." d)))
  = [a; b; c; d].
Proof.
  intros Ha Hb Hc Hd.
  rewrite !split_digits_dot, split_digits by assumption. reflexivity.
Qed.

(** The IPv4 pattern on four runs of digits joined by dots. *)
Lemma ipv4Regex_dotted (a b c d : string) :
  allDigits a -> allDigits b -> allDigits c -> allDigits d ->
  test ipv4Regex (a ++ String "." (b ++ String "." (c ++ String "." d))) = true
  <-> (1 <= String.length a <= 3)%nat /\ (1 <= String.length b <= 3)%nat
      /\ (1 <= String.length c <= 3)%nat /\ (1 <= String.length d <= 3)%nat.
Proof.
  intros Ha Hb Hc Hd. rewrite test_lang. split.
  - intros H.
    destruct H as (s1 & s2 & E & (k & Hk & Hpow) & Hd2).
    assert (k = 3%nat) by lia. subst k. cbn [pow] in Hpow.
    destruct Hpow as (x1 & y1 & -> & (a1 & e1 & -> & Ha1 & He1)
                      & x2 & y2 & -> & (b1 & e2 & -> & Hb1 & He2)
                      & x3 & y3 & -> & (c1 & e3 & -> & Hc1 & He3) & ->).
    apply chr_lang in He1, He2, He3. subst e1 e2 e3.
    rewrite <- (dotted a1 b1 c1 s2) in E.
    apply octet_lang_iff in Ha1 as [Ha1 La], Hb1 as [Hb1 Lb],
      Hc1 as [Hc1 Lc], Hd2 as [Hd2 Ld].
    assert (Hs : [a; b; c; d] = [a1; b1; c1; s2]).
    { rewrite <- (split_dotted a b c d), <- (split_dotted a1 b1 c1 s2), E
        by assumption. reflexivity. }
    inversion Hs; subst. auto.
  - intros (La & Lb & Lc & Ld). rewrite dotted.
    exists ((a ++ ".") ++ ((b ++ ".") ++ ((c ++ ".") ++ ""))), d.
    split; [ reflexivity | ]. split; [ | apply octet_lang_iff; auto ].
    exists 3%nat. split; [ lia | ]. cbn [pow].
    assert (Hseg : forall x, allDigits x -> (1 <= String.length x <= 3)%nat ->
                     lang (Cat (Rep 1 3 digit) (chr ".")) (x ++ ".")).
    { intros x Hx Lx. exists x, ".". split; [ reflexivity | ].
      split; [ apply octet_lang_iff; auto | ].
      exists "."%char. split; reflexivity. }
    exists (a ++ "."), ((b ++ ".") ++ (c ++ ".") ++ "").
    split; [ reflexivity | ]. split; [ apply Hseg; auto | ].
    exists (b ++ "."), ((c ++ ".") ++ "").
    split; [ reflexivity | ]. split; [ apply Hseg; auto | ].
    exists (c ++ "."), "". split; [ reflexivity | ]. split; [ apply Hseg; auto | ].
    reflexivity.
Qed.

(** The IPv6 pattern accepts no string with a dot. *)
Lemma ipv6Regex_no_dot (s1 s2 : string) :
  test ipv6Regex (s1 ++ String "." s2) = false.
Proof.
  destruct (test ipv6Regex (s1 ++ String "." s2)) eqn:E; [ | reflexivity ].
  apply test_lang in E.
  apply (lang_within (fun c => Js.isHexDigit c || Ascii.eqb c ":")) in E;
    [ | vm_compute; reflexivity ].
  rewrite chars_append, forallb_app in E. simpl in E.
  rewrite andb_false_r in E. discriminate E.
Qed.

Lemma octetInRange_digits (s : string) :
  allDigits s -> (1 <= String.length s)%nat ->
  octetInRange s = (Js.digitsValue 0 s <=? 255).
Proof.
  intros Hs Ls. unfold octetInRange.
  rewrite parseInt_digits; [ | exact Hs | intros ->; simpl in Ls; lia ].
  assert (Hnn : forall t acc, 0 <= acc -> allDigits t -> 0 <= Js.digitsValue acc t).
  { induction t as [ | ch t IH]; simpl; intros acc Hacc Ht; [ exact Hacc | ].
    apply andb_true_iff in Ht as [Hch Ht]. apply IH; [ | exact Ht ].
    unfold Js.isDigit in Hch. apply andb_true_iff in Hch as [H1 H2].
    apply N.leb_le in H1, H2. unfold Js.digitValue. lia. }
  specialize (Hnn s 0 ltac:(lia) Hs).
  destruct (Z.geb_spec (Js.digitsValue 0 s) 0); [ reflexivity | lia ].
Qed.

(** X20. On four runs of decimal digits joined by dots, [isValidIp] is
    true exactly when every run has one to three digits and a value of
    at most 255.  Leading zeros are accepted ("010.001.000.255"), a
    fourth digit or an empty run is not, and an octet above 255 is
    rejected. *)
Theorem isValidIp_dotted_quad (a b c d : string) :
  allDigits a -> allDigits b -> allDigits c -> allDigits d ->
  isValidIp (a ++ String "." (b ++ String "." (c ++ String "." d)))
  = Props.octet a && Props.octet b && Props.octet c && Props.octet d.
Proof.
  intros Ha Hb Hc Hd. unfold isValidIp, Props.octet.
  rewrite Ha, Hb, Hc, Hd. cbn [andb].
  pose proof (ipv4Regex_dotted a b c d Ha Hb Hc Hd) as Hiff.
  destruct (test ipv4Regex _) eqn:Htest.
  - destruct Hiff as [Hlen _]. destruct (Hlen eq_refl) as (La & Lb & Lc & Ld).
    rewrite (split_dotted a b c d Ha Hb Hc Hd). unfold Js.every.
    cbn [forallb].
    rewrite !octetInRange_digits by (assumption || lia).
    repeat match goal with
           | |- context [(?x <=? ?y)%nat] =>
               destruct (Nat.leb_spec x y); [ | lia ]
           end.
    cbn [andb]. rewrite andb_true_r, !andb_assoc. reflexivity.
  - rewrite ipv6Regex_no_dot. symmetry.
    destruct Hiff as [_ Hback].
    repeat match goal with
           | |- context [(?x <=? ?y)%nat] => destruct (Nat.leb_spec x y)
           end; cbn [andb]; rewrite ?andb_false_r; try reflexivity.
    assert (false = true) by (apply Hback; lia). discriminate.
Qed.

Lemma isValidIp_dotted_quad_witness :
  isValidIp "010.001.000.255" = true
  /\ isValidIp "1.2.3.256" = false
  /\ isValidIp "1.2.3.0004" = false.
Proof.
  generalize
    (isValidIp_dotted_quad "010" "001" "000" "255"
       eq_refl eq_refl eq_refl eq_refl),
    (isValidIp_dotted_quad "1" "2" "3" "256"
       eq_refl eq_refl eq_refl eq_refl),
    (isValidIp_dotted_quad "1" "2" "3" "0004"
       eq_refl eq_refl eq_refl eq_refl).
  vm_compute. intros H1 H2 H3. repeat split.
Defined.

(** X21. An address that [isValidIp] accepts consists of hexadecimal
    digits, dots and colons only and has between 2 and 39 characters; in
    particular it is not empty and contains no slash, space, question
    mark or hash that could change the lookup URL built from it. *)
Theorem isValidIp_characters (ip : string) :
  isValidIp ip = true ->
  forallb Props.addressChar (list_ascii_of_string ip) = true
  /\ (2 <= String.length ip <= 39)%nat
  /\ ip <> "".
Proof.
  unfold isValidIp. intros H.
  assert (Hlang : lang ipv4Regex ip \/ lang ipv6Regex ip).
  { destruct (test ipv4Regex ip) eqn:E; [ left | right ];
      apply test_lang; assumption. }
  assert (Hgoal : forallb Props.addressChar (list_ascii_of_string ip) = true
                  /\ (2 <= String.length ip <= 39)%nat).
  { destruct Hlang as [Hl | Hl].
    - split; [ apply (lang_within _ ipv4Regex); [ vm_compute; reflexivity | exact Hl ] | ].
      apply lang_length in Hl.
      change (Props.minLen ipv4Regex) with 7%nat in Hl.
      change (Props.maxLen ipv4Regex) with 15%nat in Hl. lia.
    - split; [ apply (lang_within _ ipv6Regex); [ vm_compute; reflexivity | exact Hl ] | ].
      apply lang_length in Hl.
      change (Props.minLen ipv6Regex) with 2%nat in Hl.
      change (Props.maxLen ipv6Regex) with 39%nat in Hl. lia. }
  destruct Hgoal as [Hc Hlen]. split; [ exact Hc | ]. split; [ exact Hlen | ].
  intros ->. simpl in Hlen. lia.
Qed.

Lemma isValidIp_characters_witness :
  forallb Props.addressChar (list_ascii_of_string "fe80::1:2") = true
  /\ (2 <= String.length "fe80::1:2" <= 39)%nat.
Proof.
  destruct (isValidIp_characters "fe80::1:2") as (H1 & H2 & _);
    [ vm_compute; reflexivity | ].
  split; [ exact H1 | exact H2 ].
Defined.

End AcceptedAddresses.

(* ===================================================================== *)
(** * Scores and labels of [classify]                                     *)
(* ===================================================================== *)

Section ScoreAndLabel.

Import Types IpReputation Classifier.
Local Open Scope string_scope.
Local Open Scope Z_scope.

Ltac thresholds :=
  unfold analyzeBehavior; simpl;
  unfold Config.BEHAVIOR_THRESHOLDS.desktop.mouseMovements.good,
         Config.BEHAVIOR_THRESHOLDS.desktop.mouseMovements.warn,
         Config.BEHAVIOR_THRESHOLDS.mobile.touchEvents.good,
         Config.BEHAVIOR_THRESHOLDS.mobile.touchEvents.warn;
  repeat match goal with
         | |- context [?a >=? ?b] => destruct (Z.geb_spec a b); simpl
         end.

(** The tail of [classify] on what reaches it from a lookup: no
    reputation mark is set and the device is neither fake nor automated.
    The weighted sum is then 72 plus a tenth of the behaviour score. *)
Lemma classifyByBehavior_band dev b rep fl :
  isVpn rep = false -> isTor rep = false -> isDatacenter rep = false ->
  isMobileCarrier rep = false -> isProxy rep = false ->
  isFakeMobile dev = false -> isAutomated dev = false ->
  (classification (classifyByBehavior dev b rep fl) = GOOD
   /\ 81 <= score (classifyByBehavior dev b rep fl) <= 82)
  \/ (classification (classifyByBehavior dev b rep fl) = WARN
      /\ 72 <= score (classifyByBehavior dev b rep fl) <= 78).
Proof.
  intros Hvpn Htor Hdc Hcarrier Hproxy Hfake Hauto.
  unfold classifyByBehavior, createResult, calculateIpScore, Js.some,
    Js.Math_max.
  cbn [classification score].
  rewrite Hvpn, Htor, Hdc, Hcarrier, Hproxy, Hfake, Hauto. cbn [orb].
  pose proof (analyzeBehavior_scores (type dev) b) as Hs. simpl in Hs.
  destruct (existsb _ _);
    destruct Hs as [<- | [<- | [<- | [<- | []]]]];
    match goal with
    | |- context [weightedScore ?x ?y ?z] =>
        let v := eval vm_compute in (weightedScore x y z) in
        change (weightedScore x y z) with v
    end;
    simpl;
    first [ left; split; [ reflexivity | lia ]
          | right; split; [ reflexivity | lia ] ].
Qed.

(** X22. In every state reached from the initial one [classify] returns
    a result whose score lies between 0 and 100 and determines the label:
    BAD results score at most 10, WARN results between 72 and 78, GOOD
    results at least 81.  The bands do not meet, so a consumer that reads
    only the score recovers the classification. *)
Theorem score_determines_label (calls : list Props.Call) (env : Env)
    (input : ClassifyInput) :
  let w := Props.runWorld initialWorld calls in
  exists result,
    fst (classify env w input) = Normal result
    /\ 0 <= score result <= 100
    /\ (classification result = BAD <-> score result <= 10)
    /\ (classification result = WARN <-> 72 <= score result <= 78)
    /\ (classification result = GOOD <-> 81 <= score result).
Proof.
  intros w.
  pose proof (runWorld_ok calls initialWorld initialWorld_ok) as Hw. fold w in Hw.
  destruct (checkIpReputation_worldOk env w (ip input) Hw)
    as (_ & [Hproxy _] & _).
  eexists. split; [ apply classify_unfold | ].
  set (rep := Spec.resolved env w (ip input)) in *.
  set (dev := device (fingerprint input)).
  assert (Hfixed : forall c n reason fl rp dt,
             (c = BAD /\ 0 <= n <= 10) \/ (c = GOOD /\ 81 <= n <= 100)
             \/ (c = WARN /\ 72 <= n <= 78) ->
             let r := createResult c n reason fl rp dt in
             0 <= score r <= 100
             /\ (classification r = BAD <-> score r <= 10)
             /\ (classification r = WARN <-> 72 <= score r <= 78)
             /\ (classification r = GOOD <-> 81 <= score r)).
  { intros c n reason fl rp dt H. simpl.
    destruct H as [[-> H] | [[-> H] | [-> H]]];
      repeat split; intros; first [ lia | discriminate | reflexivity ]. }
  destruct (isBlacklisted w (ip input)); [ apply Hfixed; left; split; [ reflexivity | lia ] | ].
  destruct (isWhitelisted w (ip input)); [ apply Hfixed; right; left; split; [ reflexivity | lia ] | ].
  destruct (isAutomated dev) eqn:Hauto; [ apply Hfixed; left; split; [ reflexivity | lia ] | ].
  destruct (isHeadless dev); [ apply Hfixed; left; split; [ reflexivity | lia ] | ].
  destruct (isFakeMobile dev) eqn:Hfake; [ apply Hfixed; left; split; [ reflexivity | lia ] | ].
  destruct (isVpn rep) eqn:Hvpn; [ apply Hfixed; left; split; [ reflexivity | lia ] | ].
  destruct (isTor rep) eqn:Htor; [ apply Hfixed; left; split; [ reflexivity | lia ] | ].
  destruct (isDatacenter rep) eqn:Hdc; [ apply Hfixed; left; split; [ reflexivity | lia ] | ].
  destruct (isMobileCarrier rep) eqn:Hcarrier; [ apply Hfixed; right; left; split; [ reflexivity | lia ] | ].
  destruct (classifyByBehavior_band dev (behavior input) rep [] Hvpn Htor Hdc
              Hcarrier Hproxy Hfake Hauto) as [[Hc Hs] | [Hc Hs]];
    rewrite Hc; repeat split; intros; first [ lia | discriminate | reflexivity ].
Qed.

(** X23. [analyzeBehavior] reads one counter only: mouse movements on a
    desktop, touch events on a mobile or tablet device, none for bot and
    unknown devices.  Two behaviour records that agree on that counter
    get the same analysis, whatever their other fields hold, and a larger
    counter never gets a lower score. *)
Theorem analyzeBehavior_monotone (t : DeviceType) (b1 b2 : BehaviorData) :
  (Props.counter t b1 = Props.counter t b2 ->
   analyzeBehavior t b1 = analyzeBehavior t b2)
  /\ (forall n1 n2,
        Props.counter t b1 = Some n1 -> Props.counter t b2 = Some n2 ->
        n1 <= n2 ->
        Analysis.score (analyzeBehavior t b1)
        <= Analysis.score (analyzeBehavior t b2)).
Proof.
  split.
  - destruct t; simpl; intros E; try reflexivity;
      injection E as E; unfold analyzeBehavior; simpl; rewrite E; reflexivity.
  - intros n1 n2 E1 E2 Hle.
    destruct t; simpl in E1, E2; try discriminate;
      injection E1 as E1; injection E2 as E2; subst n1 n2;
      thresholds; lia.
Qed.

(** X24. The label of the behaviour stage is recomputed from the score
    and not taken from the analyzer: the two agree exactly on desktop,
    mobile and tablet devices.  For a bot or unknown device the analyzer
    answers BAD with score 0, and [classify] reports WARN, with the
    analyzer's reason and its flag [suspicious_device_type]. *)
Theorem analyzer_label_overridden dev b rep fl :
  (classification (classifyByBehavior dev b rep fl)
   = Analysis.classification (analyzeBehavior (type dev) b)
   <-> type dev <> bot /\ type dev <> unknown)
  /\ (type dev = bot \/ type dev = unknown ->
      Analysis.classification (analyzeBehavior (type dev) b) = BAD
      /\ classification (classifyByBehavior dev b rep fl) = WARN
      /\ reason (classifyByBehavior dev b rep fl)
         = "Suspicious device type: " ++ deviceTypeName (type dev)
      /\ In "suspicious_device_type"
           (flags (details (classifyByBehavior dev b rep fl)))).
Proof.
  rewrite classifyByBehavior_classification, label_after_penalty.
  split.
  - unfold Spec.label.
    destruct (type dev); thresholds;
      (split; [ intros Heq; first [ discriminate Heq | split; discriminate ]
              | intros [Hbot Hunknown]; first [ reflexivity | congruence ] ]).
  - intros Ht.
    assert (Ha : analyzeBehavior (type dev) b
                 = Analysis.mkAnalysis 0 BAD
                     ("Suspicious device type: " ++ deviceTypeName (type dev))
                     ["suspicious_device_type"])
      by (destruct Ht as [-> | ->]; reflexivity).
    unfold classifyByBehavior, createResult, Js.pushAll, Js.push.
    cbn [reason flags details]. rewrite Ha. cbn [Analysis.score Analysis.classification
      Analysis.reason Analysis.flags].
    split; [ reflexivity | ]. split; [ reflexivity | ]. split; [ reflexivity | ].
    destruct (Js.some _ _); rewrite ?in_app_iff; simpl; auto.
Qed.

End ScoreAndLabel.

(* ===================================================================== *)
(** * The routes                                                          *)
(* ===================================================================== *)

Section ClientAddress.

Import Types IpReputation.
Local Open Scope string_scope.














End ClientAddress.

Section CacheInvalidation.

Import Types IpReputation.
Local Open Scope string_scope.
Local Open Scope Z_scope.




End CacheInvalidation.
